(** * Trilobot obstacle avoidance: a shallow embedding of the Python scripts

    The repository holds three generations of one obstacle-avoidance script
    for the Pimoroni Trilobot:

    - [Trilobot.py]      (1.0.0, ultrasonic ranger, single backup command),
    - [Trilobot_v060.py] (0.6.0, ultrasonic ranger, pulsed backup),
    - [Trilobot_v072.py] (0.7.2, VL53L5CX 8x8 depth sensor, three zones),

    and [utility_functions.py], a collection of the helper functions.

    Modelling conventions.

    - Python [int] is [Z]; Python [float] is a rational [Q].  Where
      [Trilobot_v072.py] computes in double precision on values that need
      not be small (the zone averages, the sums of the turn decision, the
      percentage) the result is rounded by [float64], the double nearest
      to the exact result.  The decimal constants of the scripts and the
      readings of the ultrasonic ranger are taken as the rationals they
      denote, and the ranger's readings are summed and averaged exactly.
    - A numpy array of two dimensions is the list of its rows.
    - Exceptions are values of [exn]; pure code that may raise lives in
      [result], hardware code in the monad [M] over a [world] that records
      every call made on the robot and its sensors.
    - Console output ([print], [print_array]) is not an action on the robot
      and is left out of the scripts; [DEBUG] only guards console output.
      [print_array] itself is modelled on its own, over the text written.
    - Line 422 of [Trilobot_v072.py] reads [else;].  It is read as [else:],
      the only reading under which the script is a Python program. *)

From Stdlib Require Import String ZArith QArith Bool Arith List Lia.
From Stdlib Require Import DecimalString.
Import ListNotations.

Set Implicit Arguments.

(* ===================================================================== *)
(** * Python values, exceptions and sequences                             *)
(* ===================================================================== *)

Inductive exn : Type :=
| ValueError (msg : string)
| IndexError
| NameError (name : string)
| ZeroDivisionError.

(** The result of evaluating pure Python code: a value or a raised
    exception. *)
Inductive result (A : Type) : Type :=
| Ok (a : A)
| Raise (e : exn).

Arguments Ok {A} a.
Arguments Raise {A} e.

Definition rbind {A B} (r : result A) (k : A -> result B) : result B :=
  match r with
  | Ok a => k a
  | Raise e => Raise e
  end.

Declare Scope result_scope.
Delimit Scope result_scope with result.
Notation "'let?' x := r 'in' k" := (rbind r (fun x => k))
  (at level 10, x name, r at level 100, k at level 200) : result_scope.

(** [range(start, stop, 1)]. *)
Definition py_range (start stop : Z) : list Z :=
  map (fun k => (start + Z.of_nat k)%Z) (seq 0 (Z.to_nat (stop - start))).

(** Subscription [l[i]] of a sequence: negative indices count from the end,
    anything outside raises [IndexError]. *)
Definition py_index {A} (l : list A) (i : Z) : result A :=
  let n := Z.of_nat (length l) in
  let j := if (i <? 0)%Z then (i + n)%Z else i in
  if (j <? 0)%Z then Raise IndexError
  else match nth_error l (Z.to_nat j) with
       | Some x => Ok x
       | None => Raise IndexError
       end.

(** A [for] loop that appends one element per iteration to a fresh list;
    an exception in the body abandons the list. *)
Fixpoint for_append {A B} (body : A -> result B) (l : list A) : result (list B) :=
  match l with
  | [] => Ok []
  | x :: xs =>
      (let? y := body x in
       let? ys := for_append body xs in
       Ok (y :: ys))%result
  end.

(** Evaluation of the module-level name [name]: what [namespace] binds it
    to, or [NameError] for a name the module never binds. *)
Definition lookup_name {F} (namespace : list (string * F)) (name : string) : result F :=
  match find (fun d => String.eqb (fst d) name) namespace with
  | Some d => Ok (snd d)
  | None => Raise (NameError name)
  end.

(** A numpy array of two dimensions, as the list of its rows. *)
Definition ndarray (A : Type) := list (list A).

(** Python comparisons on floats. *)
Definition Qlt_bool (x y : Q) : bool := negb (Qle_bool y x).
Definition Qge_bool (x y : Q) : bool := Qle_bool y x.

(** [int(x)] on a float: truncation toward zero. *)
Definition py_int (x : Q) : Z := Z.quot (Qnum x) (Zpos (Qden x)).

(** [round(x)] to an integer, ties to even. *)
Definition round_half_even (x : Q) : Z :=
  let n := Qnum x in
  let d := Zpos (Qden x) in
  let q := (n / d)%Z in
  let r := (n mod d)%Z in
  match (2 * r ?= d)%Z with
  | Lt => q
  | Gt => (q + 1)%Z
  | Eq => if Z.even q then q else (q + 1)%Z
  end.

(** ** Double precision *)

(** [x * 2^e], the fraction left as it comes. *)
Definition scale2 (x : Q) (e : Z) : Q :=
  if (e <? 0)%Z then Qnum x # (Qden x * Z.to_pos (2 ^ (- e)))
  else (Qnum x * 2 ^ e)%Z # Qden x.

(** The exponent of the leading bit of a positive [x]: the floor of its
    binary logarithm. *)
Definition ilog2 (x : Q) : Z :=
  let k := (Z.log2 (Qnum x) - Z.log2 (Zpos (Qden x)))%Z in
  if Qle_bool 1 (scale2 x (- k)) then k else (k - 1)%Z.

(** The double nearest to [x], ties to the even significand: [x] is scaled
    to a significand of 53 bits, rounded to an integer and scaled back.
    The exponent range of a double is not modelled; no value computed here
    comes near its ends. *)
Definition float64 (x : Q) : Q :=
  match Qnum x with
  | 0%Z => 0
  | _ =>
      let a := Z.abs (Qnum x) # Qden x in
      let e := (ilog2 a - 52)%Z in
      let y := scale2 (inject_Z (round_half_even (scale2 a (- e)))) e in
      Qred (if Qle_bool 0 x then y else - y)
  end.

(** [round(x, 2)] of a double [x]: the decimal of two places nearest to
    the exact value of [x], ties to even, then the double nearest to that
    decimal. *)
Definition py_round2 (x : Q) : Q :=
  float64 (inject_Z (round_half_even (x * 100)) / 100).

(* ===================================================================== *)
(** * Functions that print                                                 *)
(* ===================================================================== *)

(** A function that writes to standard output: the text written so far is
    threaded through, and stays written when an exception ends the call. *)
Definition printing (A : Type) : Type := string -> result A * string.

Definition print_ret {A} (a : A) : printing A := fun out => (Ok a, out).

Definition print_bind {A B} (m : printing A) (k : A -> printing B) : printing B :=
  fun out =>
    match m out with
    | (Ok a, out') => k a out'
    | (Raise e, out') => (Raise e, out')
    end.

Definition print_lift {A} (r : result A) : printing A := fun out => (r, out).

Definition newline : string := String (Ascii.ascii_of_nat 10) EmptyString.

(** [print(text, end=end_)]. *)
Definition print (text end_ : string) : printing unit :=
  fun out => (Ok tt, (out ++ text ++ end_)%string).

(** [for x in l: body]. *)
Fixpoint print_for {A} (body : A -> printing unit) (l : list A) : printing unit :=
  match l with
  | [] => print_ret tt
  | x :: xs => print_bind (body x) (fun _ => print_for body xs)
  end.

(** The format ["{0:6d}"] applied to an integer: its decimal digits, with
    a minus sign if negative, right-aligned in at least six columns. *)
Definition format_6d (x : Z) : string :=
  let digits := NilZero.string_of_int (Z.to_int x) in
  (string_of_list_ascii (repeat (Ascii.ascii_of_nat 32) (6 - String.length digits)) ++ digits)%string.

Declare Scope print_scope.
Delimit Scope print_scope with print.
Notation "x <- m ;; k" := (print_bind m (fun x => k))
  (at level 61, m at next level, right associativity) : print_scope.
Notation "m ;; k" := (print_bind m (fun _ => k))
  (at level 61, right associativity) : print_scope.

(* ===================================================================== *)
(** * The robot, its sensors and the interpreter around the scripts        *)
(* ===================================================================== *)

Inductive light : Type :=
| LIGHT_FRONT_LEFT | LIGHT_MIDDLE_LEFT | LIGHT_REAR_LEFT
| LIGHT_FRONT_RIGHT | LIGHT_MIDDLE_RIGHT | LIGHT_REAR_RIGHT.

Definition colour : Type := (Z * Z * Z)%type.

(** What a script passes as the [group] of underlights: a list of lights,
    or (in the failure path of the ultrasonic reading) a list of such
    lists. *)
Inductive lights : Type :=
| Lights (group : list light)
| LightGroups (groups : list (list light)).

(** One call on the robot, a sensor, the clock or the random generator,
    with what it was given or what it returned. *)
Inductive event : Type :=
| SetMotorSpeeds (left_speed right_speed : Q)
| SetUnderlights (group : lights) (c : colour)
| ClearUnderlights (group : lights)
| Sleep (seconds : Q)
| DataReady (ready : bool)
| GetData (distance_mm : list N)
| ReadDistance (cm : Q)
| Random (x : Q)
| RandInt (n : Z).

(** What the surroundings answer when asked as the [t]-th call. *)
Record environment : Type := {
  data_ready_at : nat -> bool;
  distance_mm_at : nat -> list N;
  read_distance_at : nat -> Q;
  random_at : nat -> Q;
  randint_at : nat -> Z
}.

(** The state a script runs in: the surroundings, the calls made so far
    (newest first), the operator's pending Ctrl/C (delivered in place of
    the first call whose index is at least [k]) and the module-level
    variables of the script. *)
Record world (G : Type) : Type := {
  env : environment;
  log : list event;
  sigint : option nat;
  globals : G
}.

(** How a run of the model ends: with a value, with an exception the code
    raised, or with the [KeyboardInterrupt] the interpreter raises on
    Ctrl/C (no script raises it itself).  [OutOfFuel] is the bound of the
    model on [while] loops, not a behaviour of the script. *)
Inductive outcome (A : Type) : Type :=
| Return (a : A)
| Raised (e : exn)
| KeyboardInterrupt
| OutOfFuel.

Arguments Return {A} a.
Arguments Raised {A} e.
Arguments KeyboardInterrupt {A}.
Arguments OutOfFuel {A}.

(** The world after one more call [e]. *)
Definition logged {G} (e : event) (w : world G) : world G :=
  {| env := env w; log := e :: log w; sigint := sigint w; globals := globals w |}.

(** The world once the pending Ctrl/C has been delivered. *)
Definition delivered {G} (w : world G) : world G :=
  {| env := env w; log := log w; sigint := None; globals := globals w |}.

(** The world after an assignment to module-level variables. *)
Definition with_globals {G} (f : G -> G) (w : world G) : world G :=
  {| env := env w; log := log w; sigint := sigint w; globals := f (globals w) |}.

Definition sigint_due {G} (w : world G) : bool :=
  match sigint w with
  | Some k => (k <=? length (log w))%nat
  | None => false
  end.

Definition M (G A : Type) : Type := world G -> outcome A * world G.

Section Interpreter.
Variable G : Type.

Definition ret {A} (a : A) : M G A := fun w => (Return a, w).

Definition bind {A B} (m : M G A) (k : A -> M G B) : M G B :=
  fun w =>
    match m w with
    | (Return a, w') => k a w'
    | (Raised e, w') => (Raised e, w')
    | (KeyboardInterrupt, w') => (KeyboardInterrupt, w')
    | (OutOfFuel, w') => (OutOfFuel, w')
    end.

Definition raise {A} (e : exn) : M G A := fun w => (Raised e, w).

Definition out_of_fuel {A} : M G A := fun w => (OutOfFuel, w).

Definition lift {A} (r : result A) : M G A :=
  match r with
  | Ok a => ret a
  | Raise e => raise e
  end.

Definition read_globals : M G G := fun w => (Return (globals w), w).

Definition update_globals (f : G -> G) : M G unit :=
  fun w => (Return tt, with_globals f w).

(** A call that leaves the script: Ctrl/C, when due, is raised in its
    place; otherwise the call is made and logged. *)
Definition call {A} (perform : environment -> nat -> A * event) : M G A :=
  fun w =>
    if sigint_due w then (KeyboardInterrupt, delivered w)
    else
      let (a, e) := perform (env w) (length (log w)) in
      (Return a, logged e w).

Definition set_motor_speeds (l r : Q) : M G unit :=
  call (fun _ _ => (tt, SetMotorSpeeds l r)).
Definition set_underlights (g : lights) (c : colour) : M G unit :=
  call (fun _ _ => (tt, SetUnderlights g c)).
Definition clear_underlights (g : lights) : M G unit :=
  call (fun _ _ => (tt, ClearUnderlights g)).
Definition sleep (sec : Q) : M G unit :=
  call (fun _ _ => (tt, Sleep sec)).
Definition data_ready : M G bool :=
  call (fun E t => (data_ready_at E t, DataReady (data_ready_at E t))).
Definition get_data : M G (list N) :=
  call (fun E t => (distance_mm_at E t, GetData (distance_mm_at E t))).
Definition read_distance : M G Q :=
  call (fun E t => (read_distance_at E t, ReadDistance (read_distance_at E t))).
Definition random : M G Q :=
  call (fun E t => (random_at E t, Random (random_at E t))).
Definition randint : M G Z :=
  call (fun E t => (randint_at E t, RandInt (randint_at E t))).

(** [if c: m]. *)
Definition when (c : bool) (m : M G unit) : M G unit :=
  if c then m else ret tt.

(** [for _ in range(n): body]. *)
Fixpoint for_range (n : nat) (body : M G unit) : M G unit :=
  match n with
  | O => ret tt
  | S n' => bind body (fun _ => for_range n' body)
  end.

(** [while cond: body], cut after [fuel] iterations. *)
Fixpoint while (fuel : nat) (cond : M G bool) (body : M G unit) : M G unit :=
  bind cond (fun c =>
    if c then
      match fuel with
      | O => out_of_fuel
      | S fuel' => bind body (fun _ => while fuel' cond body)
      end
    else ret tt).

(** [try: body / except KeyboardInterrupt: handler]. *)
Definition try_except_KeyboardInterrupt (body handler : M G unit) : M G unit :=
  fun w =>
    match body w with
    | (KeyboardInterrupt, w') => handler w'
    | r => r
    end.

(** [while cond: body] over variables of the enclosing function, which
    the loop reads and assigns. *)
Fixpoint while_local {S} (fuel : nat) (cond : S -> bool) (body : S -> M G S)
    (s : S) : M G S :=
  if cond s then
    match fuel with
    | O => out_of_fuel
    | S fuel' => bind (body s) (while_local fuel' cond body)
    end
  else ret s.

(** [for _ in range(n): body] over variables of the enclosing function. *)
Fixpoint for_range_local {S} (n : nat) (body : S -> M G S) (s : S) : M G S :=
  match n with
  | O => ret s
  | S n' => bind (body s) (for_range_local n' body)
  end.

(** [blink_underlights(trilobot, group, color, nr_cycles, blink_rate_sec)],
    the same text in all four files. *)
Definition blink_underlights (group : lights) (color : colour)
    (nr_cycles : nat) (blink_rate_sec : Q) : M G unit :=
  for_range nr_cycles
    (bind (set_underlights group color) (fun _ =>
     bind (sleep blink_rate_sec) (fun _ =>
     clear_underlights group))).

End Interpreter.

Arguments ret {G A} a.
Arguments raise {G A} e.
Arguments out_of_fuel {G A}.
Arguments lift {G A} r.
Arguments read_globals {G}.
Arguments set_motor_speeds {G} l r.
Arguments set_underlights {G} g c.
Arguments clear_underlights {G} g.
Arguments sleep {G} sec.
Arguments data_ready {G}.
Arguments get_data {G}.
Arguments read_distance {G}.
Arguments random {G}.
Arguments randint {G}.

Declare Scope script_scope.
Delimit Scope script_scope with script.
Notation "x <- m ;; k" := (bind m (fun x => k))
  (at level 61, m at next level, right associativity) : script_scope.
Notation "' pat <- m ;; k" := (bind m (fun x => match x with pat => k end))
  (at level 61, pat pattern, m at next level, right associativity) : script_scope.
Notation "m ;; k" := (bind m (fun _ => k))
  (at level 61, right associativity) : script_scope.

(** The calls made so far, oldest first. *)
Definition history {G} (w : world G) : list event := rev (log w).

(** The motor command in effect: the latest [set_motor_speeds]. *)
Fixpoint motor_command (newest_first : list event) : option (Q * Q) :=
  match newest_first with
  | [] => None
  | SetMotorSpeeds l r :: _ => Some (l, r)
  | _ :: older => motor_command older
  end.

Definition DEFAULT_BLINK_RATE_SEC : Q := 0.25.
Definition DEFAULT_NUM_CYCLES : nat := 1.

Definition LEFT_LIGHTS : list light := [LIGHT_FRONT_LEFT; LIGHT_MIDDLE_LEFT].
Definition RIGHT_LIGHTS : list light := [LIGHT_FRONT_RIGHT; LIGHT_MIDDLE_RIGHT].
Definition REAR_LIGHTS : list light := [LIGHT_REAR_LEFT; LIGHT_REAR_RIGHT].
Definition FRONT_LIGHTS : list light := [LIGHT_FRONT_LEFT; LIGHT_FRONT_RIGHT].

(* ===================================================================== *)
(** * Trilobot_v072.py                                                     *)
(* ===================================================================== *)

Module V072.

Definition COLLISION_THRESHOLD_MM : Z := 200.
Definition TURN_TOLERANCE_MM : Q := 1.0.
Definition LEFT : Z := 1.
Definition RIGHT : Z := 2.

Definition out_of_range_msg : string :=
  "(np_extract) Array boundaries are out of range!".

(** [np_extract(arr, start_row, start_col, end_row, end_col)], lines
    181-233.  [arr] has two dimensions here, so the [isinstance] test
    passes and [len(arr[0])] raises no [TypeError]. *)
Definition np_extract {A} (arr : ndarray A)
    (start_row start_col end_row end_col : Z) : result (list (list A)) :=
  let _nr_rows := Z.of_nat (length arr) in
  (let? row0 := py_index arr 0 in
   let _nr_cols := Z.of_nat (length row0) in
   let valid :=
     (start_row >=? 0)%Z && (start_col >=? 0)%Z &&
     (start_row <=? _nr_rows)%Z && (start_col <=? _nr_cols)%Z &&
     (end_row >=? 0)%Z && (end_col >=? 0)%Z &&
     (end_row <=? _nr_rows)%Z && (end_col <=? _nr_cols)%Z in
   if valid then
     for_append
       (fun r =>
          for_append
            (fun c => let? row := py_index arr r in py_index row c)
            (py_range start_col (end_col + 1)))
       (py_range start_row (end_row + 1))
   else Raise (ValueError out_of_range_msg))%result.

(** [np.average(m)] of a nested list of unsigned integers with rows of one
    length (what [np_extract] returns): every element is converted to a
    double, the doubles are added in double precision and the total is
    divided by the count; [None] stands for the NaN numpy gives for no
    element.  numpy adds pairwise, in an order that depends on the size and
    layout of the array; the model adds in row order, which gives the same
    total wherever every partial sum is exact. *)
Definition np_average (m : list (list Z)) : option Q :=
  let flat := concat m in
  match flat with
  | [] => None
  | _ => Some (float64
                 (fold_left (fun total x => float64 (total + float64 (inject_Z x)))
                    flat 0
                  / inject_Z (Z.of_nat (length flat))))
  end.

(** [int(np.average(_mm))], lines 253, 262 and 271. *)
Definition int_np_average (m : list (list Z)) : result Z :=
  match np_average m with
  | Some mean => Ok (py_int mean)
  | None => Raise (ValueError "cannot convert float NaN to integer")
  end.

(** [check_for_collision(fwd_mm, threshold)], lines 281-290. *)
Definition check_for_collision (fwd_mm threshold : Z) : bool :=
  let result := false in
  let result := if (fwd_mm <=? threshold)%Z then true else result in
  result.

(** The maneuver chosen by the [if]/[elif] chain of lines 411-423. *)
Inductive maneuver : Type := TurnRight | TurnLeft | BackUp.

Definition turn_decision (left_distance_mm right_distance_mm : Z)
    (tolerance percent : Q) : maneuver :=
  if Qge_bool (inject_Z right_distance_mm) (inject_Z left_distance_mm + tolerance)
  then TurnRight
  else if Qge_bool (inject_Z left_distance_mm) (inject_Z right_distance_mm + tolerance)
  then TurnLeft
  else if Qlt_bool percent 50.0 then TurnRight
  else if Qge_bool percent 50.0 then TurnLeft
  else BackUp.

(** The same chain as Python evaluates it: [left_distance_mm +
    TURN_TOLERANCE_MM] converts the integer to a double and rounds the sum
    to a double, and an integer is compared with a double exactly.
    [turn_decision] is this chain with both sums taken exactly. *)
Definition turn_decision_float64 (left_distance_mm right_distance_mm : Z)
    (tolerance percent : Q) : maneuver :=
  if Qge_bool (inject_Z right_distance_mm)
       (float64 (float64 (inject_Z left_distance_mm) + tolerance))
  then TurnRight
  else if Qge_bool (inject_Z left_distance_mm)
            (float64 (float64 (inject_Z right_distance_mm) + tolerance))
  then TurnLeft
  else if Qlt_bool percent 50.0 then TurnRight
  else if Qge_bool percent 50.0 then TurnLeft
  else BackUp.

Definition is_8x8 {A} (frame : ndarray A) : Prop :=
  length frame = 8%nat /\ Forall (fun row => length row = 8%nat) frame.

(** The cell at row [i], column [j], if there is one. *)
Definition cell {A} (m : list (list A)) (i j : Z) : option A :=
  if (i <? 0)%Z || (j <? 0)%Z then None
  else match nth_error m (Z.to_nat i) with
       | Some row => nth_error row (Z.to_nat j)
       | None => None
       end.


(** ** Constants of [Trilobot_v072.py] *)

Definition NORMAL_LEFT_SPEED : Q := 0.50.
Definition NORMAL_LEFT_OFFSET : Q := 0.0.
Definition NORMAL_RIGHT_SPEED : Q := 0.50.
Definition NORMAL_RIGHT_OFFSET : Q := - 0.50.
Definition TURN_SPEED : Q := 0.45.
Definition TURN_TIME_SEC : Q := 0.45.
Definition DEFAULT_BACKUP_LOOPS : nat := 5.
Definition DEFAULT_BACKUP_TIME_SEC : Q := 0.15.
Definition BLUE : colour := (0, 0, 255)%Z.
Definition GREEN : colour := (0, 255, 0)%Z.
Definition YELLOW : colour := (255, 255, 0)%Z.

(** The value line 357 gives [DRIVE_ON]. *)
Definition DRIVE_ON_as_shipped : bool := false.

(** ** The frame source *)

(** [.reshape((rows, cols))] of a flat array. *)
Fixpoint rows_of {A} (rows cols : nat) (flat : list A) : list (list A) :=
  match rows with
  | O => []
  | S rows' => firstn cols flat :: rows_of rows' cols (skipn cols flat)
  end.

Definition reshape {A} (rows cols : nat) (flat : list A) : result (ndarray A) :=
  if (length flat =? rows * cols)%nat then Ok (rows_of rows cols flat)
  else Raise (ValueError "cannot reshape array").

Definition flipud {A} (a : ndarray A) : ndarray A := rev a.
Definition fliplr {A} (a : ndarray A) : ndarray A := map (@rev A) a.

(** Module-level variables assigned by the main line. *)
Record globals : Type := {
  left_distance_mm : Z;
  right_distance_mm : Z;
  center_distance_mm : Z;
  collision : bool;
  percent : Q;
  last_turn : Z
}.

Definition assign_distances (lrc : Z * Z * Z) (g : globals) : globals :=
  let '(l, r, c) := lrc in
  {| left_distance_mm := l; right_distance_mm := r; center_distance_mm := c;
     collision := collision g; percent := percent g; last_turn := last_turn g |}.

Definition assign_collision (b : bool) (g : globals) : globals :=
  {| left_distance_mm := left_distance_mm g;
     right_distance_mm := right_distance_mm g;
     center_distance_mm := center_distance_mm g;
     collision := b; percent := percent g; last_turn := last_turn g |}.

Definition assign_percent (p : Q) (g : globals) : globals :=
  {| left_distance_mm := left_distance_mm g;
     right_distance_mm := right_distance_mm g;
     center_distance_mm := center_distance_mm g;
     collision := collision g; percent := p; last_turn := last_turn g |}.

Definition assign_last_turn (t : Z) (g : globals) : globals :=
  {| left_distance_mm := left_distance_mm g;
     right_distance_mm := right_distance_mm g;
     center_distance_mm := center_distance_mm g;
     collision := collision g; percent := percent g; last_turn := t |}.

Section Script.
Variable DRIVE_ON : bool.

Local Open Scope script_scope.

(** [np_distances_vl53l5cx_mm], lines 155-179: wait for a frame, fetch it
    as unsigned integers, reorient it. *)
Definition np_distances_vl53l5cx_mm (fuel : nat) : M globals (ndarray Z) :=
  while fuel (ready <- data_ready ;; ret (negb ready)) (ret tt) ;;
  data <- get_data ;;
  distances_mm <- lift (reshape 8 8 (map Z.of_N data)) ;;
  let distances_mm := flipud distances_mm in
  let distances_mm := fliplr distances_mm in
  sleep 0.25 ;;
  ret distances_mm.

(** [np_average_distances], lines 235-279. *)
Definition np_average_distances (fuel : nat) : M globals (Z * Z * Z) :=
  dist_mm <- np_distances_vl53l5cx_mm fuel ;;
  _mm <- lift (np_extract dist_mm 2 2 5 5) ;;
  center_distance_mm <- lift (int_np_average _mm) ;;
  _mm <- lift (np_extract dist_mm 0 0 7 1) ;;
  left_distance_mm <- lift (int_np_average _mm) ;;
  _mm <- lift (np_extract dist_mm 0 6 7 7) ;;
  right_distance_mm <- lift (int_np_average _mm) ;;
  ret (left_distance_mm, right_distance_mm, center_distance_mm).

(** [turn_left], lines 292-300.  The function has no [global] statement:
    its assignment binds a variable of the call, which ends with it. *)
Definition turn_left : M globals unit :=
  let last_turn := LEFT in
  blink_underlights (Lights LEFT_LIGHTS) BLUE DEFAULT_NUM_CYCLES DEFAULT_BLINK_RATE_SEC ;;
  when DRIVE_ON (set_motor_speeds (- TURN_SPEED) TURN_SPEED).

(** [turn_right], lines 302-310. *)
Definition turn_right : M globals unit :=
  let last_turn := RIGHT in
  blink_underlights (Lights RIGHT_LIGHTS) BLUE DEFAULT_NUM_CYCLES DEFAULT_BLINK_RATE_SEC ;;
  when DRIVE_ON (set_motor_speeds TURN_SPEED (- TURN_SPEED)).

(** [backup], lines 312-320. *)
Definition backup (loops : nat) (wait_sec : Q) : M globals unit :=
  when DRIVE_ON
    (for_range loops
       (blink_underlights (Lights REAR_LIGHTS) YELLOW DEFAULT_NUM_CYCLES DEFAULT_BLINK_RATE_SEC ;;
        set_motor_speeds (- TURN_SPEED) (- TURN_SPEED) ;;
        sleep wait_sec)).

(** [left, right, center = np_average_distances(vl53)] followed by
    [collision = check_for_collision(center)]: lines 369-370, 388-389 and
    427-428. *)
Definition poll_zones (fuel : nat) : M globals unit :=
  lrc <- np_average_distances fuel ;;
  update_globals (assign_distances lrc) ;;
  g <- read_globals ;;
  update_globals
    (assign_collision (check_for_collision (center_distance_mm g) COLLISION_THRESHOLD_MM)).

(** Lines 369-373: the first poll and the initial [percent], [last_turn]. *)
Definition startup (fuel : nat) : M globals unit :=
  poll_zones fuel ;;
  update_globals (assign_percent 0.0) ;;
  update_globals (assign_last_turn 0).

(** Lines 383-390: [while not collision]. *)
Definition forward_loop (fuel : nat) : M globals unit :=
  while fuel (g <- read_globals ;; ret (negb (collision g)))
    (blink_underlights (Lights FRONT_LIGHTS) GREEN DEFAULT_NUM_CYCLES DEFAULT_BLINK_RATE_SEC ;;
     poll_zones fuel ;;
     sleep 0.25).

(** Lines 411-423: carry out the maneuver the chain selects. *)
Definition perform (m : maneuver) : M globals unit :=
  match m with
  | TurnRight => turn_right
  | TurnLeft => turn_left
  | BackUp => backup DEFAULT_BACKUP_LOOPS DEFAULT_BACKUP_TIME_SEC
  end.

(** Lines 394-428: the body of [while collision]. *)
Definition react (fuel : nat) : M globals unit :=
  x <- random ;;
  update_globals (assign_percent (float64 (x * 100.0))) ;;
  backup DEFAULT_BACKUP_LOOPS DEFAULT_BACKUP_TIME_SEC ;;
  x <- random ;;
  update_globals (assign_percent (py_round2 (float64 (x * 100.0)))) ;;
  g <- read_globals ;;
  perform (turn_decision_float64 (left_distance_mm g) (right_distance_mm g)
             TURN_TOLERANCE_MM (percent g)) ;;
  sleep TURN_TIME_SEC ;;
  poll_zones fuel.

(** Lines 393-431: [while collision]. *)
Definition react_loop (fuel : nat) : M globals unit :=
  while fuel (g <- read_globals ;; ret (collision g)) (react fuel).

(** Lines 376-434: the body of [while True]. *)
Definition cycle (fuel : nat) : M globals unit :=
  when DRIVE_ON
    (set_motor_speeds (Qred (NORMAL_LEFT_SPEED + NORMAL_LEFT_OFFSET))
                      (Qred (NORMAL_RIGHT_SPEED + NORMAL_RIGHT_OFFSET))) ;;
  forward_loop fuel ;;
  react_loop fuel.

(** Lines 375-434: [while True]. *)
Definition control_loop (fuel : nat) : M globals unit :=
  while fuel (ret true) (cycle fuel).

(** Lines 368-440: the main line inside its [try]. *)
Definition main_line (fuel : nat) : M globals unit :=
  try_except_KeyboardInterrupt
    (startup fuel ;; control_loop fuel)
    (set_motor_speeds 0.0 0.0).

End Script.


(** [print_array(arr)], lines 116-153, for an array of two dimensions that
    holds integers (the frame and the sample sets the script prints):
    [len(arr[0])] raises no [TypeError] and [c] is an [int]. *)
Definition print_array (arr : list (list Z)) : printing (Z * Z) :=
  (let _rows := Z.of_nat (length arr) in
   row0 <- print_lift (py_index arr 0) ;;
   let _cols := Z.of_nat (length row0) in
   print "[" newline ;;
   print_for
     (fun r =>
        print "  [ " "" ;;
        print_for
          (fun c =>
             x <- print_lift (let? row := py_index arr r in py_index row c)%result ;;
             print (format_6d x) "" ;;
             if (c =? _cols - 1)%Z then print " ]" newline else print ", " "")
          (py_range 0 _cols))
     (py_range 0 _rows) ;;
   print "]" newline ;;
   print_ret (_rows, _cols))%print.

End V072.

(* ===================================================================== *)
(** * The ultrasonic reading                                              *)
(* ===================================================================== *)

(** [distance_reading_cm] of [Trilobot.py] (lines 89-121) and of
    [Trilobot_v060.py] (lines 104-136), and [distance_ultrasonic_reading_cm]
    of [utility_functions.py] (lines 74-124), have the same body.  It is
    written once, over what differs between the files: the colour [RED]
    and the functions the module binds that can be called with
    [(trilobot, group, color, nr_cycles)].  [clock_check = perf_counter()]
    reads the clock into a variable nothing uses and is left out. *)
Module Ultrasonic.

Definition blinker (G : Type) : Type := lights -> colour -> nat -> M G unit.

Section Reading.
Variable G : Type.
Variable RED : colour.
Variable namespace : list (string * blinker G).

Local Open Scope script_scope.

Definition emsg : string := "Unable to get a valid distance reading!".

(** Lines 101-109 of [Trilobot.py]: the [while] loop over [distance] and
    [counter].  Its tenth iteration raises, so ten iterations bound it. *)
Definition valid_reading : M G (Q * Z) :=
  while_local 10
    (fun dc => Qlt_bool (fst dc) 0.0 && (snd dc <? 10)%Z)
    (fun dc =>
       distance <- read_distance ;;
       let counter := (snd dc + 1)%Z in
       if (counter >=? 10)%Z then
         blink_underlighting <- lift (lookup_name namespace "blink_underlighting") ;;
         blink_underlighting (LightGroups [LEFT_LIGHTS; RIGHT_LIGHTS]) RED 10%nat ;;
         raise (ValueError emsg)
       else ret (distance, counter))
    (- 1.0, 0%Z).

Definition distance_reading_cm (collision_threshold_cm : Q) (nr_readings : nat)
    : M G (Q * bool) :=
  let readings_count := 0%Z in
  let distance_total_cm := 0.0 in
  let collision := false in
  totals <- for_range_local nr_readings
    (fun ct =>
       dc <- valid_reading ;;
       let readings_count := (fst ct + 1)%Z in
       let distance_total_cm := Qred (snd ct + fst dc) in
       sleep 0.01 ;;
       ret (readings_count, distance_total_cm))
    (readings_count, distance_total_cm) ;;
  let readings_count := fst totals in
  let distance_total_cm := snd totals in
  if (readings_count =? 0)%Z then raise ZeroDivisionError
  else
    let distance_average_cm := Qred (distance_total_cm / inject_Z readings_count) in
    let collision :=
      if Qlt_bool distance_average_cm collision_threshold_cm then true else collision in
    ret (distance_average_cm, collision).

End Reading.

Definition MAX_NUM_READINGS : nat := 10.

End Ultrasonic.

(* ===================================================================== *)
(** * utility_functions.py                                                *)
(* ===================================================================== *)

Module Utility.

Definition RED : colour := (255, 0, 0)%Z.

(** The functions the file defines that take a group, a colour and a
    number of cycles. *)
Definition namespace (G : Type) : list (string * Ultrasonic.blinker G) :=
  [("blink_underlights"%string,
    fun group color nr_cycles =>
      blink_underlights group color nr_cycles DEFAULT_BLINK_RATE_SEC)].

Definition distance_ultrasonic_reading_cm (G : Type)
    (collision_threshold_cm : Q) (nr_readings : nat) : M G (Q * bool) :=
  Ultrasonic.distance_reading_cm RED (namespace G) collision_threshold_cm nr_readings.


(** [print_array(arr)], lines 40-72, for an array of two dimensions that
    holds integers.  The function assigns [_rows] and [_cols] and reads
    [rows] and [cols], names that are no variables of the call: they are
    looked up among the integers [names] that the module binds (the file
    itself binds neither). *)
Definition print_array (names : list (string * Z)) (arr : list (list Z))
    : printing (Z * Z) :=
  (let _rows := Z.of_nat (length arr) in
   row0 <- print_lift (py_index arr 0) ;;
   let _cols := Z.of_nat (length row0) in
   print "[" newline ;;
   print_for
     (fun r =>
        print "  [ " "" ;;
        print_for
          (fun c =>
             x <- print_lift (let? row := py_index arr r in py_index row c)%result ;;
             print (format_6d x) "" ;;
             cols <- print_lift (lookup_name names "cols") ;;
             if (c =? cols - 1)%Z then print " ]" newline else print ", " "")
          (py_range 0 _cols))
     (py_range 0 _rows) ;;
   print "]" newline ;;
   rows <- print_lift (lookup_name names "rows") ;;
   cols <- print_lift (lookup_name names "cols") ;;
   print_ret (rows, cols))%print.

End Utility.

(* ===================================================================== *)
(** * Trilobot.py (version 1.0.0)                                         *)
(* ===================================================================== *)

Module V100.

Definition COLLISION_THRESHOLD_CM : Q := 18.
Definition START_LEFT_SPEED : Q := 0.75.
Definition START_RIGHT_SPEED : Q := 0.75.
Definition TURN_SPEED : Q := 0.50.
Definition TURN_TIME_SEC : Q := 0.50.
Definition TURN_RIGHT_PERCENT : Z := 75.
Definition RED : colour := (127, 0, 0)%Z.
Definition BLUE : colour := (0, 0, 127)%Z.
Definition DEFAULT_BLINK_COLOR : colour := BLUE.

Record globals : Type := {
  collision : bool;
  percent : Z;
  distance_cm : Q
}.

Definition assign_reading (dc : Q * bool) (g : globals) : globals :=
  {| collision := snd dc; percent := percent g; distance_cm := fst dc |}.

Definition assign_percent (p : Z) (g : globals) : globals :=
  {| collision := collision g; percent := p; distance_cm := distance_cm g |}.

Definition namespace : list (string * Ultrasonic.blinker globals) :=
  [("blink_underlights"%string,
    fun group color nr_cycles =>
      blink_underlights group color nr_cycles DEFAULT_BLINK_RATE_SEC)].

Local Open Scope script_scope.

(** [distance_reading_cm(trilobot)] with its default arguments. *)
Definition distance_reading_cm : M globals (Q * bool) :=
  Ultrasonic.distance_reading_cm RED namespace
    COLLISION_THRESHOLD_CM Ultrasonic.MAX_NUM_READINGS.

(** [distance_cm, collision = distance_reading_cm(trilobot)]. *)
Definition take_reading : M globals unit :=
  dc <- distance_reading_cm ;;
  update_globals (assign_reading dc).

(** Lines 171-187: the body of [while collision]. *)
Definition turn : M globals unit :=
  g <- read_globals ;;
  (if (percent g <? TURN_RIGHT_PERCENT)%Z then
     blink_underlights (Lights RIGHT_LIGHTS) DEFAULT_BLINK_COLOR 2 DEFAULT_BLINK_RATE_SEC ;;
     set_motor_speeds TURN_SPEED (- TURN_SPEED)
   else
     blink_underlights (Lights LEFT_LIGHTS) DEFAULT_BLINK_COLOR 2 DEFAULT_BLINK_RATE_SEC ;;
     set_motor_speeds (- TURN_SPEED) TURN_SPEED) ;;
  sleep TURN_TIME_SEC ;;
  take_reading.

(** Lines 140-195: the body of [while True]. *)
Definition cycle (fuel : nat) : M globals unit :=
  set_motor_speeds START_LEFT_SPEED START_RIGHT_SPEED ;;
  while fuel (g <- read_globals ;; ret (negb (collision g))) take_reading ;;
  set_motor_speeds (- TURN_SPEED) (- TURN_SPEED) ;;
  sleep 2.0 ;;
  p <- randint ;;
  update_globals (assign_percent p) ;;
  take_reading ;;
  while fuel (g <- read_globals ;; ret (collision g)) turn ;;
  take_reading.

Definition control_loop (fuel : nat) : M globals unit :=
  while fuel (ret true) (cycle fuel).

(** Lines 138-201: the main line inside its [try]. *)
Definition main_line (fuel : nat) : M globals unit :=
  try_except_KeyboardInterrupt (control_loop fuel) (set_motor_speeds 0.0 0.0).

End V100.

(* ===================================================================== *)
(** * Trilobot_v060.py (version 0.6.0)                                    *)
(* ===================================================================== *)

Module V060.

Definition COLLISION_THRESHOLD_CM : Q := 22.
Definition NORMAL_LEFT_SPEED : Q := 0.65.
Definition NORMAL_RIGHT_SPEED : Q := 0.65.
Definition TURN_SPEED : Q := 0.65.
Definition TURN_TIME_SEC : Q := 0.55.
Definition TURN_RIGHT_PERCENT : Z := 65.
Definition BACKUP_LOOPS : nat := 5.
Definition BACKUP_TIME_SEC : Q := 0.15.
Definition RED : colour := (255, 0, 0)%Z.
Definition BLUE : colour := (0, 0, 255)%Z.
Definition GREEN : colour := (0, 255, 0)%Z.
Definition YELLOW : colour := (255, 255, 0)%Z.

Record globals : Type := {
  collision : bool;
  percent : Z;
  distance_cm : Q
}.

Definition assign_reading (dc : Q * bool) (g : globals) : globals :=
  {| collision := snd dc; percent := percent g; distance_cm := fst dc |}.

Definition assign_percent (p : Z) (g : globals) : globals :=
  {| collision := collision g; percent := p; distance_cm := distance_cm g |}.

Definition namespace : list (string * Ultrasonic.blinker globals) :=
  [("blink_underlights"%string,
    fun group color nr_cycles =>
      blink_underlights group color nr_cycles DEFAULT_BLINK_RATE_SEC)].

Local Open Scope script_scope.

Definition distance_reading_cm : M globals (Q * bool) :=
  Ultrasonic.distance_reading_cm RED namespace
    COLLISION_THRESHOLD_CM Ultrasonic.MAX_NUM_READINGS.

Definition take_reading : M globals unit :=
  dc <- distance_reading_cm ;;
  update_globals (assign_reading dc).

(** Lines 155-165: full speed ahead until a reading signals a collision. *)
Definition forward (fuel : nat) : M globals unit :=
  set_motor_speeds NORMAL_LEFT_SPEED NORMAL_RIGHT_SPEED ;;
  take_reading ;;
  while fuel (g <- read_globals ;; ret (negb (collision g)))
    (blink_underlights (Lights FRONT_LIGHTS) GREEN DEFAULT_NUM_CYCLES DEFAULT_BLINK_RATE_SEC ;;
     take_reading ;;
     sleep 0.25).

(** Lines 174-177: the backup pulses. *)
Definition backup_pulses : M globals unit :=
  for_range BACKUP_LOOPS
    (blink_underlights (Lights REAR_LIGHTS) YELLOW DEFAULT_NUM_CYCLES DEFAULT_BLINK_RATE_SEC ;;
     set_motor_speeds (- TURN_SPEED) (- TURN_SPEED) ;;
     sleep BACKUP_TIME_SEC).

(** Lines 188-201: start turning to the side [percent] selects. *)
Definition start_turn (percent : Z) : M globals unit :=
  if (percent <? TURN_RIGHT_PERCENT)%Z then
    blink_underlights (Lights RIGHT_LIGHTS) BLUE DEFAULT_NUM_CYCLES DEFAULT_BLINK_RATE_SEC ;;
    set_motor_speeds TURN_SPEED (- TURN_SPEED)
  else
    blink_underlights (Lights LEFT_LIGHTS) BLUE DEFAULT_NUM_CYCLES DEFAULT_BLINK_RATE_SEC ;;
    set_motor_speeds (- TURN_SPEED) TURN_SPEED.

(** Lines 188-204: the body of [while collision]. *)
Definition turn : M globals unit :=
  g <- read_globals ;;
  start_turn (percent g) ;;
  sleep TURN_TIME_SEC ;;
  take_reading.

(** Lines 168-207: [if collision:]. *)
Definition react (fuel : nat) : M globals unit :=
  g <- read_globals ;;
  when (collision g)
    (backup_pulses ;;
     p <- randint ;;
     update_globals (assign_percent p) ;;
     while fuel (g <- read_globals ;; ret (collision g)) turn).

(** Lines 155-210: the body of [while True]. *)
Definition cycle (fuel : nat) : M globals unit :=
  forward fuel ;;
  react fuel.

Definition control_loop (fuel : nat) : M globals unit :=
  while fuel (ret true) (cycle fuel).

(** Lines 153-216: the main line inside its [try]. *)
Definition main_line (fuel : nat) : M globals unit :=
  try_except_KeyboardInterrupt (control_loop fuel) (set_motor_speeds 0.0 0.0).

End V060.

Unset Implicit Arguments.

(* ===================================================================== *)
(** * Sample inputs                                                        *)
(* ===================================================================== *)

(** A frame whose cell at row [r], column [c] holds [10 r + c]. *)
Definition ramp_frame : ndarray Z :=
  map (fun r => map (fun c => (10 * Z.of_nat r + Z.of_nat c)%Z) (seq 0 8)) (seq 0 8).

(** Surroundings that answer every call alike: the depth sensor is ready
    and sees [mm] in every cell, the ultrasonic ranger reads [cm], the
    random generator gives [x] and [n]. *)
Definition steady (mm : N) (cm x : Q) (n : Z) : environment :=
  {| data_ready_at := fun _ => true;
     distance_mm_at := fun _ => repeat mm 64;
     read_distance_at := fun _ => cm;
     random_at := fun _ => x;
     randint_at := fun _ => n |}.

(** A world in which nothing has been called yet. *)
Definition fresh {G : Type} (E : environment) (ctrl_c : option nat) (g : G) : world G :=
  {| env := E; log := []; sigint := ctrl_c; globals := g |}.

Definition v072_globals (c : bool) (last : Z) : V072.globals :=
  {| V072.left_distance_mm := 0; V072.right_distance_mm := 0;
     V072.center_distance_mm := 0; V072.collision := c;
     V072.percent := 0; V072.last_turn := last |}.

Definition v100_globals : V100.globals :=
  {| V100.collision := false; V100.percent := 0; V100.distance_cm := 0 |}.

Definition v060_globals (c : bool) : V060.globals :=
  {| V060.collision := c; V060.percent := 0; V060.distance_cm := 0 |}.

(* ===================================================================== *)
(** * The calls a maneuver is made of                                      *)
(* ===================================================================== *)

(** One blink of [group] in [color] with the default cycle count and rate. *)
Definition blink_events (group : list light) (color : colour) : list event :=
  [SetUnderlights (Lights group) color; Sleep DEFAULT_BLINK_RATE_SEC;
   ClearUnderlights (Lights group)].

(** One backup pulse of [Trilobot_v060.py], lines 175-177. *)
Definition v060_pulse : list event :=
  blink_events REAR_LIGHTS V060.YELLOW ++
  [SetMotorSpeeds (- V060.TURN_SPEED) (- V060.TURN_SPEED); Sleep V060.BACKUP_TIME_SEC].

(** The start of a turn in [Trilobot_v060.py], lines 188-201. *)
Definition v060_turn_events (percent : Z) : list event :=
  if (percent <? V060.TURN_RIGHT_PERCENT)%Z then
    blink_events RIGHT_LIGHTS V060.BLUE ++
    [SetMotorSpeeds V060.TURN_SPEED (- V060.TURN_SPEED)]
  else
    blink_events LEFT_LIGHTS V060.BLUE ++
    [SetMotorSpeeds (- V060.TURN_SPEED) V060.TURN_SPEED].

(** One backup pulse of [Trilobot_v072.py], lines 318-320. *)
Definition v072_pulse : list event :=
  blink_events REAR_LIGHTS V072.YELLOW ++
  [SetMotorSpeeds (- V072.TURN_SPEED) (- V072.TURN_SPEED);
   Sleep V072.DEFAULT_BACKUP_TIME_SEC].

(** The calls of [backup()] in [Trilobot_v072.py]. *)
Definition v072_backup_events (DRIVE_ON : bool) : list event :=
  if DRIVE_ON then concat (repeat v072_pulse V072.DEFAULT_BACKUP_LOOPS) else [].

(** The calls of the maneuver chosen in [Trilobot_v072.py]. *)
Definition v072_maneuver_events (DRIVE_ON : bool) (m : V072.maneuver) : list event :=
  match m with
  | V072.TurnRight =>
      blink_events RIGHT_LIGHTS V072.BLUE ++
      (if DRIVE_ON then [SetMotorSpeeds V072.TURN_SPEED (- V072.TURN_SPEED)] else [])
  | V072.TurnLeft =>
      blink_events LEFT_LIGHTS V072.BLUE ++
      (if DRIVE_ON then [SetMotorSpeeds (- V072.TURN_SPEED) V072.TURN_SPEED] else [])
  | V072.BackUp => v072_backup_events DRIVE_ON
  end.

(** A world in which [Trilobot_v072.py] is about to poll an obstacle
    150 mm away in every cell, with no Ctrl/C pending. *)
Definition v072_facing_obstacle : world V072.globals :=
  fresh (steady 150 18 0.3 10) None (v072_globals false 0).

(** The same surroundings, with a Ctrl/C due as call number 40 and a
    module-level [last_turn] that is not 0 yet. *)
Definition v072_ctrl_c_pending : world V072.globals :=
  fresh (steady 150 18 0.3 10) (Some 40%nat) (v072_globals false 7).

(** Worlds in which [Trilobot.py] and [Trilobot_v060.py] start with an
    obstacle 18 cm ahead and a Ctrl/C due as call number 50. *)
Definition v100_ctrl_c_pending : world V100.globals :=
  fresh (steady 150 18 0.3 10) (Some 50%nat) v100_globals.

Definition v060_ctrl_c_pending : world V060.globals :=
  fresh (steady 150 18 0.3 10) (Some 50%nat) (v060_globals false).

(** A world in which [Trilobot_v060.py] is about to read an obstacle 18 cm
    ahead. *)
Definition v060_facing_obstacle : world V060.globals :=
  fresh (steady 150 18 0.3 10) None (v060_globals false).

(** A world of [Trilobot.py] whose ranger answers -1 to every reading. *)
Definition v100_ranger_failing : world V100.globals :=
  fresh (steady 150 (- 1) 0.3 10) None v100_globals.

(* ===================================================================== *)
(** * Disciplines: properties every step of a run maintains                *)
(* ===================================================================== *)

(** How a run ended, without the value. *)
Inductive status : Type := Returned | Failed (e : exn) | Interrupted | Starved.

Definition status_of {A} (r : outcome A) : status :=
  match r with
  | Return _ => Returned
  | Raised e => Failed e
  | KeyboardInterrupt => Interrupted
  | OutOfFuel => Starved
  end.

(** A discipline relates the world before a piece of script to the way it
    ended and the world after.  It is closed under doing nothing and under
    sequencing, and it holds of each call whose event is [allowed], of the
    delivery of Ctrl/C, and of each assignment that is [quiet]. *)
Class Discipline {G : Type} (P : world G -> status -> world G -> Prop)
    (allowed : event -> Prop) (quiet : (G -> G) -> Prop) : Prop := {
  stay : forall w s, s <> Interrupted -> P w s w;
  seq : forall w w1 w2 s, P w Returned w1 -> P w1 s w2 -> P w s w2;
  on_call : forall w e, allowed e -> sigint_due w = false -> P w Returned (logged e w);
  on_sigint : forall w, sigint_due w = true -> P w Interrupted (delivered w);
  on_update : forall w f, quiet f -> P w Returned (with_globals f w)
}.

Definition respects {G A : Type} (P : world G -> status -> world G -> Prop)
    (m : M G A) : Prop :=
  forall w, P w (status_of (fst (m w))) (snd (m w)).

(** The world after the calls [evs], oldest first. *)
Definition log_all {G : Type} (evs : list event) (w : world G) : world G :=
  {| env := env w; log := rev evs ++ log w; sigint := sigint w; globals := globals w |}.

(** The calls, oldest first, by which [w'] extends [w], all of them
    [allowed]. *)
Definition appends {G : Type} (allowed : event -> Prop)
    (w : world G) (_ : status) (w' : world G) : Prop :=
  exists evs, history w' = history w ++ evs /\ Forall allowed evs.

(** Ctrl/C is either delivered, ending the piece of script, or still
    pending with the same deadline, which the log has not passed if it had
    not before. *)
Definition sigint_kept {G : Type} (w : world G) (s : status) (w' : world G) : Prop :=
  (s = Interrupted /\ sigint w' = None /\ sigint w <> None) \/
  (s <> Interrupted /\ sigint w' = sigint w /\
   forall k, sigint w = Some k -> (length (log w) <= k)%nat ->
             (length (log w') <= k)%nat).

(** No step moves the module-level [last_turn] of [Trilobot_v072.py]. *)
Definition last_turn_kept (w : world V072.globals) (_ : status)
    (w' : world V072.globals) : Prop :=
  V072.last_turn (globals w') = V072.last_turn (globals w).

Definition keeps_last_turn (f : V072.globals -> V072.globals) : Prop :=
  forall g, V072.last_turn (f g) = V072.last_turn g.

(** A piece of script makes progress: the log never shrinks, it has grown
    by [n] calls when the piece returns, and by [starve] calls when the
    model runs out of fuel in it. *)
Definition progress {G A : Type} (starve n : nat) (m : M G A) : Prop :=
  forall w,
    (length (log w) <= length (log (snd (m w))))%nat /\
    (status_of (fst (m w)) = Returned ->
     (length (log w) + n <= length (log (snd (m w))))%nat) /\
    (status_of (fst (m w)) = Starved ->
     (length (log w) + starve <= length (log (snd (m w))))%nat).

(** What stopping on Ctrl/C asks of a main line run with [fuel] from [w].
    First: if Ctrl/C was pending and has been delivered by the end of the
    run, the run ended normally and its latest call is
    [set_motor_speeds(0.0, 0.0)].  Second: a Ctrl/C due as the [k]-th call
    is delivered, unless an exception the script does not catch has ended
    the run before, as soon as the fuel exceeds the calls still to go. *)
Definition stops_on_ctrl_c {G : Type} (main_line : nat -> M G unit) (fuel : nat)
    (w : world G) : Prop :=
  let r := main_line fuel w in
  (sigint w <> None -> sigint (snd r) = None ->
   fst r = Return tt /\
   (exists before, log (snd r) = SetMotorSpeeds 0.0 0.0 :: before) /\
   motor_command (log (snd r)) = Some (0.0, 0.0)) /\
  (forall k, sigint w = Some k -> (length (log w) <= k)%nat ->
             (k - length (log w) < fuel)%nat ->
             (fst r = Return tt /\ sigint (snd r) = None) \/
             (exists e, fst r = Raised e /\ sigint (snd r) = Some k)).

Definition any_event (_ : event) : Prop := True.
Definition any_update {G : Type} (_ : G -> G) : Prop := True.

Definition is_underlight_event (e : event) : bool :=
  match e with
  | SetUnderlights _ _ | ClearUnderlights _ => true
  | _ => false
  end.

Definition not_underlight (e : event) : Prop := is_underlight_event e = false.

(** What a reading does when the ranger never gives a valid distance:
    it ends in [NameError] for [blink_underlighting], having made ten
    calls, none of them on the underlights. *)
Definition fails_unindicated {G A : Type} (reading : M G A) (w : world G) : Prop :=
  fst (reading w) = Raised (NameError "blink_underlighting") /\
  exists evs,
    history (snd (reading w)) = history w ++ evs /\
    length evs = 10%nat /\ Forall not_underlight evs.

(* ===================================================================== *)
(** * What the scripts ask of the motors                                   *)
(* ===================================================================== *)

(** A call that is not a motor command. *)
Definition motor_free (e : event) : Prop :=
  match e with
  | SetMotorSpeeds _ _ => False
  | _ => True
  end.

(** A call that is not a motor command, or is the stop command. *)
Definition motor_free_or_stop (e : event) : Prop :=
  match e with
  | SetMotorSpeeds l r => l = 0.0 /\ r = 0.0
  | _ => True
  end.

(** A motor command stays within the range the robot accepts. *)
Definition speeds_in_range (e : event) : Prop :=
  match e with
  | SetMotorSpeeds l r => (- (1) <= l /\ l <= 1) /\ (- (1) <= r /\ r <= 1)
  | _ => True
  end.

(** The speed pairs each script passes to [set_motor_speeds] inside its
    loop. *)
Definition v072_speeds : list (Q * Q) :=
  [(Qred (V072.NORMAL_LEFT_SPEED + V072.NORMAL_LEFT_OFFSET),
    Qred (V072.NORMAL_RIGHT_SPEED + V072.NORMAL_RIGHT_OFFSET));
   (- V072.TURN_SPEED, V072.TURN_SPEED);
   (V072.TURN_SPEED, - V072.TURN_SPEED);
   (- V072.TURN_SPEED, - V072.TURN_SPEED)].

Definition v100_speeds : list (Q * Q) :=
  [(V100.START_LEFT_SPEED, V100.START_RIGHT_SPEED);
   (- V100.TURN_SPEED, - V100.TURN_SPEED);
   (V100.TURN_SPEED, - V100.TURN_SPEED);
   (- V100.TURN_SPEED, V100.TURN_SPEED)].

Definition v060_speeds : list (Q * Q) :=
  [(V060.NORMAL_LEFT_SPEED, V060.NORMAL_RIGHT_SPEED);
   (- V060.TURN_SPEED, - V060.TURN_SPEED);
   (V060.TURN_SPEED, - V060.TURN_SPEED);
   (- V060.TURN_SPEED, V060.TURN_SPEED)].

(** Every call is allowed, and a motor command only with one of [speeds]. *)
Definition motor_only (speeds : list (Q * Q)) (allowed : event -> Prop) : Prop :=
  forall e,
    match e with
    | SetMotorSpeeds l r => In (l, r) speeds -> allowed e
    | _ => allowed e
    end.

(** A ranger that fails nine times and then reads 25 cm. *)
Definition recovering_ranger : environment :=
  {| data_ready_at := fun _ => true;
     distance_mm_at := fun _ => repeat 150%N 64;
     read_distance_at := fun t => if (t <? 9)%nat then - (1) else 25;
     random_at := fun _ => 0.3;
     randint_at := fun _ => 10%Z |}.

(** A ranger that fails [k] times and then reads 25 cm. *)
Definition ranger_failing_first (k : nat) : environment :=
  {| data_ready_at := fun _ => true;
     distance_mm_at := fun _ => repeat 150%N 64;
     read_distance_at := fun t => if (t <? k)%nat then - (1) else 25;
     random_at := fun _ => 0.3;
     randint_at := fun _ => 10%Z |}.

(** The readings the ranger gives to the calls numbered [t], [t + 1], ...,
    [t + n - 1]. *)
Definition readings_from (E : environment) (t n : nat) : list event :=
  map (fun i => ReadDistance (read_distance_at E (t + i))) (List.seq 0 n).

(** The calls of one cycle of [blink_underlights]. *)
Definition blink_cycle (group : lights) (color : colour) (rate : Q) : list event :=
  [SetUnderlights group color; Sleep rate; ClearUnderlights group].

(** An array of [nr_rows] rows of [nr_cols] cells each. *)
Definition rectangular {A : Type} (nr_rows nr_cols : nat) (arr : ndarray A) : Prop :=
  length arr = nr_rows /\ Forall (fun row => length row = nr_cols) arr.

(** The slice [l[start : stop + 1]] of a list, for [0 <= start <= stop]. *)
Definition slice {A : Type} (start stop : Z) (l : list A) : list A :=
  firstn (Z.to_nat (stop - start + 1)) (skipn (Z.to_nat start) l).


(** A depth sensor that is not ready for its first [k] calls and then
    reports, for zone [z] of its 64 zones, the distance [z] mm. *)
Definition slow_sensor (k : nat) : environment :=
  {| data_ready_at := fun t => (k <=? t)%nat;
     distance_mm_at := fun _ => map N.of_nat (List.seq 0 64);
     read_distance_at := fun _ => 25;
     random_at := fun _ => 0.3;
     randint_at := fun _ => 10%Z |}.

(** In [w] no Ctrl/C is pending, the depth sensor is found not ready by
    the next [k] polls and ready by the one after, and then hands out the
    64 distances [data]. *)
Definition frame_after {G : Type} (k : nat) (data : list N) (w : world G) : Prop :=
  sigint w = None /\
  (forall i, (i < k)%nat -> data_ready_at (env w) (length (log w) + i) = false) /\
  data_ready_at (env w) (length (log w) + k) = true /\
  distance_mm_at (env w) (length (log w) + S k) = data /\
  length data = 64%nat.

(** The calls of one [np_distances_vl53l5cx_mm] that waits [k] polls. *)
Definition frame_calls (k : nat) (data : list N) : list event :=
  repeat (DataReady false) k ++ [DataReady true; GetData data; Sleep 0.25].


(** The calls of [n] readings of the ranger that each succeed at the first
    attempt, the first of them made as call number [t]: every reading is
    followed by one [sleep]. *)
Definition first_try_calls (E : environment) (t n : nat) : list event :=
  flat_map (fun i => [ReadDistance (read_distance_at E (t + 2 * i)); Sleep 0.01])
    (List.seq 0 n).


(** The text [print_array] is to write for the cells of one row: each cell
    in six columns, a comma between two cells and the closing bracket and a
    line end after the last. *)
Fixpoint cells_text (row : list Z) : string :=
  match row with
  | [] => ""
  | x :: rest =>
      (format_6d x ++
       match rest with
       | [] => " ]" ++ newline
       | _ => ", " ++ cells_text rest
       end)%string
  end.

Definition row_text (row : list Z) : string := ("  [ " ++ cells_text row)%string.

Definition array_text (arr : list (list Z)) : string :=
  ("[" ++ newline ++ fold_right String.append "" (map row_text arr)
   ++ "]" ++ newline)%string.


(** A piece of script that raises nothing in the surroundings [E]: run in
    a world of [E] it stays in [E], it ends in no exception of its own
    (Ctrl/C and the fuel of the model apart), and a value it returns
    satisfies [Q]. *)
Definition never_raises {G A : Type} (E : environment) (Q : A -> Prop) (m : M G A)
    : Prop :=
  forall w,
    env w = E ->
    env (snd (m w)) = E /\
    match fst (m w) with
    | Return a => Q a
    | Raised _ => False
    | KeyboardInterrupt | OutOfFuel => True
    end.

(** Every frame the depth sensor hands out has its 64 distances. *)
Definition full_frames (E : environment) : Prop :=
  forall t, length (distance_mm_at E t) = 64%nat.

(** The ultrasonic ranger answers every reading with a distance. *)
Definition answering_ranger (E : environment) : Prop :=
  forall t, 0 <= read_distance_at E t.

(** A Ctrl/C due as the [k]-th call, with fuel beyond the calls still to
    go, is delivered and answered: the run ends normally and its latest
    call is [set_motor_speeds(0.0, 0.0)]. *)
Definition ctrl_c_is_answered {G : Type} (main_line : nat -> M G unit) (fuel : nat)
    (w : world G) : Prop :=
  forall k,
    sigint w = Some k -> (length (log w) <= k)%nat -> (k - length (log w) < fuel)%nat ->
    let r := main_line fuel w in
    fst r = Return tt /\ sigint (snd r) = None /\
    (exists before, log (snd r) = SetMotorSpeeds 0.0 0.0 :: before) /\
    motor_command (log (snd r)) = Some (0.0, 0.0).

(* ===================================================================== *)
(** * Properties of the pure functions of Trilobot_v072.py                *)
(* ===================================================================== *)

Lemma Qlt_bool_iff (x y : Q) : Qlt_bool x y = true <-> x < y.
Proof.
  unfold Qlt_bool. rewrite negb_true_iff.
  split; intro H.
  - apply Qnot_le_lt. intro Hle. apply Qle_bool_iff in Hle. congruence.
  - destruct (Qle_bool y x) eqn:E; [|reflexivity].
    apply Qle_bool_iff in E. exfalso. exact (Qlt_not_le _ _ H E).
Qed.

Lemma Qge_bool_iff (x y : Q) : Qge_bool x y = true <-> y <= x.
Proof. unfold Qge_bool. apply Qle_bool_iff. Qed.

Lemma Qge_bool_false (x y : Q) : Qge_bool x y = false <-> ~ y <= x.
Proof.
  rewrite <- Qge_bool_iff. destruct (Qge_bool x y); split; congruence.
Qed.

Lemma Qlt_bool_false (x y : Q) : Qlt_bool x y = false <-> ~ x < y.
Proof.
  rewrite <- Qlt_bool_iff. destruct (Qlt_bool x y); split; congruence.
Qed.

Lemma py_range_length (a b : Z) : length (py_range a b) = Z.to_nat (b - a).
Proof. unfold py_range. now rewrite length_map, length_seq. Qed.

Lemma py_range_In (a b x : Z) : In x (py_range a b) <-> (a <= x < b)%Z.
Proof.
  unfold py_range. rewrite in_map_iff. split.
  - intros (k & <- & Hk). apply in_seq in Hk. lia.
  - intros H. exists (Z.to_nat (x - a)). split; [lia|]. apply in_seq. lia.
Qed.

Lemma py_range_nth_error (a b : Z) (k : nat) :
  (Z.of_nat k < b - a)%Z -> nth_error (py_range a b) k = Some (a + Z.of_nat k)%Z.
Proof.
  intros H. unfold py_range.
  rewrite nth_error_map, nth_error_seq.
  destruct (Nat.ltb_spec k (Z.to_nat (b - a))); [reflexivity | lia].
Qed.

Lemma py_index_nth_error {A} {l : list A} {i : Z} {x : A} :
  (0 <= i)%Z -> nth_error l (Z.to_nat i) = Some x -> py_index l i = Ok x.
Proof.
  intros Hi Hx. unfold py_index.
  destruct (Z.ltb_spec i 0); [lia|].
  destruct (Z.ltb_spec i 0); [lia|].
  now rewrite Hx.
Qed.

Lemma for_append_Forall2 {A B} (P : A -> B -> Prop) (body : A -> result B) (l : list A) :
  (forall x, In x l -> exists y, body x = Ok y /\ P x y) ->
  exists ys, for_append body l = Ok ys /\ Forall2 P l ys.
Proof.
  induction l as [|x xs IH]; intros H; simpl.
  - exists []. split; [reflexivity | constructor].
  - destruct (H x (or_introl eq_refl)) as (y & Hy & Py).
    destruct IH as (ys & Hys & Pys); [intros; apply H; now right|].
    exists (y :: ys). rewrite Hy, Hys. simpl. split; [reflexivity | now constructor].
Qed.

Lemma Forall2_nth_error {A B} {P : A -> B -> Prop} {l : list A} {l' : list B} (k : nat) {x : A} :
  Forall2 P l l' -> nth_error l k = Some x -> exists y, nth_error l' k = Some y /\ P x y.
Proof.
  intros H. revert k. induction H as [|a b l l' Hab _ IH]; intros [|k] Hk; simpl in *;
    try discriminate.
  - injection Hk as <-. now exists b.
  - now apply IH.
Qed.

Lemma Forall2_length_eq {A B} {P : A -> B -> Prop} {l : list A} {l' : list B} :
  Forall2 P l l' -> length l' = length l.
Proof. induction 1; simpl; congruence. Qed.

Lemma Forall2_In_r {A B} {P : A -> B -> Prop} {l : list A} {l' : list B} {y : B} :
  Forall2 P l l' -> In y l' -> exists x, In x l /\ P x y.
Proof.
  induction 1 as [|a b l l' Hab _ IH]; simpl; [tauto|].
  intros [<- | Hy].
  - exists a. auto.
  - destruct (IH Hy) as (x & Hx & Px). exists x. auto.
Qed.

Lemma frame_row {A} {frame : ndarray A} (r : Z) :
  V072.is_8x8 frame -> (0 <= r <= 7)%Z ->
  exists row, nth_error frame (Z.to_nat r) = Some row /\ length row = 8%nat.
Proof.
  intros [Hlen Hrows] Hr.
  destruct (nth_error frame (Z.to_nat r)) as [row|] eqn:E.
  - exists row. split; [reflexivity|].
    rewrite Forall_forall in Hrows. apply Hrows. eapply nth_error_In; eauto.
  - apply nth_error_None in E. lia.
Qed.

Lemma frame_cell {A} {frame : ndarray A} (r c : Z) :
  V072.is_8x8 frame -> (0 <= r <= 7)%Z -> (0 <= c <= 7)%Z ->
  exists v, V072.cell frame r c = Some v /\
            (let? row := py_index frame r in py_index row c)%result = Ok v.
Proof.
  intros Hf Hr Hc.
  destruct (frame_row r Hf Hr) as (row & Hrow & Hlen).
  destruct (nth_error row (Z.to_nat c)) as [v|] eqn:E.
  - exists v. unfold V072.cell.
    destruct (Z.ltb_spec r 0); [lia|]. destruct (Z.ltb_spec c 0); [lia|]. simpl.
    rewrite Hrow. split; [assumption|].
    rewrite (py_index_nth_error (l:=frame) (x:=row)) by (lia || assumption). simpl.
    apply py_index_nth_error; [lia | assumption].
  - apply nth_error_None in E. lia.
Qed.


Lemma np_extract_valid {A} (frame : ndarray A) (sr sc er ec : Z) :
  V072.is_8x8 frame ->
  (0 <= sr <= 8)%Z -> (0 <= sc <= 8)%Z -> (0 <= er <= 8)%Z -> (0 <= ec <= 8)%Z ->
  V072.np_extract frame sr sc er ec =
  for_append
    (fun r =>
       for_append
         (fun c => (let? row := py_index frame r in py_index row c)%result)
         (py_range sc (ec + 1)))
    (py_range sr (er + 1)).
Proof.
  intros Hf Hsr Hsc Her Hec.
  destruct (frame_row 0 Hf) as (row0 & Hrow0 & Hlen0); [lia|].
  unfold V072.np_extract.
  rewrite (py_index_nth_error (l:=frame) (x:=row0)) by (lia || assumption). simpl.
  destruct Hf as [Hlen _]. rewrite Hlen, Hlen0.
  replace (sr >=? 0)%Z with true by (symmetry; apply Z.geb_le; lia).
  replace (sc >=? 0)%Z with true by (symmetry; apply Z.geb_le; lia).
  replace (er >=? 0)%Z with true by (symmetry; apply Z.geb_le; lia).
  replace (ec >=? 0)%Z with true by (symmetry; apply Z.geb_le; lia).
  replace (sr <=? Z.of_nat 8)%Z with true by (symmetry; apply Z.leb_le; lia).
  replace (sc <=? Z.of_nat 8)%Z with true by (symmetry; apply Z.leb_le; lia).
  replace (er <=? Z.of_nat 8)%Z with true by (symmetry; apply Z.leb_le; lia).
  replace (ec <=? Z.of_nat 8)%Z with true by (symmetry; apply Z.leb_le; lia).
  reflexivity.
Qed.

(** C3.  On an 8x8 frame, bounds with [0 <= start <= end <= 7] on both axes
    make [np_extract] return a sample set of [end_row - start_row + 1] rows
    of [end_col - start_col + 1] samples each, whose sample at relative
    position [(i, j)] is the frame cell at [(start_row + i, start_col + j)]. *)
Theorem np_extract_in_bounds :
  forall (A : Type) (frame : ndarray A) (start_row start_col end_row end_col : Z),
    V072.is_8x8 frame ->
    (0 <= start_row <= end_row)%Z -> (end_row <= 7)%Z ->
    (0 <= start_col <= end_col)%Z -> (end_col <= 7)%Z ->
    exists samples,
      V072.np_extract frame start_row start_col end_row end_col = Ok samples /\
      Z.of_nat (length samples) = (end_row - start_row + 1)%Z /\
      (forall row, In row samples ->
                   Z.of_nat (length row) = (end_col - start_col + 1)%Z) /\
      (forall i j, (0 <= i <= end_row - start_row)%Z ->
                   (0 <= j <= end_col - start_col)%Z ->
                   V072.cell samples i j <> None /\
                   V072.cell samples i j
                   = V072.cell frame (start_row + i) (start_col + j)).
Proof.
  intros A frame sr sc er ec Hf Hr Her Hc Hec.
  rewrite np_extract_valid by (assumption || lia).
  set (Pcell := fun (r c : Z) (v : A) => V072.cell frame r c = Some v).
  set (Prow := fun (r : Z) (row : list A) =>
                 Forall2 (Pcell r) (py_range sc (ec + 1)) row).
  destruct (for_append_Forall2 Prow
              (fun r => for_append
                 (fun c => (let? row := py_index frame r in py_index row c)%result)
                 (py_range sc (ec + 1)))
              (py_range sr (er + 1))) as (samples & Hs & HP).
  { intros r Hin. apply py_range_In in Hin.
    apply for_append_Forall2. intros c Hcin. apply py_range_In in Hcin.
    destruct (frame_cell r c Hf) as (v & Hv & Hidx); [lia | lia |].
    exists v. split; assumption. }
  exists samples. split; [exact Hs|]. split; [|split].
  - rewrite (Forall2_length_eq HP), py_range_length. lia.
  - intros row Hin. destruct (Forall2_In_r HP Hin) as (r & _ & Hrow).
    rewrite (Forall2_length_eq Hrow), py_range_length. lia.
  - intros i j Hi Hj.
    assert (Hri : nth_error (py_range sr (er + 1)) (Z.to_nat i) = Some (sr + i)%Z).
    { rewrite py_range_nth_error by lia. f_equal. lia. }
    destruct (Forall2_nth_error _ HP Hri) as (row & Hrow & HProw).
    assert (Hcj : nth_error (py_range sc (ec + 1)) (Z.to_nat j) = Some (sc + j)%Z).
    { rewrite py_range_nth_error by lia. f_equal. lia. }
    destruct (Forall2_nth_error _ HProw Hcj) as (v & Hv & HPv).
    assert (Hcell : V072.cell samples i j = Some v).
    { unfold V072.cell.
      destruct (Z.ltb_spec i 0); [lia|]. destruct (Z.ltb_spec j 0); [lia|]. simpl.
      now rewrite Hrow. }
    rewrite Hcell. split; [discriminate|]. symmetry. exact HPv.
Qed.

Lemma ramp_frame_8x8 : V072.is_8x8 ramp_frame.
Proof. split; [reflexivity|]. repeat constructor. Qed.

Lemma np_extract_in_bounds_witness :
  exists samples,
    V072.np_extract ramp_frame 2 2 5 5 = Ok samples /\
    Z.of_nat (length samples) = (5 - 2 + 1)%Z /\
    (forall row, In row samples -> Z.of_nat (length row) = (5 - 2 + 1)%Z) /\
    (forall i j, (0 <= i <= 5 - 2)%Z -> (0 <= j <= 5 - 2)%Z ->
                 V072.cell samples i j <> None /\
                 V072.cell samples i j = V072.cell ramp_frame (2 + i) (2 + j)).
Proof.
  apply (np_extract_in_bounds Z ramp_frame 2 2 5 5 ramp_frame_8x8); lia.
Defined.

Lemma for_append_empty_rows {A B} (f : A -> result (list B)) (rows : list A) :
  (forall r, f r = Ok []) ->
  exists samples, for_append f rows = Ok samples /\ concat samples = [].
Proof.
  intros Hf. induction rows as [|r rows (samples & Hs & Hc)]; simpl.
  - exists []. split; reflexivity.
  - exists ([] :: samples). rewrite Hf, Hs. simpl. split; [reflexivity | assumption].
Qed.

Lemma py_range_empty (a b : Z) : (b <= a)%Z -> py_range a b = [].
Proof.
  intros H. unfold py_range. replace (Z.to_nat (b - a)) with 0%nat by lia. reflexivity.
Qed.

(** C2, as the script has it.  On an 8x8 frame [np_extract] raises its
    [ValueError] ("Array boundaries are out of range!"), and so returns no
    sample set, whenever a coordinate is below 0 or above 8.  It does not
    compare [start] with [end]: with every coordinate in 0..7 and a start
    beyond its end, it returns a sample set that holds no sample. *)
Theorem np_extract_out_of_range :
  forall (A : Type) (frame : ndarray A) (start_row start_col end_row end_col : Z),
    V072.is_8x8 frame ->
    ((start_row < 0 \/ start_col < 0 \/ end_row < 0 \/ end_col < 0 \/
      start_row > 8 \/ start_col > 8 \/ end_row > 8 \/ end_col > 8)%Z ->
     V072.np_extract frame start_row start_col end_row end_col
     = Raise (ValueError V072.out_of_range_msg)) /\
    ((0 <= start_row <= 7)%Z -> (0 <= start_col <= 7)%Z ->
     (0 <= end_row <= 7)%Z -> (0 <= end_col <= 7)%Z ->
     (start_row > end_row \/ start_col > end_col)%Z ->
     exists samples,
       V072.np_extract frame start_row start_col end_row end_col = Ok samples /\
       concat samples = []).
Proof.
  intros A frame sr sc er ec Hf. split.
  - intros Hout.
    destruct (frame_row 0 Hf) as (row0 & Hrow0 & Hlen0); [lia|].
    unfold V072.np_extract.
    rewrite (py_index_nth_error (l:=frame) (x:=row0)) by (lia || assumption). simpl.
    destruct Hf as [Hlen _]. rewrite Hlen, Hlen0.
    match goal with |- (if ?v then _ else _) = _ => destruct v eqn:Hvalid end;
      [|reflexivity].
    repeat (apply andb_true_iff in Hvalid; destruct Hvalid as [Hvalid ?]).
    repeat match goal with
           | H : (_ >=? _)%Z = true |- _ => apply Z.geb_le in H
           | H : (_ <=? _)%Z = true |- _ => apply Z.leb_le in H
           end.
    lia.
  - intros Hsr Hsc Her Hec Hrev.
    rewrite np_extract_valid by (assumption || lia).
    destruct (Z_gt_dec sr er) as [Hrows | Hrows].
    + rewrite (py_range_empty sr (er + 1)) by lia. exists []. split; reflexivity.
    + rewrite (py_range_empty sc (ec + 1)) by lia.
      apply for_append_empty_rows. reflexivity.
Qed.

Lemma np_extract_out_of_range_witness :
  V072.np_extract ramp_frame 2 2 5 9 = Raise (ValueError V072.out_of_range_msg) /\
  exists samples, V072.np_extract ramp_frame 5 0 2 0 = Ok samples /\ concat samples = [].
Proof.
  split.
  - apply (proj1 (np_extract_out_of_range Z ramp_frame 2 2 5 9 ramp_frame_8x8)). lia.
  - apply (proj2 (np_extract_out_of_range Z ramp_frame 5 0 2 0 ramp_frame_8x8)); lia.
Defined.

(** C2 as stated fails: rows 5..2 of an 8x8 frame are a request with
    [start_row > end_row], and [np_extract] answers it with the empty list
    instead of raising. *)
Lemma np_extract_reversed_bounds_counterexample :
  V072.np_extract ramp_frame 5 0 2 0 = Ok [] /\
  ~ (forall (frame : ndarray Z) (start_row start_col end_row end_col : Z),
       V072.is_8x8 frame ->
       (start_row < 0 \/ start_row > 7 \/ start_col < 0 \/ start_col > 7 \/
        end_row < 0 \/ end_row > 7 \/ end_col < 0 \/ end_col > 7 \/
        start_row > end_row \/ start_col > end_col)%Z ->
       exists e, V072.np_extract frame start_row start_col end_row end_col = Raise e).
Proof.
  split; [reflexivity|].
  intros H.
  destruct (H ramp_frame 5 0 2 0 ramp_frame_8x8)%Z as (e & He); [lia|].
  discriminate He.
Qed.

(* ===================================================================== *)
(** * Double precision: where rounding changes nothing                     *)
(* ===================================================================== *)

Lemma round_half_even_bounds (x : Q) :
  (2 * Qnum x - Zpos (Qden x) <= 2 * (round_half_even x * Zpos (Qden x))
   <= 2 * Qnum x + Zpos (Qden x))%Z.
Proof.
  unfold round_half_even.
  set (n := Qnum x). set (d := Zpos (Qden x)).
  assert (Hd : (0 < d)%Z) by (subst d; lia).
  pose proof (Z.div_mod n d ltac:(lia)) as Hdm.
  pose proof (Z.mod_pos_bound n d Hd) as Hr.
  destruct (Z.compare_spec (2 * (n mod d)) d) as [He | Hl | Hg];
    [destruct (Z.even (n / d))|..]; nia.
Qed.

Lemma round_half_even_multiple (x : Q) (k : Z) :
  Qnum x = (k * Zpos (Qden x))%Z -> round_half_even x = k.
Proof.
  intros H. unfold round_half_even. rewrite H.
  rewrite Z.div_mul, Z.mod_mul by lia. reflexivity.
Qed.

Lemma pow2_pos (e : Z) : (0 < 2 ^ e)%Z \/ (e < 0)%Z.
Proof. destruct (Z_lt_le_dec e 0); [now right | left; now apply Z.pow_pos_nonneg]. Qed.

Lemma Zpos_to_pos_pow2 (e : Z) : (0 <= e)%Z -> Zpos (Z.to_pos (2 ^ e)) = (2 ^ e)%Z.
Proof. intros H. apply Z2Pos.id. now apply Z.pow_pos_nonneg. Qed.

(** [2 ^ ilog2 x <= x] for a positive [x]. *)
Lemma ilog2_le (x : Q) : (0 < Qnum x)%Z -> 1 <= scale2 x (- ilog2 x).
Proof.
  intros Hn. unfold ilog2.
  set (a := Z.log2 (Qnum x)). set (b := Z.log2 (Zpos (Qden x))).
  destruct (Qle_bool 1 (scale2 x (- (a - b)))) eqn:E.
  - now apply Qle_bool_iff.
  - clear E.
    destruct (Z.log2_spec (Qnum x) Hn) as [Ha _]. fold a in Ha.
    destruct (Z.log2_spec (Zpos (Qden x)) ltac:(lia)) as [_ Hb]. fold b in Hb.
    assert (Ha0 : (0 <= a)%Z) by apply Z.log2_nonneg.
    assert (Hb0 : (0 <= b)%Z) by apply Z.log2_nonneg.
    unfold scale2. destruct (Z.ltb_spec (- (a - b - 1)) 0) as [Hneg | Hpos].
    + unfold Qle. cbn [Qnum Qden]. rewrite Pos2Z.inj_mul, Zpos_to_pos_pow2 by lia.
      replace (- - (a - b - 1))%Z with (a - b - 1)%Z by lia.
      assert (Hp : (2 ^ a = 2 ^ Z.succ b * 2 ^ (a - b - 1))%Z).
      { rewrite <- Z.pow_add_r by lia. f_equal. lia. }
      assert (Hq : (0 < 2 ^ (a - b - 1))%Z) by (apply Z.pow_pos_nonneg; lia).
      nia.
    + unfold Qle. cbn [Qnum Qden].
      assert (Hp : (2 ^ Z.succ b = 2 ^ a * 2 ^ (- (a - b - 1)))%Z).
      { rewrite <- Z.pow_add_r by lia. f_equal. lia. }
      assert (Hq : (0 < 2 ^ (- (a - b - 1)))%Z) by (apply Z.pow_pos_nonneg; lia).
      nia.
Qed.

(** For a positive [x] below 2^53 the 53 bits kept start at or below the
    units: the significand is [x] scaled up by [2 ^ sh] with [sh >= 0], and
    the denominator of [x] is below [2 * 2 ^ sh]. *)
Lemma ilog2_small (x : Q) :
  (0 < Qnum x < 2 ^ 53)%Z ->
  (0 <= 52 - ilog2 x)%Z /\ (Zpos (Qden x) < 2 * 2 ^ (52 - ilog2 x))%Z.
Proof.
  intros Hn. pose proof (ilog2_le x ltac:(lia)) as H.
  set (L := ilog2 x) in *. unfold scale2 in H.
  destruct (Z.ltb_spec (- L) 0) as [Hneg | Hpos].
  - unfold Qle in H. cbn [Qnum Qden] in H.
    rewrite Pos2Z.inj_mul, Zpos_to_pos_pow2 in H by lia.
    replace (- - L)%Z with L in H by lia.
    assert (HL : (0 < 2 ^ L)%Z) by (apply Z.pow_pos_nonneg; lia).
    assert (Hle : (L <= 52)%Z).
    { destruct (Z_le_gt_dec L 52) as [|Hgt]; [assumption|exfalso].
      assert ((2 ^ 53 <= 2 ^ L)%Z) by (apply Z.pow_le_mono_r; lia). nia. }
    split; [lia|].
    assert (Hp : (2 ^ 53 = 2 * 2 ^ (52 - L) * 2 ^ L)%Z).
    { rewrite <- Z.mul_assoc, <- Z.pow_add_r by lia.
      replace (52 - L + L)%Z with 52%Z by lia. reflexivity. }
    assert (Hq : (0 < 2 ^ (52 - L))%Z) by (apply Z.pow_pos_nonneg; lia).
    nia.
  - unfold Qle in H. cbn [Qnum Qden] in H.
    split; [lia|].
    assert (Hp : (2 * 2 ^ (52 - L) = 2 ^ 53 * 2 ^ (- L))%Z).
    { rewrite <- Z.pow_add_r by lia. rewrite <- Z.pow_succ_r by lia. f_equal. lia. }
    assert (Hq : (0 < 2 ^ (- L))%Z) by (apply Z.pow_pos_nonneg; lia).
    nia.
Qed.

Lemma float64_positive (x : Q) :
  (0 < Qnum x)%Z ->
  float64 x
  = Qred (scale2 (inject_Z (round_half_even (scale2 x (- (ilog2 x - 52)))))
            (ilog2 x - 52)).
Proof.
  intros Hn. unfold float64. destruct x as [n d]. cbn [Qnum] in *.
  destruct n as [|p|p]; try lia.
  reflexivity.
Qed.

Lemma ilog2_shift (x : Q) :
  (0 < Qnum x)%Z -> (Qnum x < 2 ^ 53 * Zpos (Qden x))%Z -> (0 <= 52 - ilog2 x)%Z.
Proof.
  intros Hn Hx. pose proof (ilog2_le x Hn) as H.
  set (L := ilog2 x) in *. unfold scale2 in H.
  destruct (Z.ltb_spec (- L) 0) as [Hneg | Hpos]; [|lia].
  unfold Qle in H. cbn [Qnum Qden] in H.
  rewrite Pos2Z.inj_mul, Zpos_to_pos_pow2 in H by lia.
  replace (- - L)%Z with L in H by lia.
  destruct (Z_le_gt_dec L 52) as [|Hgt]; [lia|exfalso].
  assert ((2 ^ 53 <= 2 ^ L)%Z) by (apply Z.pow_le_mono_r; lia). nia.
Qed.

Lemma Qred_inject_Z (z : Z) : Qred (inject_Z z) = inject_Z z.
Proof.
  unfold Qred, inject_Z.
  pose proof (Z.ggcd_gcd z 1) as Hg. pose proof (Z.ggcd_correct_divisors z 1) as Hd.
  destruct (Z.ggcd z 1) as [g [aa bb]]. cbn [fst] in Hg. rewrite Z.gcd_1_r in Hg.
  subst g. destruct Hd as [Ha Hb]. rewrite !Z.mul_1_l in *. subst aa bb. reflexivity.
Qed.

Lemma scale2_back (k p : Z) :
  (0 <= p)%Z -> scale2 (inject_Z (k * 2 ^ p)) (- p) == inject_Z k.
Proof.
  intros Hp. unfold scale2. destruct (Z.ltb_spec (- p) 0) as [Hneg | Hpos].
  - unfold Qeq. cbn [Qnum Qden inject_Z].
    rewrite Pos2Z.inj_mul, Zpos_to_pos_pow2 by lia.
    replace (- - p)%Z with p by lia. lia.
  - assert (p = 0%Z) by lia. subst p. unfold Qeq. cbn. lia.
Qed.

(** A non-negative integer below 2^53 is a double. *)
Lemma float64_exact (x : Q) (z : Z) :
  x == inject_Z z -> (0 <= z < 2 ^ 53)%Z -> float64 x = inject_Z z.
Proof.
  intros Hx Hz. unfold Qeq in Hx. cbn [Qnum Qden inject_Z] in Hx.
  rewrite Z.mul_1_r in Hx.
  destruct (Z.eq_dec z 0) as [-> | Hnz].
  - unfold float64. rewrite Hx. reflexivity.
  - assert (Hn : (0 < Qnum x)%Z) by nia.
    pose proof (ilog2_shift x Hn ltac:(nia)) as Hsh.
    rewrite (float64_positive x Hn).
    set (sh := (52 - ilog2 x)%Z) in *.
    replace (- (ilog2 x - 52))%Z with sh by (subst sh; lia).
    replace (ilog2 x - 52)%Z with (- sh)%Z by (subst sh; lia).
    assert (Hm : round_half_even (scale2 x sh) = (z * 2 ^ sh)%Z).
    { apply round_half_even_multiple. unfold scale2.
      destruct (Z.ltb_spec sh 0); [lia|]. cbn [Qnum Qden]. rewrite Hx. ring. }
    rewrite Hm, <- (Qred_inject_Z z). apply Qred_complete. now apply scale2_back.
Qed.

Lemma py_int_floor (x : Q) (q : Z) :
  (0 <= q)%Z -> inject_Z q <= x -> x < inject_Z (q + 1) -> py_int x = q.
Proof.
  intros Hq Hl Hu. unfold py_int. unfold Qle, Qlt in *.
  cbn [Qnum Qden inject_Z] in *.
  symmetry. apply (Z.quot_unique _ _ _ (Qnum x - Zpos (Qden x) * q)); lia.
Qed.

(** Truncating the double nearest to a fraction of a numerator below 2^53
    gives the integer part of the fraction: the rounding never reaches the
    next integer. *)
Lemma float64_trunc (x : Q) :
  (0 <= Qnum x < 2 ^ 53)%Z -> py_int (float64 x) = (Qnum x / Zpos (Qden x))%Z.
Proof.
  intros Hx. destruct (Z.eq_dec (Qnum x) 0) as [H0 | Hnz].
  - unfold float64. rewrite H0. reflexivity.
  - assert (Hn : (0 < Qnum x)%Z) by lia.
    destruct (ilog2_small x ltac:(lia)) as [Hsh Hden].
    rewrite (float64_positive x Hn).
    set (sh := (52 - ilog2 x)%Z) in *.
    replace (- (ilog2 x - 52))%Z with sh by (subst sh; lia).
    replace (ilog2 x - 52)%Z with (- sh)%Z by (subst sh; lia).
    set (n := Qnum x) in *. set (d := Zpos (Qden x)) in *.
    assert (Hd : (0 < d)%Z) by (subst d; lia).
    set (P := (2 ^ sh)%Z) in *.
    assert (HP : (0 < P)%Z) by (subst P; apply Z.pow_pos_nonneg; lia).
    set (m := round_half_even (scale2 x sh)).
    pose proof (round_half_even_bounds (scale2 x sh)) as Hm. fold m in Hm.
    unfold scale2 in Hm. destruct (Z.ltb_spec sh 0); [lia|].
    cbn [Qnum Qden] in Hm. fold n d P in Hm.
    set (q := (n / d)%Z).
    pose proof (Z.div_mod n d ltac:(lia)) as Hdm. fold q in Hdm.
    pose proof (Z.mod_pos_bound n d Hd) as Hr.
    assert (Hq : (0 <= q)%Z) by (subst q; apply Z.div_pos; lia).
    assert (Hlo : (q * P <= m)%Z) by nia.
    assert (Hhi : (m < (q + 1) * P)%Z) by nia.
    assert (Hy : scale2 (inject_Z m) (- sh) == m # Z.to_pos P).
    { unfold scale2. destruct (Z.ltb_spec (- sh) 0).
      - unfold Qeq. cbn [Qnum Qden inject_Z]. rewrite Pos2Z.inj_mul.
        replace (- - sh)%Z with sh by lia. fold P. lia.
      - assert (sh = 0%Z) by lia. unfold Qeq. cbn [Qnum Qden inject_Z].
        subst P. replace sh with 0%Z by lia. cbn. lia. }
    apply py_int_floor; [exact Hq | |].
    + rewrite Qred_correct, Hy. unfold Qle. cbn [Qnum Qden inject_Z].
      rewrite Z2Pos.id by lia. nia.
    + rewrite Qred_correct, Hy. unfold Qlt. cbn [Qnum Qden inject_Z].
      rewrite Z2Pos.id by lia. nia.
Qed.

Lemma sum_nonneg (l : list Z) :
  (forall x, In x l -> (0 <= x)%Z) -> (0 <= fold_right Z.add 0%Z l)%Z.
Proof.
  induction l as [|y l IH]; intros H; cbn [fold_right]; [lia|].
  specialize (IH (fun x Hx => H x (or_intror Hx))).
  pose proof (H y (or_introl eq_refl)). lia.
Qed.

(** Adding unsigned integers in double precision is exact as long as the
    total stays below 2^53, in whatever order: every partial sum is then an
    integer below 2^53. *)
Lemma float64_sum_exact (l : list Z) :
  forall acc : Z,
    (0 <= acc)%Z -> (forall x, In x l -> (0 <= x)%Z) ->
    (acc + fold_right Z.add 0%Z l < 2 ^ 53)%Z ->
    fold_left (fun total x => float64 (total + float64 (inject_Z x))) l (inject_Z acc)
    = inject_Z (acc + fold_right Z.add 0%Z l).
Proof.
  induction l as [|y l IH]; intros acc Hacc Hpos Hsum.
  - cbn [fold_left fold_right]. now rewrite Z.add_0_r.
  - cbn [fold_left fold_right] in *.
    pose proof (Hpos y (or_introl eq_refl)) as Hy.
    pose proof (sum_nonneg l (fun x Hx => Hpos x (or_intror Hx))) as Hrest.
    rewrite (float64_exact (inject_Z y) y) by (reflexivity || lia).
    rewrite (float64_exact (inject_Z acc + inject_Z y) (acc + y))
      by (try lia; now rewrite inject_Z_plus).
    rewrite IH; [f_equal; lia | lia | intros x Hx; apply Hpos; now right | lia].
Qed.

(** The chain with exact sums follows the first matching rule. *)
Lemma turn_decision_rules :
  (forall (left_average right_average : Z) (t r : Q),
     0 <= r -> r < 100 ->
     let rule1 := inject_Z left_average + t <= inject_Z right_average in
     let rule2 := inject_Z right_average + t <= inject_Z left_average in
     (rule1 -> V072.turn_decision left_average right_average t r = V072.TurnRight) /\
     (~ rule1 -> rule2 ->
      V072.turn_decision left_average right_average t r = V072.TurnLeft) /\
     (~ rule1 -> ~ rule2 -> r < 50 ->
      V072.turn_decision left_average right_average t r = V072.TurnRight) /\
     (~ rule1 -> ~ rule2 -> ~ r < 50 ->
      V072.turn_decision left_average right_average t r = V072.TurnLeft)) /\
  V072.turn_decision 50 50 1 30 = V072.TurnRight /\
  V072.turn_decision 50 50 1 70 = V072.TurnLeft.
Proof.
  split; [|split; reflexivity].
  intros l r t p _ _ rule1 rule2. subst rule1 rule2. unfold V072.turn_decision.
  destruct (Qge_bool (inject_Z r) (inject_Z l + t)) eqn:E1.
  - apply Qge_bool_iff in E1. repeat split; intros; try reflexivity; tauto.
  - apply Qge_bool_false in E1.
    destruct (Qge_bool (inject_Z l) (inject_Z r + t)) eqn:E2.
    + apply Qge_bool_iff in E2. repeat split; intros; try reflexivity; tauto.
    + apply Qge_bool_false in E2.
      destruct (Qlt_bool p 50.0) eqn:E3.
      * apply Qlt_bool_iff in E3.
        assert (p < 50) by (eapply Qlt_le_trans; [exact E3 | discriminate]).
        repeat split; intros; try reflexivity; tauto.
      * apply Qlt_bool_false in E3.
        assert (Hp : ~ p < 50).
        { intro Hlt. apply E3. eapply Qlt_le_trans; [exact Hlt | discriminate]. }
        assert (E4 : Qge_bool p 50.0 = true).
        { apply Qge_bool_iff. apply Qnot_lt_le. exact E3. }
        rewrite E4. repeat split; intros; try reflexivity; tauto.
Qed.

Lemma Qge_bool_comp (x y y' : Q) : y == y' -> Qge_bool x y = Qge_bool x y'.
Proof.
  intros H. destruct (Qge_bool x y') eqn:E.
  - apply Qge_bool_iff. apply Qge_bool_iff in E. now rewrite H.
  - apply Qge_bool_false. apply Qge_bool_false in E. now rewrite H.
Qed.

(** Where neither sum is rounded, the chain as Python evaluates it takes
    the branch the exact sums select. *)
Lemma turn_decision_float64_exact (l r : Z) (t p : Q) :
  (0 <= l < 2 ^ 53)%Z -> (0 <= r < 2 ^ 53)%Z ->
  float64 (inject_Z l + t) == inject_Z l + t ->
  float64 (inject_Z r + t) == inject_Z r + t ->
  V072.turn_decision_float64 l r t p = V072.turn_decision l r t p.
Proof.
  intros Hl Hr Hlt Hrt. unfold V072.turn_decision_float64, V072.turn_decision.
  rewrite (float64_exact (inject_Z l) l), (float64_exact (inject_Z r) r)
    by (reflexivity || assumption).
  rewrite (Qge_bool_comp (inject_Z r) _ _ Hlt), (Qge_bool_comp (inject_Z l) _ _ Hrt).
  reflexivity.
Qed.

(** With the tolerance of the script, the sums of the chain are exact for
    every unsigned average below 2^53 - 1. *)
Lemma tolerance_sum_exact (a : Z) :
  (0 <= a < 2 ^ 53 - 1)%Z ->
  float64 (inject_Z a + V072.TURN_TOLERANCE_MM) == inject_Z a + V072.TURN_TOLERANCE_MM.
Proof.
  intros Ha.
  assert (H : inject_Z a + V072.TURN_TOLERANCE_MM == inject_Z (a + 1)).
  { rewrite inject_Z_plus. apply Qplus_comp; reflexivity. }
  rewrite (float64_exact _ (a + 1) H) by lia. symmetry. exact H.
Qed.

(** In double precision too the chain never reaches its last branch, and
    the averages 100 and 50 turn left whatever the percentage. *)
Lemma turn_decision_float64_turns (l r : Z) (t p : Q) :
  V072.turn_decision_float64 l r t p <> V072.BackUp.
Proof.
  unfold V072.turn_decision_float64.
  destruct (Qge_bool (inject_Z r) _); [discriminate|].
  destruct (Qge_bool (inject_Z l) _); [discriminate|].
  destruct (Qlt_bool p 50.0) eqn:E3; [discriminate|].
  apply Qlt_bool_false in E3.
  assert (E4 : Qge_bool p 50.0 = true) by (apply Qge_bool_iff, Qnot_lt_le, E3).
  rewrite E4. discriminate.
Qed.

Lemma turn_decision_float64_100_50 (p : Q) :
  V072.turn_decision_float64 100 50 V072.TURN_TOLERANCE_MM p = V072.TurnLeft.
Proof.
  rewrite turn_decision_float64_exact;
    [reflexivity | | | |];
    first [ vm_compute; reflexivity | vm_compute; split; [discriminate | reflexivity] ].
Qed.

(** C1, as the script has it.  Line 411 adds an integer and a float in
    double precision.  For unsigned averages below 2^53 and a tolerance [t]
    for which neither [left + t] nor [right + t] is rounded (with the
    script's tolerance 1.0: for all averages below 2^53 - 1), the turn the
    script takes follows the first matching rule of: right >= left + t
    gives a right turn; else left >= right + t gives a left turn; else
    r < 50 gives a right turn; else a left turn.  With both averages 50 and
    t = 1, r = 30 turns right and r = 70 turns left. *)
Theorem turn_decision_first_match :
  (forall (left_average right_average : Z) (t r : Q),
     0 <= r -> r < 100 ->
     (0 <= left_average < 2 ^ 53)%Z -> (0 <= right_average < 2 ^ 53)%Z ->
     float64 (inject_Z left_average + t) == inject_Z left_average + t ->
     float64 (inject_Z right_average + t) == inject_Z right_average + t ->
     let rule1 := inject_Z left_average + t <= inject_Z right_average in
     let rule2 := inject_Z right_average + t <= inject_Z left_average in
     (rule1 ->
      V072.turn_decision_float64 left_average right_average t r = V072.TurnRight) /\
     (~ rule1 -> rule2 ->
      V072.turn_decision_float64 left_average right_average t r = V072.TurnLeft) /\
     (~ rule1 -> ~ rule2 -> r < 50 ->
      V072.turn_decision_float64 left_average right_average t r = V072.TurnRight) /\
     (~ rule1 -> ~ rule2 -> ~ r < 50 ->
      V072.turn_decision_float64 left_average right_average t r = V072.TurnLeft)) /\
  (forall a : Z,
     (0 <= a < 2 ^ 53 - 1)%Z ->
     float64 (inject_Z a + V072.TURN_TOLERANCE_MM)
     == inject_Z a + V072.TURN_TOLERANCE_MM) /\
  V072.turn_decision_float64 50 50 1 30 = V072.TurnRight /\
  V072.turn_decision_float64 50 50 1 70 = V072.TurnLeft.
Proof.
  split; [|split; [exact tolerance_sum_exact | split; vm_compute; reflexivity]].
  intros l r t p Hp0 Hp100 Hl Hr Hlt Hrt.
  rewrite (turn_decision_float64_exact l r t p Hl Hr Hlt Hrt).
  exact (proj1 turn_decision_rules l r t p Hp0 Hp100).
Qed.

Lemma turn_decision_first_match_witness :
  V072.turn_decision_float64 40 60 1 30 = V072.TurnRight.
Proof.
  refine (proj1 (proj1 turn_decision_first_match 40%Z 60%Z 1 30 _ _ _ _ _ _) _);
    first [ vm_compute; reflexivity
          | vm_compute; discriminate
          | vm_compute; split; [discriminate | reflexivity] ].
Defined.

(** C1 as stated fails where a sum is rounded.  With both averages 2^53
    and the script's tolerance 1.0, [left + 1.0] is rounded back to 2^53:
    the first test of the chain holds and the script turns right, at r = 70,
    where none of the rules 1 to 3 applies and rule 4 gives a left turn. *)
Lemma turn_decision_rounded_sum_counterexample :
  ~ inject_Z (2 ^ 53) + V072.TURN_TOLERANCE_MM <= inject_Z (2 ^ 53) /\
  ~ 70 < 50 /\
  V072.turn_decision_float64 (2 ^ 53) (2 ^ 53) V072.TURN_TOLERANCE_MM 70
  = V072.TurnRight /\
  V072.turn_decision_float64 (2 ^ 53) (2 ^ 53) V072.TURN_TOLERANCE_MM 70
  <> V072.TurnLeft.
Proof.
  split; [|split; [|split]].
  - intros H. vm_compute in H. apply H. reflexivity.
  - intros H. vm_compute in H. discriminate H.
  - vm_compute. reflexivity.
  - vm_compute. discriminate.
Qed.



(** [int(np.average(_mm))] of unsigned cells whose sum is below 2^53: no
    addition rounds, and the rounding of the quotient does not change its
    integer part. *)
Lemma int_np_average_quot (m : list (list Z)) :
  concat m <> [] ->
  (forall x, In x (concat m) -> (0 <= x)%Z) ->
  (fold_right Z.add 0%Z (concat m) < 2 ^ 53)%Z ->
  V072.int_np_average m
  = Ok (Z.quot (fold_right Z.add 0%Z (concat m)) (Z.of_nat (length (concat m)))).
Proof.
  intros Hne Hpos Hsum. unfold V072.int_np_average, V072.np_average.
  destruct (concat m) as [|x xs] eqn:E; [congruence|].
  set (total := fold_right Z.add 0%Z (x :: xs)) in *.
  pose proof (sum_nonneg (x :: xs) Hpos) as Htotal. fold total in Htotal.
  change (0 : Q) with (inject_Z 0).
  rewrite (float64_sum_exact (x :: xs) 0 ltac:(lia) Hpos) by (fold total; lia).
  fold total. rewrite Z.add_0_l.
  change (length (x :: xs)) with (S (length xs)).
  rewrite Nat2Z.inj_succ, <- Zpos_P_of_succ_nat.
  f_equal. rewrite float64_trunc.
  - unfold Qdiv, Qinv, Qmult, inject_Z. cbn [Qnum Qden Pos.mul].
    rewrite Z.mul_1_r. symmetry. apply Z.quot_div_nonneg; lia.
  - unfold Qdiv, Qinv, Qmult, inject_Z. cbn [Qnum Qden]. lia.
Qed.

Lemma sum_uniform (v : Z) (l : list Z) :
  (forall x, In x l -> x = v) ->
  fold_right Z.add 0%Z l = (v * Z.of_nat (length l))%Z.
Proof.
  induction l as [|y l IH]; intros H.
  - simpl. lia.
  - cbn [fold_right length]. rewrite IH by (intros; apply H; now right).
    rewrite (H y (or_introl eq_refl)). lia.
Qed.

Lemma quot_truncates (total count : Z) :
  (0 < count)%Z ->
  (Z.abs (Z.quot total count) * count <= Z.abs total
   < (Z.abs (Z.quot total count) + 1) * count)%Z /\
  (0 <= Z.quot total count * total)%Z.
Proof.
  intros Hc.
  pose proof (Z.quot_rem' total count) as Hqr.
  pose proof (Z.rem_bound_abs total count ltac:(lia)) as Hb.
  set (a := Z.quot total count) in *.
  destruct (Z_le_gt_dec 0 total) as [Ht|Ht].
  - pose proof (Z.rem_nonneg total count ltac:(lia) Ht) as Hr.
    assert (0 <= a)%Z by (apply Z.quot_pos; lia).
    rewrite (Z.abs_eq a), (Z.abs_eq total) by lia. split; nia.
  - pose proof (Z.rem_nonpos total count ltac:(lia) ltac:(lia)) as Hr.
    assert (a <= 0)%Z.
    { unfold a. rewrite <- (Z.opp_involutive total), Z.quot_opp_l by lia.
      assert (0 <= Z.quot (- total) count)%Z by (apply Z.quot_pos; lia). lia. }
    rewrite (Z.abs_neq a), (Z.abs_neq total) by lia. split; nia.
Qed.

(** C8, as the script has it.  For a sample set (rows of one length) of
    unsigned cells with at least one sample and a sum below 2^53,
    [int(np.average(_))] is the
    arithmetic mean truncated toward zero: its magnitude is the whole part
    of |sum| / count and its sign is that of the sum.  A uniform sample set
    of value [v] then averages to [v], and the samples 0 and 10 average to
    5. *)
Theorem int_np_average_truncated_mean :
  (forall (nr nc : nat) (m : list (list Z)),
     rectangular nr nc m ->
     concat m <> [] ->
     (forall x, In x (concat m) -> (0 <= x)%Z) ->
     let total := fold_right Z.add 0%Z (concat m) in
     let count := Z.of_nat (length (concat m)) in
     (total < 2 ^ 53)%Z ->
     exists a,
       V072.int_np_average m = Ok a /\
       a = Z.quot total count /\
       (Z.abs a * count <= Z.abs total < (Z.abs a + 1) * count)%Z /\
       (0 <= a * total)%Z) /\
  (forall (nr nc : nat) (m : list (list Z)) (v : Z),
     rectangular nr nc m ->
     concat m <> [] -> (forall x, In x (concat m) -> x = v) ->
     (0 <= v)%Z -> (v * Z.of_nat (length (concat m)) < 2 ^ 53)%Z ->
     V072.int_np_average m = Ok v) /\
  V072.int_np_average [[0; 10]]%Z = Ok 5%Z.
Proof.
  split; [|split; [|vm_compute; reflexivity]].
  - intros nr nc m _ Hne Hpos total count Hsum.
    assert (Hcount : (0 < count)%Z).
    { subst count. destruct (concat m); [congruence | simpl; lia]. }
    exists (Z.quot total count). split; [apply int_np_average_quot; assumption|].
    split; [reflexivity|].
    exact (quot_truncates total count Hcount).
  - intros nr nc m v _ Hne Hall Hv Hsum.
    assert (Hpos : forall x, In x (concat m) -> (0 <= x)%Z)
      by (intros x Hx; rewrite (Hall x Hx); exact Hv).
    rewrite int_np_average_quot; [| assumption | assumption |].
    + rewrite (sum_uniform v _ Hall).
      rewrite Z.quot_mul; [reflexivity|].
      destruct (concat m); [congruence | simpl; lia].
    + rewrite (sum_uniform v _ Hall). exact Hsum.
Qed.

Lemma int_np_average_truncated_mean_witness :
  V072.int_np_average [[7; 7]; [7; 7]]%Z = Ok 7%Z.
Proof.
  apply (proj1 (proj2 int_np_average_truncated_mean) 2%nat 2%nat [[7; 7]; [7; 7]]%Z 7%Z).
  - split; [reflexivity | repeat constructor].
  - discriminate.
  - simpl. intros x H. repeat (destruct H as [<- | H]; [reflexivity|]). destruct H.
  - lia.
  - vm_compute. reflexivity.
Defined.

(** C8 as stated fails where the mean is beyond the integers a double
    holds: a uniform sample set of the value 2^53 + 1 does not average to
    that value, because 2^53 + 1 is no double and every cell is converted
    to 2^53 before the cells are added. *)
Lemma int_np_average_uniform_counterexample :
  V072.int_np_average (repeat (repeat (2 ^ 53 + 1)%Z 4) 4) = Ok (2 ^ 53)%Z /\
  V072.int_np_average (repeat (repeat (2 ^ 53 + 1)%Z 4) 4) <> Ok (2 ^ 53 + 1)%Z.
Proof. split; [vm_compute; reflexivity | vm_compute; discriminate]. Qed.

(* ===================================================================== *)
(** * Disciplines are respected by every construct of the interpreter      *)
(* ===================================================================== *)

Section Rules.
Context {G : Type} {P : world G -> status -> world G -> Prop}
        {allowed : event -> Prop} {quiet : (G -> G) -> Prop}
        {D : Discipline P allowed quiet}.

Lemma respects_ret {A} (a : A) : respects P (@ret G A a).
Proof. intros w. apply stay. discriminate. Qed.

Lemma respects_raise {A} (e : exn) : respects P (@raise G A e).
Proof. intros w. apply stay. discriminate. Qed.

Lemma respects_out_of_fuel {A} : respects P (@out_of_fuel G A).
Proof. intros w. apply stay. discriminate. Qed.

Lemma respects_lift {A} (r : result A) : respects P (@lift G A r).
Proof. destruct r; [apply respects_ret | apply respects_raise]. Qed.

Lemma respects_read_globals : respects P (@read_globals G).
Proof. intros w. apply stay. discriminate. Qed.

Lemma respects_update (f : G -> G) : quiet f -> respects P (update_globals f).
Proof. intros Hf w. apply on_update. exact Hf. Qed.

Lemma respects_call {A} (perform : environment -> nat -> A * event) :
  (forall E t, allowed (snd (perform E t))) -> respects P (@call G A perform).
Proof.
  intros Hall w. unfold call.
  destruct (sigint_due w) eqn:Hdue.
  - apply on_sigint. exact Hdue.
  - specialize (Hall (env w) (length (log w))).
    destruct (perform (env w) (length (log w))) as [a e].
    apply on_call; assumption.
Qed.

Lemma respects_bind {A B} (m : M G A) (k : A -> M G B) :
  respects P m -> (forall a, respects P (k a)) -> respects P (bind m k).
Proof.
  intros Hm Hk w. unfold bind. specialize (Hm w).
  destruct (m w) as [[a| e | |] w1]; simpl in *; try exact Hm.
  eapply seq; [exact Hm | apply Hk].
Qed.

Lemma respects_when (c : bool) (m : M G unit) :
  respects P m -> respects P (when c m).
Proof. destruct c; [trivial | intros _; apply respects_ret]. Qed.

Lemma respects_for_range (n : nat) (body : M G unit) :
  respects P body -> respects P (for_range n body).
Proof.
  intros Hb. induction n as [|n IH]; simpl.
  - apply respects_ret.
  - apply respects_bind; [exact Hb | intros _; exact IH].
Qed.

Lemma respects_while (fuel : nat) (cond : M G bool) (body : M G unit) :
  respects P cond -> respects P body -> respects P (while fuel cond body).
Proof.
  intros Hc Hb. induction fuel as [|fuel IH]; simpl;
    (apply respects_bind; [exact Hc | intros [|]; [|apply respects_ret]]).
  - apply respects_out_of_fuel.
  - apply respects_bind; [exact Hb | intros _; exact IH].
Qed.

Lemma respects_while_local {S} (fuel : nat) (cond : S -> bool) (body : S -> M G S) (s : S) :
  (forall s, respects P (body s)) -> respects P (while_local fuel cond body s).
Proof.
  intros Hb. revert s. induction fuel as [|fuel IH]; intros s; simpl;
    (destruct (cond s); [|apply respects_ret]).
  - apply respects_out_of_fuel.
  - apply respects_bind; [apply Hb | exact IH].
Qed.

Lemma respects_for_range_local {S} (n : nat) (body : S -> M G S) (s : S) :
  (forall s, respects P (body s)) -> respects P (for_range_local n body s).
Proof.
  intros Hb. revert s. induction n as [|n IH]; intros s; simpl.
  - apply respects_ret.
  - apply respects_bind; [apply Hb | exact IH].
Qed.

Lemma respects_blink_underlights (group : lights) (color : colour) (n : nat) (rate : Q) :
  allowed (SetUnderlights group color) -> allowed (Sleep rate) ->
  allowed (ClearUnderlights group) ->
  respects P (@blink_underlights G group color n rate).
Proof.
  intros H1 H2 H3. unfold blink_underlights. apply respects_for_range.
  apply respects_bind; [apply respects_call; intros; exact H1 | intros _].
  apply respects_bind; apply respects_call || intros _; intros; try exact H2.
  apply respects_call; intros; exact H3.
Qed.

End Rules.

Ltac respects_step :=
  lazymatch goal with
  | |- respects _ (bind _ _) => apply respects_bind; [|intro]
  | |- respects _ (ret _) => apply respects_ret
  | |- respects _ (raise _) => apply respects_raise
  | |- respects _ out_of_fuel => apply respects_out_of_fuel
  | |- respects _ (lift _) => apply respects_lift
  | |- respects _ read_globals => apply respects_read_globals
  | |- respects _ (update_globals _) => apply respects_update
  | |- respects _ (call _) => apply respects_call; intros; simpl
  | |- respects _ (set_motor_speeds _ _) => unfold set_motor_speeds
  | |- respects _ (set_underlights _ _) => unfold set_underlights
  | |- respects _ (clear_underlights _) => unfold clear_underlights
  | |- respects _ (sleep _) => unfold sleep
  | |- respects _ data_ready => unfold data_ready
  | |- respects _ get_data => unfold get_data
  | |- respects _ read_distance => unfold read_distance
  | |- respects _ random => unfold random
  | |- respects _ randint => unfold randint
  | |- respects _ (blink_underlights _ _ _ _) => unfold blink_underlights
  | |- respects _ (when _ _) => apply respects_when
  | |- respects _ (for_range _ _) => apply respects_for_range
  | |- respects _ (while _ _ _) => apply respects_while
  | |- respects _ (while_local _ _ _ _) => apply respects_while_local; intro
  | |- respects _ (for_range_local _ _ _) => apply respects_for_range_local; intro
  | |- respects _ (if ?c then _ else _) => destruct c
  | |- respects _ (match ?x with _ => _ end) => destruct x
  end.

#[export] Instance appends_discipline {G : Type} (allowed : event -> Prop) :
  Discipline (@appends G allowed) allowed any_update.
Proof.
  split.
  - intros w s _. exists []. split; [now rewrite app_nil_r | constructor].
  - intros w w1 w2 s (e1 & H1 & A1) (e2 & H2 & A2).
    exists (e1 ++ e2). split.
    + now rewrite H2, H1, app_assoc.
    + apply Forall_app. split; assumption.
  - intros w e He _. exists [e]. split; [reflexivity | now constructor].
  - intros w _. exists []. split; [now rewrite app_nil_r | constructor].
  - intros w f _. exists []. split; [now rewrite app_nil_r | constructor].
Qed.

#[export] Instance sigint_discipline {G : Type} :
  Discipline (@sigint_kept G) any_event any_update.
Proof.
  split.
  - intros w s Hs. right. auto.
  - intros w w1 w2 s [(Habs & _) | (_ & Hs1 & Hb1)]; [discriminate|].
    intros [(Hs & Hn & Hp) | (Hs & Hs2 & Hb2)].
    + left. rewrite <- Hs1. auto.
    + right. split; [assumption|]. split; [congruence|].
      intros k Hk Hlen. apply Hb2; [congruence|]. now apply Hb1.
  - intros w e _ Hdue. right. split; [discriminate|]. split; [reflexivity|].
    intros k Hk _. unfold sigint_due in Hdue. rewrite Hk in Hdue.
    apply Nat.leb_gt in Hdue. simpl. lia.
  - intros w Hdue. left. split; [reflexivity|]. split; [reflexivity|].
    unfold sigint_due in Hdue. destruct (sigint w); [discriminate | discriminate].
  - intros w f _. right. split; [discriminate|]. split; [reflexivity|]. auto.
Qed.

#[export] Instance last_turn_discipline :
  Discipline last_turn_kept any_event keeps_last_turn.
Proof.
  split; unfold last_turn_kept; simpl; try reflexivity.
  - intros w w1 w2 _ H1 H2. congruence.
  - intros w f Hf. apply Hf.
Qed.

(* ===================================================================== *)
(** * Trilobot_v072.py: the main line under a discipline                   *)
(* ===================================================================== *)

Section V072Respects.
Context {P : world V072.globals -> status -> world V072.globals -> Prop}
        {quiet : (V072.globals -> V072.globals) -> Prop}
        {D : Discipline P any_event quiet}.
Hypothesis quiet_distances : forall lrc, quiet (V072.assign_distances lrc).
Hypothesis quiet_collision : forall b, quiet (V072.assign_collision b).
Hypothesis quiet_percent : forall p, quiet (V072.assign_percent p).
Variable DRIVE_ON : bool.

Ltac v072_respects :=
  repeat (first [ respects_step | exact I | apply quiet_distances
                | apply quiet_collision | apply quiet_percent ]).

Lemma np_average_distances_respects (fuel : nat) :
  respects P (V072.np_average_distances fuel).
Proof.
  unfold V072.np_average_distances, V072.np_distances_vl53l5cx_mm. v072_respects.
Qed.

Lemma poll_zones_respects (fuel : nat) : respects P (V072.poll_zones fuel).
Proof.
  unfold V072.poll_zones.
  apply respects_bind; [apply np_average_distances_respects | intro].
  v072_respects.
Qed.

Lemma turn_left_respects : respects P (V072.turn_left DRIVE_ON).
Proof. unfold V072.turn_left. v072_respects. Qed.

Lemma turn_right_respects : respects P (V072.turn_right DRIVE_ON).
Proof. unfold V072.turn_right. v072_respects. Qed.

Lemma backup_respects (loops : nat) (wait_sec : Q) :
  respects P (V072.backup DRIVE_ON loops wait_sec).
Proof. unfold V072.backup. v072_respects. Qed.

Lemma perform_respects (m : V072.maneuver) : respects P (V072.perform DRIVE_ON m).
Proof.
  destruct m; simpl;
    [apply turn_right_respects | apply turn_left_respects | apply backup_respects].
Qed.

Lemma react_respects (fuel : nat) : respects P (V072.react DRIVE_ON fuel).
Proof.
  unfold V072.react.
  do 2 (apply respects_bind; [v072_respects | intro]).
  apply respects_bind; [apply backup_respects | intro].
  do 3 (apply respects_bind; [v072_respects | intro]).
  apply respects_bind; [apply perform_respects | intro].
  apply respects_bind; [v072_respects | intro].
  apply poll_zones_respects.
Qed.

Lemma forward_loop_respects (fuel : nat) : respects P (V072.forward_loop fuel).
Proof.
  unfold V072.forward_loop. apply respects_while; [v072_respects|].
  apply respects_bind; [v072_respects | intro].
  apply respects_bind; [apply poll_zones_respects | intro]. v072_respects.
Qed.

Lemma react_loop_respects (fuel : nat) : respects P (V072.react_loop DRIVE_ON fuel).
Proof.
  unfold V072.react_loop. apply respects_while; [v072_respects | apply react_respects].
Qed.

Lemma cycle_respects (fuel : nat) : respects P (V072.cycle DRIVE_ON fuel).
Proof.
  unfold V072.cycle.
  apply respects_bind; [v072_respects | intro].
  apply respects_bind; [apply forward_loop_respects | intro].
  apply react_loop_respects.
Qed.

Lemma control_loop_respects (fuel : nat) :
  respects P (V072.control_loop DRIVE_ON fuel).
Proof.
  unfold V072.control_loop. apply respects_while; [v072_respects | apply cycle_respects].
Qed.

End V072Respects.

Lemma keeps_last_turn_distances lrc : keeps_last_turn (V072.assign_distances lrc).
Proof. intros g. destruct lrc as [[l r] c]. reflexivity. Qed.

Lemma keeps_last_turn_collision b : keeps_last_turn (V072.assign_collision b).
Proof. intros g. reflexivity. Qed.

Lemma keeps_last_turn_percent p : keeps_last_turn (V072.assign_percent p).
Proof. intros g. reflexivity. Qed.

Lemma startup_sets_last_turn (fuel : nat) (w : world V072.globals) :
  fst (V072.startup fuel w) = Return tt ->
  V072.last_turn (globals (snd (V072.startup fuel w))) = 0%Z.
Proof.
  unfold V072.startup, bind.
  destruct (V072.poll_zones fuel w) as [[[]| e | |] w1]; simpl; try discriminate.
  reflexivity.
Qed.

(** C10.  In [Trilobot_v072.py] the module-level [last_turn] is 0 when the
    control loop is entered and stays 0 however far the loop runs and
    however it is stopped: [turn_left] and [turn_right] bind [last_turn]
    as a variable of their own call and leave the module-level one as it
    was. *)
Theorem last_turn_stays_zero :
  forall (DRIVE_ON : bool) (fuel : nat) (w : world V072.globals),
    (fst (V072.startup fuel w) = Return tt ->
     V072.last_turn (globals (snd (V072.startup fuel w))) = 0%Z) /\
    V072.last_turn (globals (snd (V072.turn_left DRIVE_ON w)))
    = V072.last_turn (globals w) /\
    V072.last_turn (globals (snd (V072.turn_right DRIVE_ON w)))
    = V072.last_turn (globals w) /\
    (V072.last_turn (globals w) = 0%Z ->
     V072.last_turn (globals (snd (V072.control_loop DRIVE_ON fuel w))) = 0%Z) /\
    (fst (V072.startup fuel w) = Return tt ->
     V072.last_turn (globals (snd (V072.main_line DRIVE_ON fuel w))) = 0%Z).
Proof.
  intros DRIVE_ON fuel w.
  pose proof (@control_loop_respects _ _ last_turn_discipline
                keeps_last_turn_distances keeps_last_turn_collision
                keeps_last_turn_percent DRIVE_ON fuel) as Hloop.
  split; [apply startup_sets_last_turn|].
  split; [apply (@turn_left_respects _ _ last_turn_discipline DRIVE_ON w)|].
  split; [apply (@turn_right_respects _ _ last_turn_discipline DRIVE_ON w)|].
  split.
  - intros H0. rewrite <- H0. apply (Hloop w).
  - intros Hstart. pose proof (startup_sets_last_turn fuel w Hstart) as H0.
    unfold V072.main_line, try_except_KeyboardInterrupt, bind.
    destruct (V072.startup fuel w) as [r1 w1]. simpl in Hstart, H0. subst r1.
    specialize (Hloop w1). unfold last_turn_kept in Hloop.
    destruct (V072.control_loop DRIVE_ON fuel w1) as [[[]| e | |] w2];
      simpl in *; try congruence.
    unfold set_motor_speeds, call. destruct (sigint_due w2); simpl; congruence.
Qed.

Lemma last_turn_stays_zero_witness :
  V072.last_turn (globals v072_ctrl_c_pending) = 7%Z /\
  V072.last_turn (globals (snd (V072.main_line true 3 v072_ctrl_c_pending))) = 0%Z.
Proof.
  split; [reflexivity|].
  apply (proj2 (proj2 (proj2 (proj2 (last_turn_stays_zero true 3 v072_ctrl_c_pending))))).
  vm_compute. reflexivity.
Defined.

(* ===================================================================== *)
(** * Progress: every loop iteration calls out, so fuel bounds the log     *)
(* ===================================================================== *)

Section Progress.
Context {G : Type}.
Variable F : nat.

Lemma progress_weaken {A} (n n' : nat) (m : M G A) :
  (n' <= n)%nat -> progress F n m -> progress F n' m.
Proof.
  intros Hn Hm w. destruct (Hm w) as (H1 & H2 & H3).
  split; [assumption|]. split; [|assumption]. intros Hr. specialize (H2 Hr). lia.
Qed.

Lemma progress_ret {A} (a : A) : progress F 0 (@ret G A a).
Proof. intros w. simpl. repeat split; try lia. discriminate. Qed.

Lemma progress_raise {A} (n : nat) (e : exn) : progress F n (@raise G A e).
Proof. intros w. simpl. repeat split; try lia; discriminate. Qed.

Lemma progress_lift {A} (r : result A) : progress F 0 (@lift G A r).
Proof. destruct r; [apply progress_ret | apply progress_raise]. Qed.

Lemma progress_read_globals : progress F 0 (@read_globals G).
Proof. intros w. simpl. repeat split; try lia. discriminate. Qed.

Lemma progress_update (f : G -> G) : progress F 0 (update_globals f).
Proof. intros w. simpl. repeat split; try lia. discriminate. Qed.

Lemma progress_call {A} (perform : environment -> nat -> A * event) :
  progress F 1 (@call G A perform).
Proof.
  intros w. unfold call. destruct (sigint_due w).
  - simpl. repeat split; try lia; discriminate.
  - destruct (perform (env w) (length (log w))) as [a e]. simpl.
    repeat split; try lia. discriminate.
Qed.

Lemma progress_bind {A B} (n1 n2 : nat) (m : M G A) (k : A -> M G B) :
  progress F n1 m -> (forall a, progress F n2 (k a)) ->
  progress F (n1 + n2) (bind m k).
Proof.
  intros Hm Hk w. unfold bind. destruct (Hm w) as (H1 & H2 & H3).
  destruct (m w) as [[a| e | |] w1]; simpl in *;
    try (repeat split; try lia; try discriminate; auto; fail).
  destruct (Hk a w1) as (K1 & K2 & K3). specialize (H2 eq_refl).
  split; [lia|]. split; intros Hr; [specialize (K2 Hr) | specialize (K3 Hr)]; lia.
Qed.

Lemma progress_when (c : bool) (m : M G unit) :
  progress F 0 m -> progress F 0 (when c m).
Proof. destruct c; [trivial | intros _; apply progress_ret]. Qed.

Lemma progress_for_range (n : nat) (body : M G unit) :
  progress F 0 body -> progress F 0 (for_range n body).
Proof.
  intros Hb. induction n as [|n IH]; simpl.
  - apply progress_ret.
  - apply (progress_bind 0 0); [exact Hb | intros _; exact IH].
Qed.

Lemma progress_for_range_local {S} (n k : nat) (body : S -> M G S) (s : S) :
  (forall s, progress F n (body s)) ->
  progress F n (for_range_local (Datatypes.S k) body s).
Proof.
  intros Hb. revert s. induction k as [|k IH]; intros s.
  - simpl. replace n with (n + 0)%nat by lia.
    apply progress_bind; [apply Hb | intros; apply progress_ret].
  - change (progress F n (bind (body s) (for_range_local (Datatypes.S k) body))).
    replace n with (0 + n)%nat by lia.
    apply progress_bind; [|exact IH].
    apply (progress_weaken n); [lia | apply Hb].
Qed.

Lemma progress_while (f nc nb : nat) (cond : M G bool) (body : M G unit) :
  progress F nc cond -> progress F nb body -> (1 <= nc + nb)%nat -> (f <= F)%nat ->
  progress f 0 (while f cond body).
Proof.
  intros Hc Hb Hn. induction f as [|f IH]; intros Hf w; simpl; unfold bind;
    destruct (Hc w) as (C1 & C2 & C3);
    destruct (cond w) as [[[|]| e | |] w1]; simpl in *;
    try (repeat split; try lia; try discriminate; auto;
         intros Hr; specialize (C3 Hr); lia).
  specialize (C2 eq_refl).
  destruct (Hb w1) as (B1 & B2 & B3).
  destruct (body w1) as [[[]| e | |] w2]; simpl in *;
    try (repeat split; try lia; try discriminate; auto;
         intros Hr; specialize (B3 Hr); lia).
  specialize (B2 eq_refl).
  destruct (IH ltac:(lia) w2) as (I1 & I2 & I3).
  split; [lia|]. split; [lia|]. intros Hr. specialize (I3 Hr). lia.
Qed.

Lemma while_true_never_returns (f : nat) (body : M G unit) (w : world G) :
  status_of (fst (while f (ret true) body w)) <> Returned.
Proof.
  revert w. induction f as [|f IH]; intros w; simpl; unfold bind; simpl.
  - discriminate.
  - destruct (body w) as [[[]| e | |] w1]; simpl; try discriminate. apply IH.
Qed.

End Progress.

Lemma bind_run {G A B} (m : M G A) (k : A -> M G B) (w : world G) :
  bind m k w
  = match m w with
    | (Return a, w') => k a w'
    | (Raised e, w') => (Raised e, w')
    | (KeyboardInterrupt, w') => (KeyboardInterrupt, w')
    | (OutOfFuel, w') => (OutOfFuel, w')
    end.
Proof. reflexivity. Qed.

Lemma call_cases {G A} (perform : environment -> nat -> A * event) (w : world G) :
  call perform w = (KeyboardInterrupt, delivered w) \/
  (sigint_due w = false /\
   call perform w
   = (Return (fst (perform (env w) (length (log w)))),
      logged (snd (perform (env w) (length (log w)))) w)).
Proof.
  unfold call. destruct (sigint_due w); [left; reflexivity | right].
  split; [reflexivity|]. now destruct (perform (env w) (length (log w))).
Qed.

Lemma read_distance_cases {G} (w : world G) :
  read_distance w = (KeyboardInterrupt, delivered w) \/
  read_distance w
  = (Return (read_distance_at (env w) (length (log w))),
     logged (ReadDistance (read_distance_at (env w) (length (log w)))) w).
Proof.
  unfold read_distance.
  destruct (call_cases
              (fun E t => (read_distance_at E t, ReadDistance (read_distance_at E t))) w)
    as [H | [_ H]]; [left | right]; exact H.
Qed.

Section ProgressSteps.
Context {G : Type}.
Variable F : nat.

Lemma progress_call0 {A} (perform : environment -> nat -> A * event) :
  progress F 0 (@call G A perform).
Proof. apply (progress_weaken F 1); [lia | apply progress_call]. Qed.

Lemma progress_bind0 {A B} (m : M G A) (k : A -> M G B) :
  progress F 0 m -> (forall a, progress F 0 (k a)) -> progress F 0 (bind m k).
Proof. apply (progress_bind F 0 0). Qed.

Lemma progress_bind_first {A B} (m : M G A) (k : A -> M G B) :
  progress F 1 m -> (forall a, progress F 0 (k a)) -> progress F 1 (bind m k).
Proof. apply (progress_bind F 1 0). Qed.

Lemma progress_bind_last {A B} (m : M G A) (k : A -> M G B) :
  progress F 0 m -> (forall a, progress F 1 (k a)) -> progress F 1 (bind m k).
Proof. apply (progress_bind F 0 1). Qed.

Lemma progress_while_cond (cond : M G bool) (body : M G unit) :
  progress F 1 cond -> progress F 0 body -> progress F 0 (while F cond body).
Proof. intros Hc Hb. apply (progress_while F F 1 0); auto. Qed.

Lemma progress_while_body (cond : M G bool) (body : M G unit) :
  progress F 0 cond -> progress F 1 body -> progress F 0 (while F cond body).
Proof. intros Hc Hb. apply (progress_while F F 0 1); auto. Qed.

(** A loop whose condition holds on entry, and costs nothing to test, has
    made a call by the time it returns. *)
Lemma progress_while_entered (cond : M G bool) (body : M G unit) (w : world G) :
  cond w = (Return true, w) ->
  progress F 0 cond -> progress F 1 body ->
  (length (log w) <= length (log (snd (while F cond body w))))%nat /\
  (status_of (fst (while F cond body w)) = Returned ->
   (length (log w) + 1 <= length (log (snd (while F cond body w))))%nat) /\
  (status_of (fst (while F cond body w)) = Starved ->
   (length (log w) + F <= length (log (snd (while F cond body w))))%nat).
Proof.
  intros Hcw Hc Hb.
  pose proof (progress_while F F 0 1 cond body Hc Hb ltac:(lia) ltac:(lia) w)
    as (H1 & _ & H3).
  split; [exact H1|]. split; [|exact H3].
  destruct F as [|f]; simpl; unfold bind; rewrite Hcw; simpl; [discriminate|].
  destruct (Hb w) as (B1 & B2 & B3).
  destruct (body w) as [[[]| e | |] w2]; simpl in *; try discriminate.
  specialize (B2 eq_refl). intros _.
  destruct (Nat.le_gt_cases f (Datatypes.S f)) as [Hle|]; [|lia].
  pose proof (progress_while (Datatypes.S f) f 0 1 cond body Hc Hb
                ltac:(lia) Hle w2) as (I1 & _ & _).
  lia.
Qed.

Lemma while_skipped (f : nat) (cond : M G bool) (body : M G unit) (w : world G) :
  cond w = (Return false, w) -> while f cond body w = (Return tt, w).
Proof. intros Hcw. destruct f; simpl; unfold bind; rewrite Hcw; reflexivity. Qed.

End ProgressSteps.

Ltac progress_step :=
  lazymatch goal with
  | |- progress _ 0 (bind _ _) => apply progress_bind0; [|intro]
  | |- progress _ 0 (ret _) => apply progress_ret
  | |- progress _ _ (raise _) => apply progress_raise
  | |- progress _ 0 (lift _) => apply progress_lift
  | |- progress _ 0 read_globals => apply progress_read_globals
  | |- progress _ 0 (update_globals _) => apply progress_update
  | |- progress _ 0 (call _) => apply progress_call0
  | |- progress _ 1 (call _) => apply progress_call
  | |- progress _ _ (set_motor_speeds _ _) => unfold set_motor_speeds
  | |- progress _ _ (set_underlights _ _) => unfold set_underlights
  | |- progress _ _ (clear_underlights _) => unfold clear_underlights
  | |- progress _ _ (sleep _) => unfold sleep
  | |- progress _ _ data_ready => unfold data_ready
  | |- progress _ _ get_data => unfold get_data
  | |- progress _ _ read_distance => unfold read_distance
  | |- progress _ _ random => unfold random
  | |- progress _ _ randint => unfold randint
  | |- progress _ 0 (blink_underlights _ _ _ _) => unfold blink_underlights
  | |- progress _ 0 (when _ _) => apply progress_when
  | |- progress _ 0 (for_range _ _) => apply progress_for_range
  | |- progress _ _ (if ?c then _ else _) => destruct c
  | |- progress _ _ (match ?x with _ => _ end) => destruct x
  end.

Section V072Progress.
Variable DRIVE_ON : bool.
Variable fuel : nat.

Lemma np_average_distances_progress :
  progress fuel 0 (V072.np_average_distances fuel).
Proof.
  unfold V072.np_average_distances, V072.np_distances_vl53l5cx_mm.
  apply progress_bind0; [|intro; repeat progress_step].
  apply progress_bind0; [|intro; repeat progress_step].
  apply progress_while_cond; [|apply progress_ret].
  apply progress_bind_first; [repeat progress_step | intro; apply progress_ret].
Qed.

Lemma poll_zones_progress : progress fuel 0 (V072.poll_zones fuel).
Proof.
  unfold V072.poll_zones.
  apply progress_bind0; [apply np_average_distances_progress | intro].
  repeat progress_step.
Qed.

Lemma backup_progress (loops : nat) (wait_sec : Q) :
  progress fuel 0 (V072.backup DRIVE_ON loops wait_sec).
Proof. unfold V072.backup. repeat progress_step. Qed.

Lemma perform_progress (m : V072.maneuver) :
  progress fuel 0 (V072.perform DRIVE_ON m).
Proof.
  destruct m; simpl; [| |apply backup_progress];
    unfold V072.turn_right, V072.turn_left; repeat progress_step.
Qed.

Lemma react_progress : progress fuel 1 (V072.react DRIVE_ON fuel).
Proof.
  unfold V072.react.
  apply progress_bind_first; [repeat progress_step | intro].
  apply progress_bind0; [repeat progress_step | intro].
  apply progress_bind0; [apply backup_progress | intro].
  do 3 (apply progress_bind0; [repeat progress_step | intro]).
  apply progress_bind0; [apply perform_progress | intro].
  apply progress_bind0; [repeat progress_step | intro].
  apply poll_zones_progress.
Qed.

Lemma forward_body_progress :
  progress fuel 1
    (bind (blink_underlights (Lights FRONT_LIGHTS) V072.GREEN
             DEFAULT_NUM_CYCLES DEFAULT_BLINK_RATE_SEC)
       (fun _ => bind (V072.poll_zones fuel) (fun _ => sleep 0.25))).
Proof.
  apply progress_bind_last; [repeat progress_step | intro].
  apply progress_bind_last; [apply poll_zones_progress | intro].
  repeat progress_step.
Qed.

Lemma forward_loop_progress : progress fuel 0 (V072.forward_loop fuel).
Proof.
  unfold V072.forward_loop.
  apply progress_while_body; [repeat progress_step | apply forward_body_progress].
Qed.

Lemma react_loop_progress : progress fuel 0 (V072.react_loop DRIVE_ON fuel).
Proof.
  unfold V072.react_loop.
  apply progress_while_body; [repeat progress_step | apply react_progress].
Qed.

Lemma forward_then_react_progress :
  progress fuel 1
    (bind (V072.forward_loop fuel) (fun _ => V072.react_loop DRIVE_ON fuel)).
Proof.
  intros w. rewrite bind_run.
  destruct (V072.collision (globals w)) eqn:Hcol.
  - assert (Hskip : V072.forward_loop fuel w = (Return tt, w)).
    { apply while_skipped. rewrite bind_run. simpl. now rewrite Hcol. }
    rewrite Hskip.
    apply (progress_while_entered fuel
             (bind read_globals (fun g => ret (V072.collision g)))
             (V072.react DRIVE_ON fuel) w).
    + rewrite bind_run. simpl. now rewrite Hcol.
    + repeat progress_step.
    + apply react_progress.
  - pose proof (progress_while_entered fuel
                  (bind read_globals (fun g => ret (negb (V072.collision g))))
                  _ w ltac:(rewrite bind_run; simpl; now rewrite Hcol)
                  ltac:(repeat progress_step) forward_body_progress) as Hfwd.
    change (while fuel _ _) with (V072.forward_loop fuel) in Hfwd.
    destruct Hfwd as (H1 & H2 & H3).
    destruct (V072.forward_loop fuel w) as [[[]| e | |] w1]; simpl in *;
      try (repeat split; try lia; try discriminate; auto; fail).
    specialize (H2 eq_refl).
    destruct (react_loop_progress w1) as (R1 & R2 & R3).
    split; [lia|]. split; intros Hr; [|specialize (R3 Hr)]; lia.
Qed.

Lemma cycle_progress : progress fuel 1 (V072.cycle DRIVE_ON fuel).
Proof.
  unfold V072.cycle.
  apply progress_bind_last; [repeat progress_step | intro].
  apply forward_then_react_progress.
Qed.

Lemma control_loop_progress : progress fuel 0 (V072.control_loop DRIVE_ON fuel).
Proof.
  unfold V072.control_loop.
  apply progress_while_body; [apply progress_ret | apply cycle_progress].
Qed.

Lemma startup_progress : progress fuel 0 (V072.startup fuel).
Proof.
  unfold V072.startup.
  apply progress_bind0; [apply poll_zones_progress | intro]. repeat progress_step.
Qed.

End V072Progress.

(* ===================================================================== *)
(** * The ultrasonic reading under disciplines and progress                *)
(* ===================================================================== *)

Section UltrasonicFacts.
Context {G : Type}.
Variable RED : colour.
Variable namespace : list (string * Ultrasonic.blinker G).
Hypothesis unbound :
  lookup_name namespace "blink_underlighting" = Raise (NameError "blink_underlighting").

Lemma respects_bind_raise {P : world G -> status -> world G -> Prop}
    {allowed quiet} {D : Discipline P allowed quiet} {A B} (e : exn) (k : A -> M G B) :
  respects P (bind (raise e) k).
Proof. intros w. apply stay. discriminate. Qed.

Section Respects.
Context {P : world G -> status -> world G -> Prop}
        {allowed : event -> Prop} {quiet : (G -> G) -> Prop}
        {D : Discipline P allowed quiet}.
Hypothesis allowed_read : forall cm, allowed (ReadDistance cm).
Hypothesis allowed_sleep : forall sec, allowed (Sleep sec).

Lemma valid_reading_respects :
  respects P (Ultrasonic.valid_reading RED namespace).
Proof.
  unfold Ultrasonic.valid_reading. apply respects_while_local. intros dc.
  apply respects_bind; [unfold read_distance; apply respects_call; intros; apply allowed_read|].
  intros distance. destruct (snd dc + 1 >=? 10)%Z.
  - rewrite unbound. apply respects_bind_raise.
  - apply respects_ret.
Qed.

Lemma distance_reading_cm_respects (threshold : Q) (nr_readings : nat) :
  respects P (Ultrasonic.distance_reading_cm RED namespace threshold nr_readings).
Proof.
  unfold Ultrasonic.distance_reading_cm. cbv zeta.
  apply respects_bind.
  - apply respects_for_range_local. intros ct.
    apply respects_bind; [apply valid_reading_respects | intros dc].
    apply respects_bind; [unfold sleep; apply respects_call; intros; apply allowed_sleep|].
    intros _. apply respects_ret.
  - intros totals. destruct (fst totals =? 0)%Z; [apply respects_raise | apply respects_ret].
Qed.

End Respects.

Variable F : nat.

Lemma valid_reading_loop_never_starves (f : nat) (d : Q) (c : Z) (w : world G) :
  (10 <= c + Z.of_nat f)%Z ->
  let loop :=
    while_local f
      (fun dc => Qlt_bool (fst dc) 0.0 && (snd dc <? 10)%Z)
      (fun dc =>
         bind read_distance (fun distance =>
         let counter := (snd dc + 1)%Z in
         if (counter >=? 10)%Z then
           bind (lift (lookup_name namespace "blink_underlighting"))
             (fun blink_underlighting =>
                bind (blink_underlighting (LightGroups [LEFT_LIGHTS; RIGHT_LIGHTS])
                        RED 10%nat)
                  (fun _ => raise (ValueError Ultrasonic.emsg)))
         else ret (distance, counter))) in
  (length (log w) <= length (log (snd (loop (d, c) w))))%nat /\
  status_of (fst (loop (d, c) w)) <> Starved.
Proof.
  intros Hf loop. subst loop. revert d c w Hf.
  induction f as [|f IH]; intros d c w Hf; simpl.
  - destruct (Qlt_bool d 0.0); simpl; [|split; [lia | discriminate]].
    destruct (Z.ltb_spec c 10); [lia|]. simpl. split; [lia | discriminate].
  - destruct (Qlt_bool d 0.0 && (c <? 10)%Z); [|simpl; split; [lia | discriminate]].
    rewrite bind_run, bind_run.
    destruct (read_distance_cases w) as [Hrd | Hrd]; rewrite Hrd;
      [simpl; split; [lia | discriminate]|].
    cbv zeta. cbn [snd].
    destruct (c + 1 >=? 10)%Z eqn:Hc.
    + rewrite unbound. simpl. split; [lia | discriminate].
    + rewrite Z.geb_leb in Hc. apply Z.leb_gt in Hc.
      specialize (IH (read_distance_at (env w) (length (log w))) (c + 1)%Z
                    (logged (ReadDistance (read_distance_at (env w) (length (log w)))) w)
                    ltac:(lia)).
      destruct IH as [IH1 IH2]. simpl in IH1. split; [simpl; lia | exact IH2].
Qed.

Lemma valid_reading_progress : progress F 0 (Ultrasonic.valid_reading RED namespace).
Proof.
  intros w. unfold Ultrasonic.valid_reading.
  assert (Hfuel : (10 <= 0 + Z.of_nat 10)%Z) by (simpl; lia).
  destruct (valid_reading_loop_never_starves 10 (- 1.0) 0 w Hfuel) as [H1 H2].
  split; [exact H1|].
  split; [intros _; rewrite Nat.add_0_r; exact H1 | intros H; exact (False_ind _ (H2 H))].
Qed.

Lemma distance_reading_cm_progress (threshold : Q) (n : nat) :
  progress F 1
    (Ultrasonic.distance_reading_cm RED namespace threshold (Datatypes.S n)).
Proof.
  unfold Ultrasonic.distance_reading_cm. cbv zeta.
  apply progress_bind_first.
  - apply progress_for_range_local. intros ct.
    apply progress_bind_last; [apply valid_reading_progress | intro].
    apply progress_bind_first; [repeat progress_step | intro; apply progress_ret].
  - intros totals. destruct (fst totals =? 0)%Z; [apply progress_raise | apply progress_ret].
Qed.

End UltrasonicFacts.

(* ===================================================================== *)
(** * Trilobot.py and Trilobot_v060.py under disciplines and progress      *)
(* ===================================================================== *)

Lemma v100_unbound :
  lookup_name V100.namespace "blink_underlighting"
  = Raise (NameError "blink_underlighting").
Proof. reflexivity. Qed.

Lemma v060_unbound :
  lookup_name V060.namespace "blink_underlighting"
  = Raise (NameError "blink_underlighting").
Proof. reflexivity. Qed.

Lemma utility_unbound (G : Type) :
  lookup_name (Utility.namespace G) "blink_underlighting"
  = Raise (NameError "blink_underlighting").
Proof. reflexivity. Qed.

Section V100Respects.
Context {P : world V100.globals -> status -> world V100.globals -> Prop}
        {quiet : (V100.globals -> V100.globals) -> Prop}
        {D : Discipline P any_event quiet}.
Hypothesis quiet_reading : forall dc, quiet (V100.assign_reading dc).
Hypothesis quiet_percent : forall p, quiet (V100.assign_percent p).

Ltac v100_respects :=
  repeat (first [ respects_step | exact I | apply quiet_reading | apply quiet_percent ]).

Lemma v100_take_reading_respects : respects P V100.take_reading.
Proof.
  unfold V100.take_reading, V100.distance_reading_cm.
  apply respects_bind; [|intro; v100_respects].
  apply (distance_reading_cm_respects _ _ v100_unbound (D:=D) (fun _ => I) (fun _ => I)).
Qed.

Lemma v100_turn_respects : respects P V100.turn.
Proof.
  unfold V100.turn.
  apply respects_bind; [v100_respects | intro].
  apply respects_bind; [v100_respects | intro].
  apply respects_bind; [v100_respects | intro].
  apply v100_take_reading_respects.
Qed.

Lemma v100_cycle_respects (fuel : nat) : respects P (V100.cycle fuel).
Proof.
  unfold V100.cycle.
  apply respects_bind; [v100_respects | intro].
  apply respects_bind;
    [apply respects_while; [v100_respects | apply v100_take_reading_respects] | intro].
  do 4 (apply respects_bind; [v100_respects | intro]).
  apply respects_bind; [apply v100_take_reading_respects | intro].
  apply respects_bind;
    [apply respects_while; [v100_respects | apply v100_turn_respects] | intro].
  apply v100_take_reading_respects.
Qed.

Lemma v100_control_loop_respects (fuel : nat) : respects P (V100.control_loop fuel).
Proof.
  unfold V100.control_loop.
  apply respects_while; [v100_respects | apply v100_cycle_respects].
Qed.

End V100Respects.

Section V100Progress.
Variable fuel : nat.

Lemma v100_take_reading_progress : progress fuel 1 V100.take_reading.
Proof.
  unfold V100.take_reading, V100.distance_reading_cm.
  apply progress_bind_first; [|intro; repeat progress_step].
  apply (distance_reading_cm_progress V100.RED V100.namespace v100_unbound fuel
           V100.COLLISION_THRESHOLD_CM 9).
Qed.

Lemma v100_turn_progress : progress fuel 1 V100.turn.
Proof.
  unfold V100.turn.
  apply progress_bind_last; [repeat progress_step | intro].
  apply progress_bind_last; [repeat progress_step | intro].
  apply progress_bind_last; [repeat progress_step | intro].
  apply v100_take_reading_progress.
Qed.

Lemma v100_cycle_progress : progress fuel 1 (V100.cycle fuel).
Proof.
  unfold V100.cycle.
  apply progress_bind_first; [repeat progress_step | intro].
  apply progress_bind0;
    [apply progress_while_body;
       [repeat progress_step | apply v100_take_reading_progress] | intro].
  do 4 (apply progress_bind0; [repeat progress_step | intro]).
  apply progress_bind0;
    [apply (progress_weaken fuel 1); [lia | apply v100_take_reading_progress] | intro].
  apply progress_bind0;
    [apply progress_while_body; [repeat progress_step | apply v100_turn_progress]
    | intro].
  apply (progress_weaken fuel 1); [lia | apply v100_take_reading_progress].
Qed.

Lemma v100_control_loop_progress : progress fuel 0 (V100.control_loop fuel).
Proof.
  unfold V100.control_loop.
  apply progress_while_body; [apply progress_ret | apply v100_cycle_progress].
Qed.

End V100Progress.

Section V060Respects.
Context {P : world V060.globals -> status -> world V060.globals -> Prop}
        {quiet : (V060.globals -> V060.globals) -> Prop}
        {D : Discipline P any_event quiet}.
Hypothesis quiet_reading : forall dc, quiet (V060.assign_reading dc).
Hypothesis quiet_percent : forall p, quiet (V060.assign_percent p).

Ltac v060_respects :=
  repeat (first [ respects_step | exact I | apply quiet_reading | apply quiet_percent ]).

Lemma v060_take_reading_respects : respects P V060.take_reading.
Proof.
  unfold V060.take_reading, V060.distance_reading_cm.
  apply respects_bind; [|intro; v060_respects].
  apply (distance_reading_cm_respects _ _ v060_unbound (D:=D) (fun _ => I) (fun _ => I)).
Qed.

Lemma v060_forward_respects (fuel : nat) : respects P (V060.forward fuel).
Proof.
  unfold V060.forward.
  apply respects_bind; [v060_respects | intro].
  apply respects_bind; [apply v060_take_reading_respects | intro].
  apply respects_while; [v060_respects|].
  apply respects_bind; [v060_respects | intro].
  apply respects_bind; [apply v060_take_reading_respects | intro]. v060_respects.
Qed.

Lemma v060_turn_respects : respects P V060.turn.
Proof.
  unfold V060.turn, V060.start_turn.
  apply respects_bind; [v060_respects | intro].
  apply respects_bind; [v060_respects | intro].
  apply respects_bind; [v060_respects | intro].
  apply v060_take_reading_respects.
Qed.

Lemma v060_react_respects (fuel : nat) : respects P (V060.react fuel).
Proof.
  unfold V060.react, V060.backup_pulses.
  apply respects_bind; [v060_respects | intro]. apply respects_when.
  do 3 (apply respects_bind; [v060_respects | intro]).
  apply respects_while; [v060_respects | apply v060_turn_respects].
Qed.

Lemma v060_control_loop_respects (fuel : nat) : respects P (V060.control_loop fuel).
Proof.
  unfold V060.control_loop, V060.cycle.
  apply respects_while; [v060_respects|].
  apply respects_bind; [apply v060_forward_respects | intro].
  apply v060_react_respects.
Qed.

End V060Respects.

Section V060Progress.
Variable fuel : nat.

Lemma v060_take_reading_progress : progress fuel 1 V060.take_reading.
Proof.
  unfold V060.take_reading, V060.distance_reading_cm.
  apply progress_bind_first; [|intro; repeat progress_step].
  apply (distance_reading_cm_progress V060.RED V060.namespace v060_unbound fuel
           V060.COLLISION_THRESHOLD_CM 9).
Qed.

Lemma v060_forward_progress : progress fuel 1 (V060.forward fuel).
Proof.
  unfold V060.forward.
  apply progress_bind_first; [repeat progress_step | intro].
  apply progress_bind0;
    [apply (progress_weaken fuel 1); [lia | apply v060_take_reading_progress] | intro].
  apply progress_while_body; [repeat progress_step|].
  apply progress_bind_last; [repeat progress_step | intro].
  apply progress_bind_first; [apply v060_take_reading_progress | intro].
  repeat progress_step.
Qed.

Lemma v060_turn_progress : progress fuel 1 V060.turn.
Proof.
  unfold V060.turn, V060.start_turn.
  apply progress_bind_last; [repeat progress_step | intro].
  apply progress_bind_last; [repeat progress_step | intro].
  apply progress_bind_last; [repeat progress_step | intro].
  apply v060_take_reading_progress.
Qed.

Lemma v060_react_progress : progress fuel 0 (V060.react fuel).
Proof.
  unfold V060.react, V060.backup_pulses.
  apply progress_bind0; [repeat progress_step | intro]. apply progress_when.
  do 3 (apply progress_bind0; [repeat progress_step | intro]).
  apply progress_while_body; [repeat progress_step | apply v060_turn_progress].
Qed.

Lemma v060_control_loop_progress : progress fuel 0 (V060.control_loop fuel).
Proof.
  unfold V060.control_loop, V060.cycle.
  apply progress_while_body; [apply progress_ret|].
  apply progress_bind_first; [apply v060_forward_progress | intro].
  apply v060_react_progress.
Qed.

End V060Progress.

(* ===================================================================== *)
(** * Ctrl/C                                                              *)
(* ===================================================================== *)

Lemma handler_stops_motors {G} (w : world G) :
  sigint w = None ->
  set_motor_speeds 0.0 0.0 w = (Return tt, logged (SetMotorSpeeds 0.0 0.0) w).
Proof.
  intros Hs. unfold set_motor_speeds, call, sigint_due. now rewrite Hs.
Qed.

(** A main line that wraps a body which never returns in
    [try: ... except KeyboardInterrupt: set_motor_speeds(0.0, 0.0)] stops on
    Ctrl/C. *)
Lemma try_except_stops_on_ctrl_c {G} (body : nat -> M G unit) (fuel : nat) :
  respects sigint_kept (body fuel) ->
  progress fuel 0 (body fuel) ->
  (forall w, status_of (fst (body fuel w)) <> Returned) ->
  forall w,
    stops_on_ctrl_c
      (fun fuel => try_except_KeyboardInterrupt (body fuel) (set_motor_speeds 0.0 0.0))
      fuel w.
Proof.
  intros Hkept Hprog Hloop w. unfold stops_on_ctrl_c, try_except_KeyboardInterrupt.
  cbv zeta.
  specialize (Hkept w). specialize (Hloop w). destruct (Hprog w) as (_ & _ & Hstarve).
  destruct (body fuel w) as [r w1]. simpl in Hkept, Hloop, Hstarve.
  destruct Hkept as [(Hint & Hnone & Hpending) | (Hnot & Hsame & Hbound)].
  - destruct r; try discriminate Hint.
    rewrite (handler_stops_motors w1 Hnone). simpl.
    split.
    + intros _ _. split; [reflexivity|]. split; [eexists; reflexivity | reflexivity].
    + intros k _ _ _. left. split; [reflexivity | exact Hnone].
  - split.
    + intros Hp Hd. exfalso.
      destruct r; simpl in *; try congruence.
    + intros k Hk Hlen Hfuel. right.
      specialize (Hbound k Hk Hlen).
      destruct r as [[]| e | |]; simpl in *.
      * contradiction.
      * exists e. split; [reflexivity | congruence].
      * contradiction.
      * specialize (Hstarve eq_refl). lia.
Qed.

Lemma any_update_holds {G} (f : G -> G) : any_update f.
Proof. exact I. Qed.

Lemma v072_body_stops (DRIVE_ON : bool) (fuel : nat) (w : world V072.globals) :
  stops_on_ctrl_c (V072.main_line DRIVE_ON) fuel w.
Proof.
  apply (try_except_stops_on_ctrl_c
           (fun fuel => bind (V072.startup fuel)
                          (fun _ => V072.control_loop DRIVE_ON fuel))).
  - apply respects_bind; [|intro].
    + unfold V072.startup.
      apply respects_bind;
        [apply (poll_zones_respects (D:=sigint_discipline)); intros; exact I | intro].
      repeat (first [respects_step | exact I]).
    + apply (control_loop_respects (D:=sigint_discipline)); intros; exact I.
  - apply progress_bind0; [apply startup_progress | intro; apply control_loop_progress].
  - intros w0. rewrite bind_run.
    destruct (V072.startup fuel w0) as [[[]| e | |] w1]; simpl; try discriminate.
    apply while_true_never_returns.
Qed.

Lemma v100_body_stops (fuel : nat) (w : world V100.globals) :
  stops_on_ctrl_c V100.main_line fuel w.
Proof.
  apply (try_except_stops_on_ctrl_c V100.control_loop).
  - apply (v100_control_loop_respects (D:=sigint_discipline)); intros; exact I.
  - apply v100_control_loop_progress.
  - intros w0. apply while_true_never_returns.
Qed.

Lemma v060_body_stops (fuel : nat) (w : world V060.globals) :
  stops_on_ctrl_c V060.main_line fuel w.
Proof.
  apply (try_except_stops_on_ctrl_c V060.control_loop).
  - apply (v060_control_loop_respects (D:=sigint_discipline)); intros; exact I.
  - apply v060_control_loop_progress.
  - intros w0. apply while_true_never_returns.
Qed.

(* ===================================================================== *)
(** * Runs without a pending Ctrl/C                                        *)
(* ===================================================================== *)

Lemma bind_returns {G A B} (m : M G A) (k : A -> M G B) (w w' : world G) (b : B) :
  bind m k w = (Return b, w') ->
  exists a w1, m w = (Return a, w1) /\ k a w1 = (Return b, w').
Proof.
  rewrite bind_run. destruct (m w) as [[a| e | |] w1]; try discriminate.
  intros H. exists a, w1. split; [reflexivity | exact H].
Qed.

Lemma while_exit {G} (f : nat) (test : G -> bool) (body : M G unit) (w0 w : world G) :
  while f (bind read_globals (fun g => ret (test g))) body w0 = (Return tt, w) ->
  test (globals w) = false.
Proof.
  revert w0. induction f as [|f IH]; intros w0; simpl; rewrite bind_run;
    rewrite bind_run; simpl; destruct (test (globals w0)) eqn:Ht; simpl;
    try discriminate; try (intros H; injection H as <-; exact Ht).
  intros H. apply bind_returns in H. destruct H as (a & w1 & _ & H). eapply IH, H.
Qed.

Lemma history_log_all {G} (evs : list event) (w : world G) :
  history (log_all evs w) = history w ++ evs.
Proof. unfold history. simpl. now rewrite rev_app_distr, rev_involutive. Qed.

Lemma log_all_log_all {G} (e1 e2 : list event) (w : world G) :
  log_all e2 (log_all e1 w) = log_all (e1 ++ e2) w.
Proof. unfold log_all. simpl. now rewrite rev_app_distr, app_assoc. Qed.

Lemma appends_history {G A} (m : M G A) (w : world G) :
  respects (appends any_event) m ->
  exists rest, history (snd (m w)) = history w ++ rest.
Proof. intros H. destruct (H w) as (rest & Hrest & _). now exists rest. Qed.

Lemma randint_calm {G} (w : world G) :
  sigint w = None ->
  randint w = (Return (randint_at (env w) (length (log w))),
               log_all [RandInt (randint_at (env w) (length (log w)))] w).
Proof. destruct w as [E lg sg gl]; simpl; intros ->. reflexivity. Qed.

Lemma random_calm {G} (w : world G) :
  sigint w = None ->
  random w = (Return (random_at (env w) (length (log w))),
              log_all [Random (random_at (env w) (length (log w)))] w).
Proof. destruct w as [E lg sg gl]; simpl; intros ->. reflexivity. Qed.

Lemma v060_backup_pulses_calm (w : world V060.globals) :
  sigint w = None ->
  V060.backup_pulses w
  = (Return tt, log_all (concat (repeat v060_pulse V060.BACKUP_LOOPS)) w).
Proof. destruct w as [E lg sg gl]; simpl; intros ->. reflexivity. Qed.

Lemma v060_start_turn_calm (p : Z) (w : world V060.globals) :
  sigint w = None ->
  V060.start_turn p w = (Return tt, log_all (v060_turn_events p) w).
Proof.
  destruct w as [E lg sg gl]; simpl; intros ->.
  unfold V060.start_turn, v060_turn_events.
  destruct (p <? V060.TURN_RIGHT_PERCENT)%Z; reflexivity.
Qed.

Lemma v060_reaction (fuel : nat) (w : world V060.globals) :
  (1 <= fuel)%nat -> V060.collision (globals w) = true -> sigint w = None ->
  exists rest,
    history (snd (V060.react fuel w))
    = history w
      ++ concat (repeat v060_pulse V060.BACKUP_LOOPS)
      ++ [RandInt (randint_at (env w) (length (log w) + 5 * 5))]
      ++ v060_turn_events (randint_at (env w) (length (log w) + 5 * 5))
      ++ rest.
Proof.
  intros Hfuel Hcol Hcalm. destruct fuel as [|fuel]; [lia|].
  set (p := randint_at (env w) (length (log w) + 5 * 5)).
  set (w1 := log_all (concat (repeat v060_pulse V060.BACKUP_LOOPS)) w).
  set (w2 := with_globals (V060.assign_percent p) (log_all [RandInt p] w1)).
  set (tail := bind (bind (sleep V060.TURN_TIME_SEC) (fun _ => V060.take_reading))
                (fun _ => while fuel
                            (bind read_globals (fun g => ret (V060.collision g)))
                            V060.turn)).
  assert (Hrun : V060.react (Datatypes.S fuel) w
                 = tail (log_all (v060_turn_events p) w2)).
  { unfold V060.react. rewrite bind_run.
    change (read_globals w) with (Return (globals w), w). cbv iota. rewrite Hcol.
    unfold when. rewrite bind_run, (v060_backup_pulses_calm w Hcalm). fold w1. cbv iota.
    rewrite bind_run, (randint_calm w1 Hcalm).
    replace (randint_at (env w1) (length (log w1))) with p
      by (unfold p, w1; simpl; f_equal; lia).
    cbv iota. rewrite bind_run.
    change (update_globals (V060.assign_percent p) (log_all [RandInt p] w1))
      with (Return tt, w2).
    cbv iota. cbn [while]. rewrite bind_run, bind_run.
    change (read_globals w2) with (Return (globals w2), w2). cbv iota.
    change (V060.collision (globals w2)) with (V060.collision (globals w)).
    rewrite Hcol. cbv iota beta. cbn [ret]. cbv iota.
    rewrite bind_run. unfold V060.turn. rewrite bind_run.
    change (read_globals w2) with (Return (globals w2), w2). cbv iota.
    rewrite bind_run.
    change (V060.percent (globals w2)) with p.
    rewrite (v060_start_turn_calm p w2 Hcalm). cbv iota.
    reflexivity. }
  assert (Htail : respects (appends any_event) tail).
  { unfold tail.
    apply respects_bind; [|intro].
    { apply respects_bind; [repeat (first [respects_step | exact I]) | intro].
      apply (v060_take_reading_respects (D:=appends_discipline any_event));
        intros; exact I. }
    apply respects_while; [repeat (first [respects_step | exact I])|].
    apply (v060_turn_respects (D:=appends_discipline any_event)); intros; exact I. }
  destruct (appends_history tail (log_all (v060_turn_events p) w2) Htail) as (rest & Hrest).
  exists rest. rewrite Hrun, Hrest.
  rewrite history_log_all.
  change (history w2) with (history (log_all [RandInt p] w1)).
  rewrite history_log_all. unfold w1. rewrite history_log_all.
  rewrite <- !app_assoc. reflexivity.
Qed.

Lemma v072_backup_calm (DRIVE_ON : bool) (w : world V072.globals) :
  sigint w = None ->
  V072.backup DRIVE_ON V072.DEFAULT_BACKUP_LOOPS V072.DEFAULT_BACKUP_TIME_SEC w
  = (Return tt, log_all (v072_backup_events DRIVE_ON) w).
Proof. destruct w as [E lg sg gl]; simpl; intros ->. destruct DRIVE_ON; reflexivity. Qed.

Lemma v072_perform_calm (DRIVE_ON : bool) (m : V072.maneuver) (w : world V072.globals) :
  sigint w = None ->
  V072.perform DRIVE_ON m w = (Return tt, log_all (v072_maneuver_events DRIVE_ON m) w).
Proof.
  destruct w as [E lg sg gl]; simpl; intros ->. destruct m, DRIVE_ON; reflexivity.
Qed.

Lemma v072_reaction (DRIVE_ON : bool) (fuel : nat) (w : world V072.globals) :
  (1 <= fuel)%nat -> V072.collision (globals w) = true -> sigint w = None ->
  exists x0 x1 rest,
    history (snd (V072.react_loop DRIVE_ON fuel w))
    = history w
      ++ [Random x0]
      ++ v072_backup_events DRIVE_ON
      ++ [Random x1]
      ++ v072_maneuver_events DRIVE_ON
           (V072.turn_decision_float64 (V072.left_distance_mm (globals w))
              (V072.right_distance_mm (globals w))
              V072.TURN_TOLERANCE_MM (py_round2 (float64 (x1 * 100.0))))
      ++ rest.
Proof.
  intros Hfuel Hcol Hcalm. destruct fuel as [|f]; [lia|].
  set (F := Datatypes.S f).
  set (x0 := random_at (env w) (length (log w))).
  set (w1 := with_globals (V072.assign_percent (float64 (x0 * 100.0)))
               (log_all [Random x0] w)).
  set (w2 := log_all (v072_backup_events DRIVE_ON) w1).
  set (x1 := random_at (env w2) (length (log w2))).
  set (w3 := with_globals (V072.assign_percent (py_round2 (float64 (x1 * 100.0))))
               (log_all [Random x1] w2)).
  set (m := V072.turn_decision_float64 (V072.left_distance_mm (globals w))
              (V072.right_distance_mm (globals w))
              V072.TURN_TOLERANCE_MM (py_round2 (float64 (x1 * 100.0)))).
  set (tail := bind (bind (sleep V072.TURN_TIME_SEC) (fun _ => V072.poll_zones F))
                (fun _ => while f
                            (bind read_globals (fun g => ret (V072.collision g)))
                            (V072.react DRIVE_ON F))).
  assert (Hrun : V072.react_loop DRIVE_ON F w
                 = tail (log_all (v072_maneuver_events DRIVE_ON m) w3)).
  { unfold V072.react_loop, F. cbn [while]. fold F. rewrite bind_run, bind_run.
    change (read_globals w) with (Return (globals w), w). cbv iota.
    rewrite Hcol. cbv iota beta. cbn [ret]. cbv iota.
    rewrite bind_run. unfold V072.react at 1.
    rewrite bind_run, (random_calm w Hcalm). fold x0. cbv iota.
    rewrite bind_run.
    change (update_globals (V072.assign_percent (float64 (x0 * 100.0)))
              (log_all [Random x0] w)) with (Return tt, w1).
    cbv iota. rewrite bind_run, (v072_backup_calm DRIVE_ON w1 Hcalm). fold w2. cbv iota.
    rewrite bind_run, (random_calm w2 Hcalm). fold x1. cbv iota.
    rewrite bind_run.
    change (update_globals (V072.assign_percent (py_round2 (float64 (x1 * 100.0))))
              (log_all [Random x1] w2)) with (Return tt, w3).
    cbv iota. rewrite bind_run.
    change (read_globals w3) with (Return (globals w3), w3). cbv iota.
    rewrite bind_run.
    change (V072.turn_decision_float64 (V072.left_distance_mm (globals w3))
              (V072.right_distance_mm (globals w3)) V072.TURN_TOLERANCE_MM
              (V072.percent (globals w3))) with m.
    rewrite (v072_perform_calm DRIVE_ON m w3 Hcalm). cbv iota.
    reflexivity. }
  assert (Htail : respects (appends any_event) tail).
  { unfold tail.
    apply respects_bind; [|intro].
    { apply respects_bind; [repeat (first [respects_step | exact I]) | intro].
      apply (poll_zones_respects (D:=appends_discipline any_event)); intros; exact I. }
    apply respects_while; [repeat (first [respects_step | exact I])|].
    apply (react_respects (D:=appends_discipline any_event)); intros; exact I. }
  destruct (appends_history tail (log_all (v072_maneuver_events DRIVE_ON m) w3) Htail)
    as (rest & Hrest).
  exists x0, x1, rest. fold F. rewrite Hrun, Hrest.
  rewrite history_log_all.
  change (history w3) with (history (log_all [Random x1] w2)).
  rewrite history_log_all. unfold w2. rewrite history_log_all.
  change (history w1) with (history (log_all [Random x0] w)).
  rewrite history_log_all.
  rewrite <- !app_assoc. reflexivity.
Qed.

(** The percentage of [Trilobot_v072.py] is [round(random() * 100.0, 2)]:
    the product is a double before it is rounded to two places.  At
    [random() = 4503149267407759 / 2^53] the exact product rounds to 50 and
    the double product to 49.99, and with equal averages the script turns
    right. *)
Lemma percent_rounds_the_double_product :
  py_round2 (float64 ((4503149267407759 # 9007199254740992) * 100.0)) < 50 /\
  py_round2 ((4503149267407759 # 9007199254740992) * 100.0) == 50 /\
  V072.turn_decision_float64 150 150 V072.TURN_TOLERANCE_MM
    (py_round2 (float64 ((4503149267407759 # 9007199254740992) * 100.0)))
  = V072.TurnRight.
Proof. split; [|split]; vm_compute; reflexivity. Qed.

(** C9, as the scripts have it.  When the forward loop ends (a collision
    has been detected) and no Ctrl/C is pending, the calls that follow
    are, in this order and with no sensor call among them: (v0.7.2 only) a
    random draw; the backup, once; the draw that picks the side; the side
    indicator and, drive permitting, the turn.  In [Trilobot_v060.py] the
    backup is [BACKUP_LOOPS] pulses, each a blink of the rear lights
    followed by one reverse motor command.  In [Trilobot_v072.py] it is
    [DEFAULT_BACKUP_LOOPS] such pulses when [DRIVE_ON] is true and no call
    at all when [DRIVE_ON] is false, and the maneuver is the one the chain
    of lines 411-423 selects, in double precision, from the two side
    averages and [round(x1 * 100.0, 2)] for the second draw [x1]. *)
Theorem backup_precedes_first_turn :
  (forall (fuel : nat) (w0 w : world V060.globals),
     (1 <= fuel)%nat -> V060.forward fuel w0 = (Return tt, w) -> sigint w = None ->
     V060.collision (globals w) = true /\
     exists p rest,
       history (snd (V060.react fuel w))
       = history w
         ++ concat (repeat v060_pulse V060.BACKUP_LOOPS)
         ++ [RandInt p] ++ v060_turn_events p ++ rest) /\
  (forall (DRIVE_ON : bool) (fuel : nat) (w0 w : world V072.globals),
     (1 <= fuel)%nat -> V072.forward_loop fuel w0 = (Return tt, w) -> sigint w = None ->
     V072.collision (globals w) = true /\
     exists x0 x1 rest,
       history (snd (V072.react_loop DRIVE_ON fuel w))
       = history w
         ++ [Random x0]
         ++ (if DRIVE_ON
             then concat (repeat v072_pulse V072.DEFAULT_BACKUP_LOOPS)
             else [])
         ++ [Random x1]
         ++ v072_maneuver_events DRIVE_ON
              (V072.turn_decision_float64 (V072.left_distance_mm (globals w))
                 (V072.right_distance_mm (globals w))
                 V072.TURN_TOLERANCE_MM (py_round2 (float64 (x1 * 100.0))))
         ++ rest).
Proof.
  split.
  - intros fuel w0 w Hfuel Hfwd Hcalm.
    assert (Hcol : V060.collision (globals w) = true).
    { unfold V060.forward in Hfwd.
      apply bind_returns in Hfwd. destruct Hfwd as (a & w1 & _ & Hfwd).
      apply bind_returns in Hfwd. destruct Hfwd as (b & w2 & _ & Hfwd).
      apply while_exit in Hfwd. now apply negb_false_iff in Hfwd. }
    split; [exact Hcol|].
    destruct (v060_reaction fuel w Hfuel Hcol Hcalm) as (rest & Hrest).
    eexists. exists rest. exact Hrest.
  - intros DRIVE_ON fuel w0 w Hfuel Hfwd Hcalm.
    assert (Hcol : V072.collision (globals w) = true).
    { unfold V072.forward_loop in Hfwd.
      apply while_exit in Hfwd. now apply negb_false_iff in Hfwd. }
    split; [exact Hcol|].
    exact (v072_reaction DRIVE_ON fuel w Hfuel Hcol Hcalm).
Qed.

Lemma backup_precedes_first_turn_witness :
  (V060.collision (globals (snd (V060.forward 1 v060_facing_obstacle))) = true /\
   exists p rest,
     history (snd (V060.react 1 (snd (V060.forward 1 v060_facing_obstacle))))
     = history (snd (V060.forward 1 v060_facing_obstacle))
       ++ concat (repeat v060_pulse V060.BACKUP_LOOPS)
       ++ [RandInt p] ++ v060_turn_events p ++ rest) /\
  (V072.collision (globals (snd (V072.forward_loop 1 v072_facing_obstacle))) = true /\
   exists x0 x1 rest,
     history (snd (V072.react_loop true 1 (snd (V072.forward_loop 1 v072_facing_obstacle))))
     = history (snd (V072.forward_loop 1 v072_facing_obstacle))
       ++ [Random x0]
       ++ concat (repeat v072_pulse V072.DEFAULT_BACKUP_LOOPS)
       ++ [Random x1]
       ++ v072_maneuver_events true
            (V072.turn_decision_float64
               (V072.left_distance_mm
                  (globals (snd (V072.forward_loop 1 v072_facing_obstacle))))
               (V072.right_distance_mm
                  (globals (snd (V072.forward_loop 1 v072_facing_obstacle))))
               V072.TURN_TOLERANCE_MM (py_round2 (float64 (x1 * 100.0))))
       ++ rest).
Proof.
  split.
  - apply (proj1 backup_precedes_first_turn 1%nat v060_facing_obstacle
             (snd (V060.forward 1 v060_facing_obstacle))).
    + lia.
    + vm_compute. reflexivity.
    + vm_compute. reflexivity.
  - apply (proj2 backup_precedes_first_turn true 1%nat v072_facing_obstacle
             (snd (V072.forward_loop 1 v072_facing_obstacle))).
    + lia.
    + vm_compute. reflexivity.
    + vm_compute. reflexivity.
Defined.

(** C9 as stated fails on [Trilobot_v072.py] as it is shipped
    ([DRIVE_ON = False], line 357): the forward loop detects the obstacle,
    and the reaction draws, blinks the right side lights and polls again
    without one motor command, where the claim has five reverse ones. *)
Lemma backup_as_shipped_counterexample :
  fst (V072.forward_loop 1 v072_facing_obstacle) = Return tt /\
  V072.collision (globals (snd (V072.forward_loop 1 v072_facing_obstacle))) = true /\
  history (snd (V072.react_loop V072.DRIVE_ON_as_shipped 1
                  (snd (V072.forward_loop 1 v072_facing_obstacle))))
  = history (snd (V072.forward_loop 1 v072_facing_obstacle))
    ++ [Random 0.3; Random 0.3]
    ++ blink_events RIGHT_LIGHTS V072.BLUE
    ++ [Sleep V072.TURN_TIME_SEC; DataReady true; GetData (repeat 150%N 64);
        Sleep 0.25] /\
  motor_command (log (snd (V072.cycle V072.DRIVE_ON_as_shipped 1 v072_facing_obstacle)))
  = None.
Proof. vm_compute. repeat split; reflexivity. Qed.

(* ===================================================================== *)
(** * The collision flag                                                   *)
(* ===================================================================== *)

Section UltrasonicFlag.
Context {G : Type}.
Variable RED : colour.
Variable namespace : list (string * Ultrasonic.blinker G).





End UltrasonicFlag.




(* ===================================================================== *)
(** * The ranger that never answers                                        *)
(* ===================================================================== *)

Section Exhaustion.
Context {G : Type}.
Variable RED : colour.
Variable namespace : list (string * Ultrasonic.blinker G).
Hypothesis unbound :
  lookup_name namespace "blink_underlighting" = Raise (NameError "blink_underlighting").

Lemma retry_loop_exhausts (f : nat) (d : Q) (c : Z) (w : world G) :
  sigint w = None -> (forall t, read_distance_at (env w) t < 0) -> d < 0 ->
  (0 <= c)%Z -> (c + Z.of_nat (S f) = 10)%Z ->
  let loop :=
    while_local (S f)
      (fun dc => Qlt_bool (fst dc) 0.0 && (snd dc <? 10)%Z)
      (fun dc =>
         bind read_distance (fun distance =>
         let counter := (snd dc + 1)%Z in
         if (counter >=? 10)%Z then
           bind (lift (lookup_name namespace "blink_underlighting"))
             (fun blink_underlighting =>
                bind (blink_underlighting (LightGroups [LEFT_LIGHTS; RIGHT_LIGHTS])
                        RED 10%nat)
                  (fun _ => raise (ValueError Ultrasonic.emsg)))
         else ret (distance, counter))) in
  fst (loop (d, c) w) = Raised (NameError "blink_underlighting") /\
  exists evs,
    history (snd (loop (d, c) w)) = history w ++ evs /\
    length evs = S f /\ Forall not_underlight evs.
Proof.
  intros Hcalm Hneg Hd Hc Hsum loop. subst loop.
  revert d c w Hcalm Hneg Hd Hc Hsum.
  induction f as [|f IH]; intros d c w Hcalm Hneg Hd Hc Hsum.
  - cbn [while_local fst snd].
    assert (Hlt : Qlt_bool d 0.0 = true).
    { apply Qlt_bool_iff. eapply Qlt_le_trans; [exact Hd | discriminate]. }
    rewrite Hlt. destruct (Z.ltb_spec c 10); [|lia]. cbn [andb].
    rewrite bind_run, bind_run.
    destruct (read_distance_cases w) as [Hrd | Hrd].
    { exfalso. unfold read_distance, call, sigint_due in Hrd. rewrite Hcalm in Hrd.
      discriminate Hrd. }
    rewrite Hrd. cbv zeta.
    destruct (Z.geb_spec (c + 1) 10); [|lia].
    rewrite unbound. cbn. split; [reflexivity|].
    exists [ReadDistance (read_distance_at (env w) (length (log w)))].
    split; [reflexivity|]. split; [reflexivity|]. repeat constructor.
  - change (while_local (S (S f)) ?cond ?body (d, c))
      with (if cond (d, c) then bind (body (d, c)) (while_local (S f) cond body)
            else ret (d, c)).
    cbn [fst snd].
    assert (Hlt : Qlt_bool d 0.0 = true).
    { apply Qlt_bool_iff. eapply Qlt_le_trans; [exact Hd | discriminate]. }
    rewrite Hlt. destruct (Z.ltb_spec c 10); [|lia]. cbn [andb].
    rewrite bind_run, bind_run.
    destruct (read_distance_cases w) as [Hrd | Hrd].
    { exfalso. unfold read_distance, call, sigint_due in Hrd. rewrite Hcalm in Hrd.
      discriminate Hrd. }
    rewrite Hrd. cbv zeta.
    destruct (Z.geb_spec (c + 1) 10); [lia|].
    set (d' := read_distance_at (env w) (length (log w))).
    set (w1 := logged (ReadDistance d') w).
    cbn [ret]. cbv iota.
    destruct (IH d' (c + 1)%Z w1) as (Hfail & evs & Hhist & Hlen & Hall);
      [exact Hcalm | exact Hneg | apply Hneg | lia | lia |].
    split; [exact Hfail|].
    exists (ReadDistance d' :: evs). split; [|split].
    + transitivity (history w1 ++ evs); [exact Hhist|].
      unfold w1, history. simpl. now rewrite <- app_assoc.
    + simpl. now rewrite Hlen.
    + constructor; [reflexivity | exact Hall].
Qed.

Lemma distance_reading_cm_exhausts (threshold : Q) (n : nat) (w : world G) :
  sigint w = None -> (forall t, read_distance_at (env w) t < 0) ->
  fails_unindicated
    (Ultrasonic.distance_reading_cm RED namespace threshold (S n)) w.
Proof.
  intros Hcalm Hneg. unfold fails_unindicated.
  assert (Hd : - 1.0 < 0) by reflexivity.
  pose proof (retry_loop_exhausts 9 (- 1.0) 0 w Hcalm Hneg Hd
                ltac:(lia) ltac:(reflexivity)) as Hloop.
  cbv zeta in Hloop.
  change (while_local 10 _ _ (- 1.0, 0%Z))
    with (Ultrasonic.valid_reading RED namespace) in Hloop.
  destruct Hloop as (Hfail & evs & Hhist & Hlen & Hall).
  unfold Ultrasonic.distance_reading_cm. cbv zeta.
  cbn [for_range_local]. rewrite bind_run, bind_run, bind_run.
  destruct (Ultrasonic.valid_reading RED namespace w) as [r w1].
  simpl in Hfail, Hhist. subst r. simpl.
  split; [reflexivity|]. exists evs. auto.
Qed.

Lemma distance_reading_cm_never_indicates (threshold : Q) (n : nat) :
  respects (appends not_underlight)
    (Ultrasonic.distance_reading_cm RED namespace threshold n).
Proof.
  apply (distance_reading_cm_respects RED namespace unbound
           (D:=appends_discipline not_underlight)); intros; reflexivity.
Qed.

End Exhaustion.

(** C6 fails on the code.  When the ranger gives ten negative readings in
    a row, the readings of [Trilobot.py], [Trilobot_v060.py] and
    [utility_functions.py] call [blink_underlighting], a name no file
    binds (the function is [blink_underlights]): the run ends in
    [NameError] after the ten sensor calls, with no call on the underlights
    and without reaching [raise ValueError(emsg)].  No run of these
    readings, exhausted or not, makes a call on the underlights. *)
Theorem exhausted_reading_gives_no_indication :
  (forall w : world V100.globals,
     sigint w = None -> (forall t, read_distance_at (env w) t < 0) ->
     fails_unindicated V100.distance_reading_cm w) /\
  (forall w : world V060.globals,
     sigint w = None -> (forall t, read_distance_at (env w) t < 0) ->
     fails_unindicated V060.distance_reading_cm w) /\
  (forall (G : Type) (threshold : Q) (nr_readings : nat) (w : world G),
     sigint w = None -> (forall t, read_distance_at (env w) t < 0) ->
     fails_unindicated
       (Utility.distance_ultrasonic_reading_cm (G:=G) threshold (S nr_readings)) w) /\
  (forall w : world V100.globals,
     appends not_underlight w
       (status_of (fst (V100.distance_reading_cm w)))
       (snd (V100.distance_reading_cm w))) /\
  (forall w : world V060.globals,
     appends not_underlight w
       (status_of (fst (V060.distance_reading_cm w)))
       (snd (V060.distance_reading_cm w))).
Proof.
  split; [|split; [|split; [|split]]].
  - intros w Hcalm Hneg.
    apply (distance_reading_cm_exhausts V100.RED V100.namespace v100_unbound
             V100.COLLISION_THRESHOLD_CM 9 w Hcalm Hneg).
  - intros w Hcalm Hneg.
    apply (distance_reading_cm_exhausts V060.RED V060.namespace v060_unbound
             V060.COLLISION_THRESHOLD_CM 9 w Hcalm Hneg).
  - intros G threshold n w Hcalm Hneg.
    apply (distance_reading_cm_exhausts Utility.RED (Utility.namespace G)
             (utility_unbound G) threshold n w Hcalm Hneg).
  - intros w.
    apply (distance_reading_cm_never_indicates V100.RED V100.namespace v100_unbound).
  - intros w.
    apply (distance_reading_cm_never_indicates V060.RED V060.namespace v060_unbound).
Qed.

Lemma exhausted_reading_gives_no_indication_witness :
  fails_unindicated V100.distance_reading_cm v100_ranger_failing.
Proof.
  apply (proj1 exhausted_reading_gives_no_indication v100_ranger_failing).
  - reflexivity.
  - intros t. reflexivity.
Defined.

(* ===================================================================== *)
(** * The calls each script can make                                       *)
(* ===================================================================== *)

Lemma respects_when_true {G} {P : world G -> status -> world G -> Prop}
    {allowed quiet} {D : Discipline P allowed quiet} (c : bool) (m : M G unit) :
  (c = true -> respects P m) -> respects P (when c m).
Proof. destruct c; intros H; [apply H; reflexivity | apply respects_ret]. Qed.

Ltac allowed_call Hcalls :=
  lazymatch goal with
  | |- ?allowed (SetMotorSpeeds ?l ?r) =>
      apply (Hcalls (SetMotorSpeeds l r)); simpl; auto 8
  | |- ?allowed ?e => exact (Hcalls e)
  end.

Ltac calls_respects Hcalls :=
  repeat (first [ respects_step | allowed_call Hcalls | exact I ]).

Section V072Calls.
Context {P : world V072.globals -> status -> world V072.globals -> Prop}
        {allowed : event -> Prop}
        {D : Discipline P allowed any_update}.

Lemma v072_poll_zones_calls (fuel : nat) :
  motor_only [] allowed -> respects P (V072.poll_zones fuel).
Proof.
  intros Hcalls.
  unfold V072.poll_zones, V072.np_average_distances, V072.np_distances_vl53l5cx_mm.
  calls_respects Hcalls.
Qed.

Lemma v072_motor_only_weaken (DRIVE_ON : bool) :
  motor_only (if DRIVE_ON then v072_speeds else []) allowed -> motor_only [] allowed.
Proof.
  intros Hcalls e. specialize (Hcalls e). destruct e; try exact Hcalls.
  intros [].
Qed.

Lemma v072_control_loop_calls (DRIVE_ON : bool) (fuel : nat) :
  motor_only (if DRIVE_ON then v072_speeds else []) allowed ->
  respects P (V072.control_loop DRIVE_ON fuel).
Proof.
  intros Hcalls.
  pose proof (v072_poll_zones_calls fuel (v072_motor_only_weaken DRIVE_ON Hcalls))
    as Hpoll.
  assert (Hbackup : forall loops wait_sec,
             respects P (V072.backup DRIVE_ON loops wait_sec)).
  { intros loops wait_sec. unfold V072.backup. apply respects_when_true.
    intros ->. simpl in Hcalls. calls_respects Hcalls. }
  assert (Hperform : forall m, respects P (V072.perform DRIVE_ON m)).
  { intros [| |]; simpl; [| |apply Hbackup];
      unfold V072.turn_right, V072.turn_left;
      (apply respects_bind; [calls_respects Hcalls | intro]);
      apply respects_when_true; intros ->; simpl in Hcalls; calls_respects Hcalls. }
  unfold V072.control_loop. apply respects_while; [calls_respects Hcalls|].
  unfold V072.cycle.
  apply respects_bind; [|intro].
  { apply respects_when_true. intros ->. simpl in Hcalls. calls_respects Hcalls. }
  apply respects_bind; [|intro].
  { unfold V072.forward_loop. apply respects_while; [calls_respects Hcalls|].
    apply respects_bind; [calls_respects Hcalls | intro].
    apply respects_bind; [exact Hpoll | intro]. calls_respects Hcalls. }
  unfold V072.react_loop. apply respects_while; [calls_respects Hcalls|].
  unfold V072.react.
  do 2 (apply respects_bind; [calls_respects Hcalls | intro]).
  apply respects_bind; [apply Hbackup | intro].
  do 3 (apply respects_bind; [calls_respects Hcalls | intro]).
  apply respects_bind; [apply Hperform | intro].
  apply respects_bind; [calls_respects Hcalls | intro]. exact Hpoll.
Qed.

Lemma v072_startup_calls (fuel : nat) :
  motor_only [] allowed -> respects P (V072.startup fuel).
Proof.
  intros Hcalls. unfold V072.startup.
  apply respects_bind; [apply v072_poll_zones_calls; exact Hcalls | intro].
  calls_respects Hcalls.
Qed.

End V072Calls.

Section UltrasonicCalls.
Context {G : Type} {P : world G -> status -> world G -> Prop}
        {allowed : event -> Prop} {quiet : (G -> G) -> Prop}
        {D : Discipline P allowed quiet}.

Lemma distance_reading_cm_calls (RED : colour)
    (namespace : list (string * Ultrasonic.blinker G)) (threshold : Q) (n : nat) :
  lookup_name namespace "blink_underlighting"
  = Raise (NameError "blink_underlighting") ->
  motor_only [] allowed ->
  respects P (Ultrasonic.distance_reading_cm RED namespace threshold n).
Proof.
  intros Hunbound Hcalls.
  apply (distance_reading_cm_respects RED namespace Hunbound (D:=D)).
  - intros cm. exact (Hcalls (ReadDistance cm)).
  - intros sec. exact (Hcalls (Sleep sec)).
Qed.

End UltrasonicCalls.

Lemma motor_only_nil (speeds : list (Q * Q)) (allowed : event -> Prop) :
  motor_only speeds allowed -> motor_only [] allowed.
Proof.
  intros Hcalls e. specialize (Hcalls e). destruct e; try exact Hcalls. intros [].
Qed.

Section V100Calls.
Context {P : world V100.globals -> status -> world V100.globals -> Prop}
        {allowed : event -> Prop}
        {D : Discipline P allowed any_update}.
Hypothesis Hcalls : motor_only v100_speeds allowed.

Lemma v100_take_reading_calls : respects P V100.take_reading.
Proof.
  unfold V100.take_reading, V100.distance_reading_cm.
  apply respects_bind; [|intro; calls_respects Hcalls].
  apply distance_reading_cm_calls; [reflexivity | exact (motor_only_nil _ _ Hcalls)].
Qed.

Lemma v100_control_loop_calls (fuel : nat) : respects P (V100.control_loop fuel).
Proof.
  unfold V100.control_loop. apply respects_while; [calls_respects Hcalls|].
  unfold V100.cycle.
  apply respects_bind; [calls_respects Hcalls | intro].
  apply respects_bind;
    [apply respects_while; [calls_respects Hcalls | apply v100_take_reading_calls]
    | intro].
  do 4 (apply respects_bind; [calls_respects Hcalls | intro]).
  apply respects_bind; [apply v100_take_reading_calls | intro].
  apply respects_bind; [|intro; apply v100_take_reading_calls].
  apply respects_while; [calls_respects Hcalls|].
  unfold V100.turn.
  do 3 (apply respects_bind; [calls_respects Hcalls | intro]).
  apply v100_take_reading_calls.
Qed.

End V100Calls.

Section V060Calls.
Context {P : world V060.globals -> status -> world V060.globals -> Prop}
        {allowed : event -> Prop}
        {D : Discipline P allowed any_update}.
Hypothesis Hcalls : motor_only v060_speeds allowed.

Lemma v060_take_reading_calls : respects P V060.take_reading.
Proof.
  unfold V060.take_reading, V060.distance_reading_cm.
  apply respects_bind; [|intro; calls_respects Hcalls].
  apply distance_reading_cm_calls; [reflexivity | exact (motor_only_nil _ _ Hcalls)].
Qed.

Lemma v060_turn_calls : respects P V060.turn.
Proof.
  unfold V060.turn, V060.start_turn.
  do 3 (apply respects_bind; [calls_respects Hcalls | intro]).
  apply v060_take_reading_calls.
Qed.

Lemma v060_control_loop_calls (fuel : nat) : respects P (V060.control_loop fuel).
Proof.
  unfold V060.control_loop, V060.cycle.
  apply respects_while; [calls_respects Hcalls|].
  apply respects_bind; [|intro].
  { unfold V060.forward.
    apply respects_bind; [calls_respects Hcalls | intro].
    apply respects_bind; [apply v060_take_reading_calls | intro].
    apply respects_while; [calls_respects Hcalls|].
    apply respects_bind; [calls_respects Hcalls | intro].
    apply respects_bind; [apply v060_take_reading_calls | intro].
    calls_respects Hcalls. }
  unfold V060.react, V060.backup_pulses.
  apply respects_bind; [calls_respects Hcalls | intro]. apply respects_when.
  do 3 (apply respects_bind; [calls_respects Hcalls | intro]).
  apply respects_while; [calls_respects Hcalls | apply v060_turn_calls].
Qed.

End V060Calls.

Lemma try_except_appends {G} (allowed : event -> Prop) (body : M G unit) (l r : Q) :
  respects (appends allowed) body -> allowed (SetMotorSpeeds l r) ->
  respects (appends allowed) (try_except_KeyboardInterrupt body (set_motor_speeds l r)).
Proof.
  intros Hbody Hstop w. unfold try_except_KeyboardInterrupt.
  specialize (Hbody w). destruct (body w) as [[[]| e | |] w1]; simpl in *; try exact Hbody.
  eapply (seq (Discipline := appends_discipline allowed)).
  - exact Hbody.
  - unfold set_motor_speeds.
    apply (respects_call (D := appends_discipline allowed)). intros; exact Hstop.
Qed.

Lemma in_range (l r : Q) :
  Qle_bool (- (1)) l = true -> Qle_bool l 1 = true ->
  Qle_bool (- (1)) r = true -> Qle_bool r 1 = true ->
  speeds_in_range (SetMotorSpeeds l r).
Proof. intros H1 H2 H3 H4. repeat split; apply Qle_bool_imp_le; assumption. Qed.

Lemma motor_only_in_range (speeds : list (Q * Q)) :
  forallb (fun lr => Qle_bool (- (1)) (fst lr) && Qle_bool (fst lr) 1 &&
                     Qle_bool (- (1)) (snd lr) && Qle_bool (snd lr) 1) speeds = true ->
  motor_only speeds speeds_in_range.
Proof.
  intros Hall e. destruct e; try exact I.
  intros Hin. rewrite forallb_forall in Hall. specialize (Hall _ Hin). simpl in Hall.
  repeat (apply andb_true_iff in Hall; destruct Hall as [Hall ?]).
  apply in_range; assumption.
Qed.

(** X1.  Every motor command any of the three main lines issues, the stop on
    Ctrl/C included, has both speeds within [-1, 1], whatever the sensors
    answer and wherever the run ends. *)
Theorem motor_speeds_stay_in_range :
  forall (DRIVE_ON : bool) (fuel : nat),
    (forall w : world V072.globals,
       exists evs, history (snd (V072.main_line DRIVE_ON fuel w)) = history w ++ evs /\
                   Forall speeds_in_range evs) /\
    (forall w : world V100.globals,
       exists evs, history (snd (V100.main_line fuel w)) = history w ++ evs /\
                   Forall speeds_in_range evs) /\
    (forall w : world V060.globals,
       exists evs, history (snd (V060.main_line fuel w)) = history w ++ evs /\
                   Forall speeds_in_range evs).
Proof.
  intros DRIVE_ON fuel.
  assert (Hstop : speeds_in_range (SetMotorSpeeds 0.0 0.0))
    by (apply in_range; reflexivity).
  split; [|split]; intros w.
  - assert (H72 : motor_only (if DRIVE_ON then v072_speeds else []) speeds_in_range).
    { destruct DRIVE_ON; apply motor_only_in_range; reflexivity. }
    apply (try_except_appends speeds_in_range
             (bind (V072.startup fuel) (fun _ => V072.control_loop DRIVE_ON fuel))
             0.0 0.0); [|exact Hstop].
    apply (respects_bind (D := appends_discipline speeds_in_range)); [|intro].
    + apply (v072_startup_calls (D := appends_discipline speeds_in_range)).
      exact (v072_motor_only_weaken DRIVE_ON H72).
    + apply (v072_control_loop_calls (D := appends_discipline speeds_in_range)). exact H72.
  - apply (try_except_appends speeds_in_range (V100.control_loop fuel) 0.0 0.0);
      [|exact Hstop].
    apply (v100_control_loop_calls (D := appends_discipline speeds_in_range)).
    apply motor_only_in_range. reflexivity.
  - apply (try_except_appends speeds_in_range (V060.control_loop fuel) 0.0 0.0);
      [|exact Hstop].
    apply (v060_control_loop_calls (D := appends_discipline speeds_in_range)).
    apply motor_only_in_range. reflexivity.
Qed.

Lemma motor_only_motor_free (allowed : event -> Prop) :
  (forall e, motor_free e -> allowed e) -> motor_only [] allowed.
Proof.
  intros H e. destruct e; try (apply H; exact I). intros [].
Qed.

(** X2.  With [DRIVE_ON] as the script ships it (False), no run of the control
    loop of [Trilobot_v072.py] issues a motor command, and the only motor
    command a run of the main line can issue is the stop of the Ctrl/C
    handler. *)
Theorem drive_off_issues_no_motor_command :
  forall (fuel : nat) (w : world V072.globals),
    (exists evs,
       history (snd (V072.control_loop V072.DRIVE_ON_as_shipped fuel w))
       = history w ++ evs /\ Forall motor_free evs) /\
    (exists evs,
       history (snd (V072.main_line V072.DRIVE_ON_as_shipped fuel w))
       = history w ++ evs /\ Forall motor_free_or_stop evs).
Proof.
  intros fuel w. split.
  - apply (v072_control_loop_calls (D := appends_discipline motor_free)
             V072.DRIVE_ON_as_shipped fuel).
    apply motor_only_motor_free. auto.
  - assert (Hfree : motor_only [] motor_free_or_stop).
    { apply motor_only_motor_free. intros e He. destruct e; try exact I. destruct He. }
    apply (try_except_appends motor_free_or_stop
             (bind (V072.startup fuel)
                (fun _ => V072.control_loop V072.DRIVE_ON_as_shipped fuel))
             0.0 0.0); [|split; reflexivity].
    apply (respects_bind (D := appends_discipline motor_free_or_stop)); [|intro].
    + apply (v072_startup_calls (D := appends_discipline motor_free_or_stop)).
      exact Hfree.
    + apply (v072_control_loop_calls (D := appends_discipline motor_free_or_stop)
               V072.DRIVE_ON_as_shipped fuel).
      exact Hfree.
Qed.

(* ===================================================================== *)
(** * The turn decision beyond its four rules                              *)
(* ===================================================================== *)




(* ===================================================================== *)
(** * The retry budget of the ultrasonic reading                           *)
(* ===================================================================== *)

Lemma readings_from_cons (E : environment) (t n : nat) :
  readings_from E t (S n)
  = ReadDistance (read_distance_at E t) :: readings_from E (S t) n.
Proof.
  unfold readings_from. cbn [List.seq map]. rewrite Nat.add_0_r. f_equal.
  rewrite <- seq_shift, map_map. apply map_ext. intros i. do 2 f_equal. lia.
Qed.

Section RetryBudget.
Context {G : Type}.
Variable RED : colour.
Variable namespace : list (string * Ultrasonic.blinker G).
Hypothesis unbound :
  lookup_name namespace "blink_underlighting" = Raise (NameError "blink_underlighting").

Lemma read_distance_calm (w : world G) :
  sigint w = None ->
  read_distance w
  = (Return (read_distance_at (env w) (length (log w))),
     logged (ReadDistance (read_distance_at (env w) (length (log w)))) w).
Proof.
  intros Hcalm. destruct (read_distance_cases w) as [Hrd | Hrd]; [|exact Hrd].
  exfalso. unfold read_distance, call, sigint_due in Hrd. rewrite Hcalm in Hrd.
  discriminate Hrd.
Qed.

Lemma negative_reading (d : Q) : d < 0 -> Qlt_bool d 0.0 = true.
Proof. intros Hd. apply Qlt_bool_iff. eapply Qlt_le_trans; [exact Hd | discriminate]. Qed.

Lemma valid_reading_ok (d : Q) : 0 <= d -> Qlt_bool d 0.0 = false.
Proof.
  intros Hd. apply Qlt_bool_false. intro Hlt. apply (Qlt_not_le _ _ Hlt).
  eapply Qle_trans; [|exact Hd]. discriminate.
Qed.

(** The loop of [valid_reading], entered with [f + 1] iterations to go
    before the counter reaches ten: after [f] failures the next reading
    ends it in [NameError], whatever that reading is. *)
Lemma retry_loop_last_attempt (f : nat) (d : Q) (c : Z) (w : world G) :
  sigint w = None ->
  (forall i, (i < f)%nat -> read_distance_at (env w) (length (log w) + i) < 0) ->
  d < 0 -> (0 <= c)%Z -> (c + Z.of_nat (S f) = 10)%Z ->
  fst (while_local (S f)
         (fun dc => Qlt_bool (fst dc) 0.0 && (snd dc <? 10)%Z)
         (fun dc =>
            bind read_distance (fun distance =>
            if (snd dc + 1 >=? 10)%Z then
              bind (lift (lookup_name namespace "blink_underlighting"))
                (fun blink_underlighting =>
                   bind (blink_underlighting (LightGroups [LEFT_LIGHTS; RIGHT_LIGHTS])
                           RED 10%nat)
                     (fun _ => raise (ValueError Ultrasonic.emsg)))
            else ret (distance, (snd dc + 1)%Z)))
         (d, c) w)
  = Raised (NameError "blink_underlighting").
Proof.
  revert d c w.
  induction f as [|f IH]; intros d c w Hcalm Hneg Hd Hc Hsum.
  - cbn [while_local fst snd].
    rewrite (negative_reading d Hd). destruct (Z.ltb_spec c 10); [|lia]. cbn [andb].
    rewrite bind_run, bind_run, (read_distance_calm w Hcalm).
    destruct (Z.geb_spec (c + 1) 10); [|lia].
    rewrite unbound. reflexivity.
  - change (while_local (S (S f)) ?cond ?body (d, c))
      with (if cond (d, c) then bind (body (d, c)) (while_local (S f) cond body)
            else ret (d, c)).
    cbn [fst snd].
    rewrite (negative_reading d Hd). destruct (Z.ltb_spec c 10); [|lia]. cbn [andb].
    rewrite bind_run, bind_run, (read_distance_calm w Hcalm).
    destruct (Z.geb_spec (c + 1) 10); [lia|].
    cbn [ret]. cbv iota.
    apply IH; [exact Hcalm | | | lia | lia].
    + intros i Hi. simpl. replace (S (length (log w) + i)) with (length (log w) + S i)%nat
        by lia. apply Hneg. lia.
    + replace (length (log w)) with (length (log w) + 0)%nat by lia. apply Hneg. lia.
Qed.

(** The same loop, entered with more iterations to go than failures to
    come: the first reading that is not negative ends it, and is
    returned. *)
Lemma retry_loop_accepts (k f : nat) (d : Q) (c : Z) (w : world G) :
  sigint w = None ->
  (forall i, (i < k)%nat -> read_distance_at (env w) (length (log w) + i) < 0) ->
  0 <= read_distance_at (env w) (length (log w) + k) ->
  d < 0 -> (0 <= c)%Z -> (c + Z.of_nat k + 1 < 10)%Z -> (k < f)%nat ->
  let loop :=
    while_local f
      (fun dc => Qlt_bool (fst dc) 0.0 && (snd dc <? 10)%Z)
      (fun dc =>
         bind read_distance (fun distance =>
         if (snd dc + 1 >=? 10)%Z then
           bind (lift (lookup_name namespace "blink_underlighting"))
             (fun blink_underlighting =>
                bind (blink_underlighting (LightGroups [LEFT_LIGHTS; RIGHT_LIGHTS])
                        RED 10%nat)
                  (fun _ => raise (ValueError Ultrasonic.emsg)))
         else ret (distance, (snd dc + 1)%Z))) in
  fst (loop (d, c) w)
  = Return (read_distance_at (env w) (length (log w) + k), (c + Z.of_nat k + 1)%Z) /\
  history (snd (loop (d, c) w))
  = history w ++ readings_from (env w) (length (log w)) (S k) /\
  sigint (snd (loop (d, c) w)) = None /\ env (snd (loop (d, c) w)) = env w /\
  globals (snd (loop (d, c) w)) = globals w.
Proof.
  intros Hcalm Hneg Hok Hd Hc Hsum Hf loop. subst loop.
  revert f d c w Hcalm Hneg Hok Hd Hc Hsum Hf.
  induction k as [|k IH]; intros f d c w Hcalm Hneg Hok Hd Hc Hsum Hf;
    (destruct f as [|f]; [lia|]).
  - change (while_local (S f) ?cond ?body (d, c))
      with (if cond (d, c) then bind (body (d, c)) (while_local f cond body)
            else ret (d, c)).
    cbn [fst snd].
    rewrite (negative_reading d Hd). destruct (Z.ltb_spec c 10); [|lia]. cbn [andb].
    rewrite bind_run, bind_run, (read_distance_calm w Hcalm).
    destruct (Z.geb_spec (c + 1) 10); [lia|].
    cbn [ret]. cbv iota.
    rewrite Nat.add_0_r in Hok.
    assert (Hstop : forall (body : Q * Z -> M G (Q * Z)) (w' : world G),
               while_local f
                 (fun dc => Qlt_bool (fst dc) 0.0 && (snd dc <? 10)%Z) body
                 (read_distance_at (env w) (length (log w)), (c + 1)%Z) w'
               = (Return (read_distance_at (env w) (length (log w)), (c + 1)%Z), w')).
    { intros body w'. destruct f; simpl; rewrite (valid_reading_ok _ Hok); reflexivity. }
    rewrite Hstop. simpl.
    rewrite Nat.add_0_r, Z.add_0_r. repeat split; try assumption.
    unfold history, readings_from. simpl. now rewrite Nat.add_0_r.
  - change (while_local (S f) ?cond ?body (d, c))
      with (if cond (d, c) then bind (body (d, c)) (while_local f cond body)
            else ret (d, c)).
    cbn [fst snd].
    rewrite (negative_reading d Hd). destruct (Z.ltb_spec c 10); [|lia]. cbn [andb].
    rewrite bind_run, bind_run, (read_distance_calm w Hcalm).
    destruct (Z.geb_spec (c + 1) 10); [lia|].
    cbn [ret]. cbv iota.
    set (d' := read_distance_at (env w) (length (log w))).
    set (w1 := logged (ReadDistance d') w).
    assert (Hd' : d' < 0).
    { unfold d'. replace (length (log w)) with (length (log w) + 0)%nat by lia.
      apply Hneg. lia. }
    destruct (IH f d' (c + 1)%Z w1) as (Hret & Hhist & Hsig & Henv & Hglob);
      try assumption; try lia.
    + intros i Hi. simpl.
      replace (S (length (log w) + i)) with (length (log w) + S i)%nat by lia.
      apply Hneg. lia.
    + simpl. replace (S (length (log w) + k)) with (length (log w) + S k)%nat by lia.
      exact Hok.
    + split; [|split; [|split; [|split]]]; try assumption.
      * rewrite Hret. simpl.
        replace (S (length (log w) + k)) with (length (log w) + S k)%nat by lia.
        do 2 f_equal. lia.
      * rewrite Hhist, (readings_from_cons (env w) (length (log w)) (S k)).
        change (history w1) with (history w ++ [ReadDistance d']).
        rewrite <- app_assoc. reflexivity.
Qed.

End RetryBudget.

Section RetryBudgetReading.
Context {G : Type}.
Variable RED : colour.
Variable namespace : list (string * Ultrasonic.blinker G).
Hypothesis unbound :
  lookup_name namespace "blink_underlighting" = Raise (NameError "blink_underlighting").

Lemma valid_reading_tenth_attempt (w : world G) :
  sigint w = None ->
  (forall i, (i < 9)%nat -> read_distance_at (env w) (length (log w) + i) < 0) ->
  fst (Ultrasonic.valid_reading RED namespace w)
  = Raised (NameError "blink_underlighting").
Proof.
  intros Hcalm Hneg.
  assert (Hd : - 1.0 < 0) by reflexivity.
  exact (retry_loop_last_attempt RED namespace unbound 9 (- 1.0) 0 w Hcalm Hneg Hd
           ltac:(lia) ltac:(reflexivity)).
Qed.

Lemma valid_reading_accepts (k : nat) (w : world G) :
  sigint w = None -> (k < 9)%nat ->
  (forall i, (i < k)%nat -> read_distance_at (env w) (length (log w) + i) < 0) ->
  0 <= read_distance_at (env w) (length (log w) + k) ->
  exists w',
    Ultrasonic.valid_reading RED namespace w
    = (Return (read_distance_at (env w) (length (log w) + k), (Z.of_nat k + 1)%Z), w') /\
    history w' = history w ++ readings_from (env w) (length (log w)) (S k) /\
    sigint w' = None /\ env w' = env w /\ globals w' = globals w.
Proof.
  intros Hcalm Hk Hneg Hok.
  assert (Hd : - 1.0 < 0) by reflexivity.
  pose proof (retry_loop_accepts RED namespace k 10 (- 1.0) 0 w Hcalm Hneg Hok Hd
                ltac:(lia) ltac:(lia) ltac:(lia)) as H.
  cbv zeta in H.
  change (while_local 10 _ _ (- 1.0, 0%Z))
    with (Ultrasonic.valid_reading RED namespace) in H.
  destruct (Ultrasonic.valid_reading RED namespace w) as [r w'].
  simpl in H. destruct H as (Hr & Hrest). subst r.
  exists w'. split; [reflexivity | exact Hrest].
Qed.

End RetryBudgetReading.

(** X5.  The retry budget of the ultrasonic reading is nine attempts, not ten.
    For a module that does not bind [blink_underlighting] (none of the
    three files does) and with no Ctrl/C pending: after nine negative
    readings the reading fails whatever the tenth attempt returns; and when
    the first reading that is not negative comes on one of the first nine
    attempts, a reading of one sample returns it as the average, having
    called the ranger once per attempt and slept once. *)
Theorem retry_budget_is_nine_attempts :
  forall (G : Type) (RED : colour) (namespace : list (string * Ultrasonic.blinker G))
         (threshold : Q) (w : world G),
    lookup_name namespace "blink_underlighting"
    = Raise (NameError "blink_underlighting") ->
    sigint w = None ->
    (forall nr_readings,
       (forall i, (i < 9)%nat -> read_distance_at (env w) (length (log w) + i) < 0) ->
       fst (Ultrasonic.distance_reading_cm RED namespace threshold (S nr_readings) w)
       = Raised (NameError "blink_underlighting")) /\
    (forall k,
       (k < 9)%nat ->
       (forall i, (i < k)%nat -> read_distance_at (env w) (length (log w) + i) < 0) ->
       0 <= read_distance_at (env w) (length (log w) + k) ->
       exists average collision,
         fst (Ultrasonic.distance_reading_cm RED namespace threshold 1 w)
         = Return (average, collision) /\
         average == read_distance_at (env w) (length (log w) + k) /\
         history (snd (Ultrasonic.distance_reading_cm RED namespace threshold 1 w))
         = history w ++ readings_from (env w) (length (log w)) (S k) ++ [Sleep 0.01]).
Proof.
  intros G RED ns threshold w Hunbound Hcalm. split.
  - intros n Hneg.
    pose proof (valid_reading_tenth_attempt RED ns Hunbound w Hcalm Hneg) as Hfail.
    unfold Ultrasonic.distance_reading_cm. cbv zeta.
    cbn [for_range_local]. rewrite bind_run, bind_run, bind_run.
    destruct (Ultrasonic.valid_reading RED ns w) as [r w1].
    simpl in Hfail. subst r. reflexivity.
  - intros k Hk Hneg Hok.
    destruct (valid_reading_accepts RED ns k w Hcalm Hk Hneg Hok)
      as (w1 & Hrun & Hhist & Hsig & Henv & Hglob).
    set (d := read_distance_at (env w) (length (log w) + k)) in *.
    assert (Hsleep : sleep 0.01 w1 = (Return tt, logged (Sleep 0.01) w1)).
    { unfold sleep, call, sigint_due. rewrite Hsig. reflexivity. }
    unfold Ultrasonic.distance_reading_cm. cbv zeta.
    cbn [for_range_local]. rewrite bind_run, bind_run, bind_run, Hrun.
    cbv iota. rewrite bind_run, Hsleep.
    with_strategy opaque [Qred Qdiv Qplus Qlt_bool readings_from] cbn.
    eexists. eexists. split; [reflexivity|]. split.
    + rewrite !Qred_correct. unfold Qdiv. change (/ inject_Z 1) with 1.
      rewrite Qmult_1_r.
      assert (H0 : 0.0 == 0) by reflexivity. rewrite H0. apply Qplus_0_l.
    + unfold history in *. rewrite Hhist. now rewrite <- app_assoc.
Qed.

Lemma retry_budget_is_nine_attempts_witness :
  fst (V100.distance_reading_cm (fresh recovering_ranger None v100_globals))
  = Raised (NameError "blink_underlighting") /\
  exists average collision,
    fst (Ultrasonic.distance_reading_cm V100.RED V100.namespace
           V100.COLLISION_THRESHOLD_CM 1 (fresh (ranger_failing_first 8) None v100_globals))
    = Return (average, collision) /\
    average == 25.
Proof.
  split.
  - apply (proj1 (retry_budget_is_nine_attempts V100.globals V100.RED V100.namespace
                    V100.COLLISION_THRESHOLD_CM (fresh recovering_ranger None v100_globals)
                    eq_refl eq_refl) 9%nat).
    intros i Hi. simpl.
    do 9 (destruct i as [|i]; [reflexivity|]). lia.
  - destruct (proj2 (retry_budget_is_nine_attempts V100.globals V100.RED V100.namespace
                       V100.COLLISION_THRESHOLD_CM
                       (fresh (ranger_failing_first 8) None v100_globals)
                       eq_refl eq_refl) 8%nat) as (avg & flag & Hret & Havg & _).
    + lia.
    + intros i Hi. simpl. do 8 (destruct i as [|i]; [reflexivity|]). lia.
    + simpl. discriminate.
    + exists avg, flag. split; [exact Hret | exact Havg].
Defined.

(* ===================================================================== *)
(** * Exceptions the main lines do not catch                               *)
(* ===================================================================== *)

Lemma motor_command_skip (evs l : list event) :
  Forall motor_free evs -> motor_command (evs ++ l) = motor_command l.
Proof.
  induction 1 as [|e evs He _ IH]; [reflexivity|].
  destruct e; simpl in *; try exact IH. destruct He.
Qed.

Lemma motor_command_after {G} (w w' : world G) (evs : list event) :
  history w' = history w ++ evs -> Forall motor_free evs ->
  motor_command (log w') = motor_command (log w).
Proof.
  intros Hhist Hfree.
  assert (Hlog : log w' = rev evs ++ log w).
  { rewrite <- (rev_involutive (log w')). fold (history w'). rewrite Hhist.
    rewrite rev_app_distr. unfold history. now rewrite rev_involutive. }
  rewrite Hlog. apply motor_command_skip. apply Forall_rev. exact Hfree.
Qed.

Lemma set_motor_speeds_calm {G} (l r : Q) (w : world G) :
  sigint w = None ->
  set_motor_speeds l r w = (Return tt, logged (SetMotorSpeeds l r) w).
Proof. intros Hs. unfold set_motor_speeds, call, sigint_due. now rewrite Hs. Qed.

Lemma v060_reading_fails (w : world V060.globals) :
  sigint w = None -> (forall t, read_distance_at (env w) t < 0) ->
  fst (V060.take_reading w) = Raised (NameError "blink_underlighting") /\
  motor_command (log (snd (V060.take_reading w))) = motor_command (log w).
Proof.
  intros Hcalm Hneg.
  destruct (distance_reading_cm_exhausts V060.RED V060.namespace v060_unbound
              V060.COLLISION_THRESHOLD_CM 9 w Hcalm Hneg) as (Hfail & _).
  destruct (distance_reading_cm_calls (D := appends_discipline motor_free)
              V060.RED V060.namespace V060.COLLISION_THRESHOLD_CM
              Ultrasonic.MAX_NUM_READINGS v060_unbound
              (motor_only_motor_free motor_free (fun e He => He)) w)
    as (evs & Hhist & Hfree).
  unfold V060.take_reading. rewrite bind_run.
  change (Ultrasonic.distance_reading_cm V060.RED V060.namespace
            V060.COLLISION_THRESHOLD_CM 10)
    with V060.distance_reading_cm in Hfail.
  change (Ultrasonic.distance_reading_cm V060.RED V060.namespace
            V060.COLLISION_THRESHOLD_CM Ultrasonic.MAX_NUM_READINGS)
    with V060.distance_reading_cm in Hhist.
  destruct (V060.distance_reading_cm w) as [r w1]. simpl in Hfail, Hhist. subst r.
  split; [reflexivity|]. simpl. exact (motor_command_after w w1 evs Hhist Hfree).
Qed.

Lemma v100_reading_fails (w : world V100.globals) :
  sigint w = None -> (forall t, read_distance_at (env w) t < 0) ->
  fst (V100.take_reading w) = Raised (NameError "blink_underlighting") /\
  motor_command (log (snd (V100.take_reading w))) = motor_command (log w).
Proof.
  intros Hcalm Hneg.
  destruct (distance_reading_cm_exhausts V100.RED V100.namespace v100_unbound
              V100.COLLISION_THRESHOLD_CM 9 w Hcalm Hneg) as (Hfail & _).
  destruct (distance_reading_cm_calls (D := appends_discipline motor_free)
              V100.RED V100.namespace V100.COLLISION_THRESHOLD_CM
              Ultrasonic.MAX_NUM_READINGS v100_unbound
              (motor_only_motor_free motor_free (fun e He => He)) w)
    as (evs & Hhist & Hfree).
  unfold V100.take_reading. rewrite bind_run.
  change (Ultrasonic.distance_reading_cm V100.RED V100.namespace
            V100.COLLISION_THRESHOLD_CM 10)
    with V100.distance_reading_cm in Hfail.
  change (Ultrasonic.distance_reading_cm V100.RED V100.namespace
            V100.COLLISION_THRESHOLD_CM Ultrasonic.MAX_NUM_READINGS)
    with V100.distance_reading_cm in Hhist.
  destruct (V100.distance_reading_cm w) as [r w1]. simpl in Hfail, Hhist. subst r.
  split; [reflexivity|]. simpl. exact (motor_command_after w w1 evs Hhist Hfree).
Qed.

(** X6.  A ranger that never gives a valid distance ends [Trilobot_v060.py] and
    [Trilobot.py] in an exception their [try] does not catch, with the robot
    still driving forward: the last motor command of the run is the forward
    one ([Trilobot.py]: when the run starts with no collision flagged, as
    the script does). *)
Theorem ranger_failure_leaves_motors_running :
  (forall (fuel : nat) (w : world V060.globals),
     (1 <= fuel)%nat -> sigint w = None ->
     (forall t, read_distance_at (env w) t < 0) ->
     fst (V060.main_line fuel w) = Raised (NameError "blink_underlighting") /\
     motor_command (log (snd (V060.main_line fuel w)))
     = Some (V060.NORMAL_LEFT_SPEED, V060.NORMAL_RIGHT_SPEED)) /\
  (forall (fuel : nat) (w : world V100.globals),
     (1 <= fuel)%nat -> sigint w = None -> V100.collision (globals w) = false ->
     (forall t, read_distance_at (env w) t < 0) ->
     fst (V100.main_line fuel w) = Raised (NameError "blink_underlighting") /\
     motor_command (log (snd (V100.main_line fuel w)))
     = Some (V100.START_LEFT_SPEED, V100.START_RIGHT_SPEED)).
Proof.
  split.
  - intros fuel w Hfuel Hcalm Hneg. destruct fuel as [|f]; [lia|].
    set (w1 := logged (SetMotorSpeeds V060.NORMAL_LEFT_SPEED V060.NORMAL_RIGHT_SPEED) w).
    destruct (v060_reading_fails w1 Hcalm Hneg) as (Hfail & Hmotor).
    assert (Hrun : V060.main_line (S f) w
                   = (Raised (NameError "blink_underlighting"),
                      snd (V060.take_reading w1))).
    { unfold V060.main_line, try_except_KeyboardInterrupt, V060.control_loop.
      cbn [while]. rewrite bind_run. cbn [ret]. cbv iota.
      rewrite bind_run. unfold V060.cycle at 1. rewrite bind_run.
      unfold V060.forward at 1. rewrite bind_run.
      rewrite (set_motor_speeds_calm _ _ w Hcalm). fold w1. cbv iota.
      rewrite bind_run.
      destruct (V060.take_reading w1) as [r w2]. simpl in Hfail. subst r.
      reflexivity. }
    rewrite Hrun. split; [reflexivity | exact Hmotor].
  - intros fuel w Hfuel Hcalm Hcol Hneg. destruct fuel as [|f]; [lia|].
    set (w1 := logged (SetMotorSpeeds V100.START_LEFT_SPEED V100.START_RIGHT_SPEED) w).
    destruct (v100_reading_fails w1 Hcalm Hneg) as (Hfail & Hmotor).
    assert (Hrun : V100.main_line (S f) w
                   = (Raised (NameError "blink_underlighting"),
                      snd (V100.take_reading w1))).
    { unfold V100.main_line, try_except_KeyboardInterrupt, V100.control_loop.
      cbn [while]. rewrite bind_run. cbn [ret]. cbv iota.
      rewrite bind_run. unfold V100.cycle at 1. rewrite bind_run.
      rewrite (set_motor_speeds_calm _ _ w Hcalm). fold w1. cbv iota.
      rewrite bind_run. cbn [while]. rewrite bind_run, bind_run.
      change (read_globals w1) with (Return (globals w1), w1). cbv iota.
      change (V100.collision (globals w1)) with (V100.collision (globals w)).
      rewrite Hcol. cbn [negb ret]. cbv iota. rewrite bind_run.
      destruct (V100.take_reading w1) as [r w2]. simpl in Hfail. subst r.
      reflexivity. }
    rewrite Hrun. split; [reflexivity | exact Hmotor].
Qed.

Lemma ranger_failure_leaves_motors_running_witness :
  fst (V100.main_line 1 v100_ranger_failing) = Raised (NameError "blink_underlighting") /\
  motor_command (log (snd (V100.main_line 1 v100_ranger_failing)))
  = Some (V100.START_LEFT_SPEED, V100.START_RIGHT_SPEED).
Proof.
  apply (proj2 ranger_failure_leaves_motors_running 1%nat v100_ranger_failing).
  - lia.
  - reflexivity.
  - reflexivity.
  - intros t. reflexivity.
Defined.

(* ===================================================================== *)
(** * blink_underlights                                                    *)
(* ===================================================================== *)

Section Blink.
Context {G : Type}.
Variables (group : lights) (color : colour) (rate : Q).

Lemma blink_body_cases (w : world G) :
  let body := bind (set_underlights group color) (fun _ =>
              bind (sleep rate) (fun _ => clear_underlights group)) in
  (sigint_due w = false /\
   sigint_due (logged (SetUnderlights group color) w) = false /\
   sigint_due (logged (Sleep rate) (logged (SetUnderlights group color) w)) = false /\
   body w = (Return tt, log_all (blink_cycle group color rate) w)) \/
  (fst (body w) = KeyboardInterrupt /\ sigint w <> None).
Proof.
  intros body. subst body.
  assert (Hpending : forall w' : world G,
             sigint w' = sigint w -> sigint_due w' = true -> sigint w <> None).
  { intros w' Hsame Hdue. unfold sigint_due in Hdue. rewrite Hsame in Hdue.
    destruct (sigint w); discriminate. }
  unfold bind, set_underlights, sleep, clear_underlights, call.
  destruct (sigint_due w) eqn:D1.
  { right. split; [reflexivity | exact (Hpending w eq_refl D1)]. }
  destruct (sigint_due (logged (SetUnderlights group color) w)) eqn:D2.
  { right. split; [reflexivity | exact (Hpending (logged _ w) eq_refl D2)]. }
  destruct (sigint_due (logged (Sleep rate) (logged (SetUnderlights group color) w)))
    eqn:D3.
  { right. split; [reflexivity | exact (Hpending (logged _ (logged _ w)) eq_refl D3)]. }
  left. repeat split; reflexivity.
Qed.

Lemma blink_underlights_returned (n : nat) (w : world G) :
  fst (blink_underlights group color n rate w) = Return tt ->
  blink_underlights group color n rate w
  = (Return tt, log_all (concat (repeat (blink_cycle group color rate) n)) w).
Proof.
  revert w. induction n as [|n IH]; intros w.
  - intros _. unfold blink_underlights. simpl. unfold ret, log_all. simpl.
    destruct w; reflexivity.
  - unfold blink_underlights in *. cbn [for_range]. rewrite bind_run.
    destruct (blink_body_cases w) as [(_ & _ & _ & Hbody) | (Hint & _)].
    + cbv zeta in Hbody. rewrite Hbody. intros Hret.
      rewrite (IH _ Hret). rewrite log_all_log_all. reflexivity.
    + cbv zeta in Hint.
      destruct (bind (set_underlights group color)
                  (fun _ => bind (sleep rate) (fun _ => clear_underlights group)) w)
        as [r w1].
      simpl in Hint. subst r. discriminate.
Qed.

Lemma blink_underlights_calm (n : nat) (w : world G) :
  sigint w = None -> fst (blink_underlights group color n rate w) = Return tt.
Proof.
  revert w. induction n as [|n IH]; intros w Hcalm; [reflexivity|].
  unfold blink_underlights in *. cbn [for_range]. rewrite bind_run.
  destruct (blink_body_cases w) as [(_ & _ & _ & Hbody) | (_ & Hpending)];
    [|contradiction].
  cbv zeta in Hbody. rewrite Hbody. apply IH. exact Hcalm.
Qed.

End Blink.

(** X7.  [blink_underlights] returns whenever no Ctrl/C is pending, and whenever
    it returns it has made exactly [nr_cycles] rounds of: light the group,
    sleep for the blink rate, clear the group; so the group it lit is left
    cleared, and with [nr_cycles = 0] nothing is called. *)
Theorem blink_underlights_leaves_lights_cleared :
  forall (G : Type) (group : lights) (color : colour) (nr_cycles : nat)
         (blink_rate_sec : Q) (w : world G),
    (sigint w = None ->
     fst (blink_underlights group color nr_cycles blink_rate_sec w) = Return tt) /\
    (fst (blink_underlights group color nr_cycles blink_rate_sec w) = Return tt ->
     history (snd (blink_underlights group color nr_cycles blink_rate_sec w))
     = history w ++ concat (repeat (blink_cycle group color blink_rate_sec) nr_cycles) /\
     globals (snd (blink_underlights group color nr_cycles blink_rate_sec w))
     = globals w).
Proof.
  intros G group color n rate w. split.
  - apply blink_underlights_calm.
  - intros Hret. rewrite (blink_underlights_returned group color rate n w Hret).
    split; [apply history_log_all | reflexivity].
Qed.

Lemma blink_underlights_leaves_lights_cleared_witness :
  history (snd (blink_underlights (Lights REAR_LIGHTS) V072.YELLOW 2
                  DEFAULT_BLINK_RATE_SEC v072_facing_obstacle))
  = history v072_facing_obstacle
    ++ concat (repeat (blink_cycle (Lights REAR_LIGHTS) V072.YELLOW
                         DEFAULT_BLINK_RATE_SEC) 2).
Proof.
  apply (proj2 (blink_underlights_leaves_lights_cleared V072.globals
                  (Lights REAR_LIGHTS) V072.YELLOW 2 DEFAULT_BLINK_RATE_SEC
                  v072_facing_obstacle)).
  reflexivity.
Defined.

(* ===================================================================== *)
(** * np_extract and the averages beyond the zones                         *)
(* ===================================================================== *)

Lemma sum_bounds (lo hi : Z) (l : list Z) :
  (forall x, In x l -> (lo <= x <= hi)%Z) ->
  (lo * Z.of_nat (length l) <= fold_right Z.add 0%Z l <= hi * Z.of_nat (length l))%Z.
Proof.
  induction l as [|y l IH]; intros H.
  - simpl. lia.
  - cbn [fold_right length].
    specialize (IH (fun x Hx => H x (or_intror Hx))).
    pose proof (H y (or_introl eq_refl)). lia.
Qed.

Lemma quot_between (lo hi total count : Z) :
  (0 < count)%Z -> (lo * count <= total <= hi * count)%Z ->
  (lo <= Z.quot total count <= hi)%Z.
Proof.
  intros Hc Hb.
  pose proof (Z.quot_rem' total count) as Hqr.
  pose proof (Z.rem_bound_abs total count ltac:(lia)) as Hr.
  destruct (Z_le_gt_dec 0 total) as [Ht|Ht].
  - pose proof (Z.rem_nonneg total count ltac:(lia) Ht). split; nia.
  - pose proof (Z.rem_nonpos total count ltac:(lia) ltac:(lia)). split; nia.
Qed.

Lemma int_np_average_bounds (m : list (list Z)) (lo hi : Z) :
  concat m <> [] ->
  (forall x, In x (concat m) -> (lo <= x <= hi)%Z) ->
  (0 <= lo)%Z -> (hi * Z.of_nat (length (concat m)) < 2 ^ 53)%Z ->
  exists a, V072.int_np_average m = Ok a /\ (lo <= a <= hi)%Z.
Proof.
  intros Hne Hall Hlo Hhi.
  pose proof (sum_bounds lo hi (concat m) Hall) as Hsum.
  rewrite int_np_average_quot;
    [| assumption | intros x Hx; specialize (Hall x Hx); lia | lia].
  eexists. split; [reflexivity|].
  apply quot_between.
  - destruct (concat m); [congruence | simpl; lia].
  - exact Hsum.
Qed.

(** X8.  For a sample set (rows of one length) of unsigned cells that holds
    a sample, the truncated average [int(np.average(_mm))] lies between any
    two bounds
    [0 <= lo <= hi] that enclose every cell, provided [hi] times the number
    of cells is below 2^53 (no addition of the mean then rounds). *)
Theorem int_np_average_between_bounds :
  forall (nr nc : nat) (m : list (list Z)) (lo hi : Z),
    rectangular nr nc m ->
    concat m <> [] ->
    (forall x, In x (concat m) -> (lo <= x <= hi)%Z) ->
    (0 <= lo)%Z -> (hi * Z.of_nat (length (concat m)) < 2 ^ 53)%Z ->
    exists a, V072.int_np_average m = Ok a /\ (lo <= a <= hi)%Z.
Proof. intros nr nc m lo hi _. apply int_np_average_bounds. Qed.

Lemma int_np_average_between_bounds_witness :
  exists a, V072.int_np_average [[120; 180]; [150; 151]]%Z = Ok a /\ (120 <= a <= 180)%Z.
Proof.
  apply (int_np_average_between_bounds 2 2 [[120; 180]; [150; 151]]%Z 120 180).
  - split; [reflexivity | repeat constructor].
  - discriminate.
  - simpl. intros x H. repeat (destruct H as [<- | H]; [lia|]). destruct H.
  - lia.
  - vm_compute. reflexivity.
Defined.

Lemma py_index_cases {A} (l : list A) (i : Z) :
  py_index l i = Raise IndexError \/ exists x, py_index l i = Ok x.
Proof.
  unfold py_index. cbv zeta.
  match goal with
  | |- context [if ?b then Raise IndexError else _] => destruct b
  end; [left; reflexivity|].
  destruct (nth_error l _); [right; eauto | left; reflexivity].
Qed.

Lemma py_index_beyond {A} (l : list A) (i : Z) :
  (Z.of_nat (length l) <= i)%Z -> py_index l i = Raise IndexError.
Proof.
  intros Hi. unfold py_index.
  destruct (Z.ltb_spec i 0); [lia|]. destruct (Z.ltb_spec i 0); [lia|].
  destruct (nth_error l (Z.to_nat i)) eqn:E; [|reflexivity].
  assert (nth_error l (Z.to_nat i) <> None) by congruence.
  apply nth_error_Some in H1. lia.
Qed.

Lemma for_append_IndexError {A B} (body : A -> result B) (l : list A) :
  (forall x, In x l -> body x = Raise IndexError \/ exists y, body x = Ok y) ->
  (exists x, In x l /\ body x = Raise IndexError) ->
  for_append body l = Raise IndexError.
Proof.
  induction l as [|a l IH]; intros Hall (x & Hin & Hx); [destruct Hin|].
  simpl. destruct (Hall a (or_introl eq_refl)) as [Ha | (y & Ha)]; rewrite Ha;
    [reflexivity|].
  simpl. rewrite IH; [reflexivity | intros; apply Hall; now right |].
  destruct Hin as [<- | Hin]; [congruence|]. exists x. auto.
Qed.

Lemma for_append_cases {A B} (body : A -> result B) (l : list A) :
  (forall x, In x l -> body x = Raise IndexError \/ exists y, body x = Ok y) ->
  for_append body l = Raise IndexError \/ exists ys, for_append body l = Ok ys.
Proof.
  induction l as [|a l IH]; intros Hall; [right; exists []; reflexivity|].
  simpl. destruct (Hall a (or_introl eq_refl)) as [Ha | (y & Ha)]; rewrite Ha;
    [left; reflexivity|].
  simpl. destruct IH as [Hl | (ys & Hl)]; [intros; apply Hall; now right | |];
    rewrite Hl; [left; reflexivity | right; eexists; reflexivity].
Qed.

(** X9.  On an 8x8 frame, bounds with start <= end on both axes and an end
    coordinate of exactly 8 pass the validity test of [np_extract] and end
    in the [IndexError] of the subscription, not in its own [ValueError]. *)
Theorem np_extract_end_of_8_raises_IndexError :
  forall (A : Type) (frame : ndarray A) (start_row start_col end_row end_col : Z),
    V072.is_8x8 frame ->
    (0 <= start_row <= end_row)%Z -> (0 <= start_col <= end_col)%Z ->
    (end_row <= 8)%Z -> (end_col <= 8)%Z -> (end_row = 8 \/ end_col = 8)%Z ->
    V072.np_extract frame start_row start_col end_row end_col = Raise IndexError.
Proof.
  intros A frame sr sc er ec Hf Hr Hc Her Hec H8.
  rewrite np_extract_valid by (assumption || lia).
  assert (Hcell : forall r c,
             (let? row := py_index frame r in py_index row c)%result = Raise IndexError \/
             exists v, (let? row := py_index frame r in py_index row c)%result = Ok v).
  { intros r c. destruct (py_index_cases frame r) as [Hrow | (row & Hrow)]; rewrite Hrow;
      [left; reflexivity | apply py_index_cases]. }
  apply for_append_IndexError.
  - intros r _. apply for_append_cases. intros c _. apply Hcell.
  - destruct (Z.eq_dec er 8) as [-> | Hner].
    + exists 8%Z. split; [apply py_range_In; lia|].
      apply for_append_IndexError; [intros c _; apply Hcell|].
      exists sc. split; [apply py_range_In; lia|].
      rewrite py_index_beyond; [reflexivity|]. destruct Hf as [-> _]. simpl. lia.
    + assert (ec = 8)%Z by lia. subst ec.
      exists sr. split; [apply py_range_In; lia|].
      apply for_append_IndexError; [intros c _; apply Hcell|].
      exists 8%Z. split; [apply py_range_In; lia|].
      destruct (frame_row sr Hf ltac:(lia)) as (row & Hrow & Hlen).
      rewrite (py_index_nth_error (l:=frame) (x:=row)) by (lia || assumption). simpl.
      apply py_index_beyond. rewrite Hlen. simpl. lia.
Qed.

Lemma np_extract_end_of_8_raises_IndexError_witness :
  V072.np_extract ramp_frame 0 6 7 8 = Raise IndexError.
Proof.
  apply (np_extract_end_of_8_raises_IndexError Z ramp_frame 0 6 7 8 ramp_frame_8x8); lia.
Defined.

Lemma py_range_cons (a b : Z) : (a < b)%Z -> py_range a b = a :: py_range (a + 1) b.
Proof.
  intros H. unfold py_range.
  replace (Z.to_nat (b - a)) with (S (Z.to_nat (b - (a + 1)))) by lia.
  cbn [List.seq map]. f_equal; [lia|].
  rewrite <- seq_shift, map_map. apply map_ext. intros k. lia.
Qed.

Lemma for_append_ext {A B} (f g : A -> result B) (l : list A) :
  (forall x, In x l -> f x = g x) -> for_append f l = for_append g l.
Proof.
  induction l as [|a l IH]; intros H; [reflexivity|].
  simpl. rewrite (H a (or_introl eq_refl)), IH; [reflexivity|].
  intros; apply H; now right.
Qed.

Lemma skipn_nth_error_cons {A} (l : list A) (n : nat) (x : A) :
  nth_error l n = Some x -> skipn n l = x :: skipn (S n) l.
Proof.
  revert l. induction n as [|n IH]; intros [|y l] H; try discriminate.
  - injection H as ->. reflexivity.
  - simpl in H. simpl. rewrite (IH l H). reflexivity.
Qed.

(** Visiting [l[a]], ..., [l[b - 1]] by subscription is visiting the slice. *)
Lemma for_append_slice {A B} (g : A -> result B) (l : list A) (n : nat) (a : Z) :
  (0 <= a)%Z -> (a + Z.of_nat n <= Z.of_nat (length l))%Z ->
  for_append (fun i => (let? x := py_index l i in g x)%result) (py_range a (a + Z.of_nat n))
  = for_append g (firstn n (skipn (Z.to_nat a) l)).
Proof.
  revert a. induction n as [|n IH]; intros a Ha Hb.
  - rewrite py_range_empty by lia. reflexivity.
  - rewrite py_range_cons by lia.
    destruct (nth_error l (Z.to_nat a)) as [x|] eqn:E;
      [|apply nth_error_None in E; lia].
    rewrite (skipn_nth_error_cons l _ x E). cbn [firstn for_append].
    rewrite (py_index_nth_error Ha E). cbn [rbind].
    replace (a + Z.of_nat (S n))%Z with (a + 1 + Z.of_nat n)%Z by lia.
    rewrite IH by lia.
    replace (Z.to_nat (a + 1)) with (S (Z.to_nat a)) by lia. reflexivity.
Qed.

Lemma In_firstn {A} (n : nat) (l : list A) (x : A) : In x (firstn n l) -> In x l.
Proof.
  revert l. induction n as [|n IH]; intros [|y l]; simpl; try tauto.
  intros [-> | H]; [now left | right; now apply IH].
Qed.

Lemma In_skipn {A} (n : nat) (l : list A) (x : A) : In x (skipn n l) -> In x l.
Proof.
  revert l. induction n as [|n IH]; intros [|y l]; simpl; try tauto.
  intros H. right. now apply IH.
Qed.

Lemma for_append_Ok {A} (l : list A) : for_append (fun x => Ok x) l = Ok l.
Proof. induction l as [|a l IH]; [reflexivity|]. simpl. now rewrite IH. Qed.

Lemma for_append_map_Ok {A B} (f : A -> B) (l : list A) :
  for_append (fun x => Ok (f x)) l = Ok (map f l).
Proof. induction l as [|a l IH]; [reflexivity|]. simpl. now rewrite IH. Qed.

Lemma np_extract_slice {A} (nr_rows nr_cols : nat) (arr : ndarray A)
    (start_row start_col end_row end_col : Z) :
  rectangular nr_rows nr_cols arr ->
  (0 <= start_row <= end_row)%Z -> (end_row < Z.of_nat nr_rows)%Z ->
  (0 <= start_col <= end_col)%Z -> (end_col < Z.of_nat nr_cols)%Z ->
  V072.np_extract arr start_row start_col end_row end_col
  = Ok (map (slice start_col end_col) (slice start_row end_row arr)).
Proof.
  intros [Hlen Hrows] Hr Her Hc Hec.
  rename nr_rows into nr, nr_cols into nc, start_row into sr, start_col into sc,
    end_row into er, end_col into ec.
  unfold V072.np_extract.
  destruct arr as [|row0 rest] eqn:Earr; [simpl in Hlen; lia|]. rewrite <- Earr in *.
  assert (H0 : py_index arr 0 = Ok row0) by (rewrite Earr; reflexivity).
  rewrite H0. cbn [rbind].
  assert (Hlen0 : length row0 = nc).
  { rewrite Forall_forall in Hrows. apply Hrows. rewrite Earr. now left. }
  rewrite Hlen, Hlen0.
  replace (sr >=? 0)%Z with true by (symmetry; apply Z.geb_le; lia).
  replace (sc >=? 0)%Z with true by (symmetry; apply Z.geb_le; lia).
  replace (er >=? 0)%Z with true by (symmetry; apply Z.geb_le; lia).
  replace (ec >=? 0)%Z with true by (symmetry; apply Z.geb_le; lia).
  replace (sr <=? Z.of_nat nr)%Z with true by (symmetry; apply Z.leb_le; lia).
  replace (sc <=? Z.of_nat nc)%Z with true by (symmetry; apply Z.leb_le; lia).
  replace (er <=? Z.of_nat nr)%Z with true by (symmetry; apply Z.leb_le; lia).
  replace (ec <=? Z.of_nat nc)%Z with true by (symmetry; apply Z.leb_le; lia).
  cbn [andb].
  rewrite (for_append_ext _
             (fun r => (let? row := py_index arr r in
                        for_append (fun c => py_index row c)
                          (py_range sc (ec + 1)))%result)).
  2:{ intros r Hin. apply py_range_In in Hin.
      destruct (nth_error arr (Z.to_nat r)) as [row|] eqn:E;
        [|apply nth_error_None in E; lia].
      assert (Hr0 : (0 <= r)%Z) by lia.
      rewrite (py_index_nth_error Hr0 E). cbn [rbind].
      apply for_append_ext. intros c _. reflexivity. }
  replace (er + 1)%Z with (sr + Z.of_nat (Z.to_nat (er - sr + 1)))%Z by lia.
  rewrite for_append_slice by lia.
  unfold slice at 2.
  rewrite (for_append_ext _ (fun row => Ok (slice sc ec row))).
  2:{ intros row Hin.
      assert (Hrow : length row = nc).
      { rewrite Forall_forall in Hrows. apply Hrows.
        exact (In_skipn _ _ _ (In_firstn _ _ _ Hin)). }
      replace (ec + 1)%Z with (sc + Z.of_nat (Z.to_nat (ec - sc + 1)))%Z by lia.
      rewrite (for_append_ext _ (fun c => (let? x := py_index row c in Ok x)%result))
        by (intros c _; now destruct (py_index row c)).
      rewrite for_append_slice by lia.
      now rewrite for_append_Ok. }
  apply for_append_map_Ok.
Qed.

(** X10.  On an array of [nr_rows] rows of [nr_cols] cells, with at least one
    row, bounds with [0 <= start <= end] below the dimension on both axes
    make [np_extract] return the slice [arr[start_row : end_row + 1,
    start_col : end_col + 1]]; in particular the bounds of the whole array
    give the array back. *)
Theorem np_extract_is_the_slice :
  forall (A : Type) (nr_rows nr_cols : nat) (arr : ndarray A)
         (start_row start_col end_row end_col : Z),
    rectangular nr_rows nr_cols arr ->
    (0 <= start_row <= end_row)%Z -> (end_row < Z.of_nat nr_rows)%Z ->
    (0 <= start_col <= end_col)%Z -> (end_col < Z.of_nat nr_cols)%Z ->
    V072.np_extract arr start_row start_col end_row end_col
    = Ok (map (slice start_col end_col) (slice start_row end_row arr)) /\
    (start_row = 0 -> start_col = 0 ->
     end_row = Z.of_nat nr_rows - 1 -> end_col = Z.of_nat nr_cols - 1 ->
     V072.np_extract arr start_row start_col end_row end_col = Ok arr)%Z.
Proof.
  intros A nr nc arr sr sc er ec Hrect Hr Her Hc Hec.
  pose proof (np_extract_slice nr nc arr sr sc er ec Hrect Hr Her Hc Hec) as Hextract.
  destruct Hrect as [Hlen Hrows].
  split; [exact Hextract|].
  intros -> -> -> ->. rewrite Hextract. f_equal.
  unfold slice. simpl skipn.
  replace (Z.to_nat (Z.of_nat nr - 1 - 0 + 1)) with (length arr) by lia.
  rewrite firstn_all.
  rewrite <- (map_id arr) at 2. apply map_ext_in. intros row Hin.
  rewrite Forall_forall in Hrows. specialize (Hrows row Hin).
  replace (Z.to_nat (Z.of_nat nc - 1 - 0 + 1)) with (length row) by lia.
  apply firstn_all.
Qed.

Lemma np_extract_is_the_slice_witness :
  V072.np_extract ramp_frame 0 0 7 7 = Ok ramp_frame.
Proof.
  apply (proj2 (np_extract_is_the_slice Z 8 8 ramp_frame 0 0 7 7 ramp_frame_8x8
                  ltac:(lia) ltac:(simpl; lia) ltac:(lia) ltac:(simpl; lia)));
    reflexivity.
Defined.

(* ===================================================================== *)
(** * The frame source and the zone averages                               *)
(* ===================================================================== *)

Lemma rows_of_app {A} (r1 r2 c : nat) (l1 l2 : list A) :
  length l1 = (r1 * c)%nat ->
  V072.rows_of (r1 + r2) c (l1 ++ l2) = V072.rows_of r1 c l1 ++ V072.rows_of r2 c l2.
Proof.
  revert l1. induction r1 as [|r1 IH]; intros l1 Hlen.
  - destruct l1; [reflexivity | discriminate].
  - cbn [Nat.add V072.rows_of app].
    assert (Hc : (c <= length l1)%nat) by (simpl in Hlen; lia).
    rewrite firstn_app, skipn_app.
    replace (c - length l1)%nat with 0%nat by lia. cbn [firstn skipn].
    rewrite app_nil_r. f_equal. apply IH.
    rewrite length_skipn. simpl in Hlen. lia.
Qed.

Lemma rows_of_one {A} (c : nat) (l : list A) :
  length l = c -> V072.rows_of 1 c l = [l].
Proof. intros <-. simpl. now rewrite firstn_all. Qed.

Lemma rows_of_rev {A} (r c : nat) (l : list A) :
  length l = (r * c)%nat ->
  V072.fliplr (V072.flipud (V072.rows_of r c l)) = V072.rows_of r c (rev l).
Proof.
  unfold V072.fliplr, V072.flipud.
  revert l. induction r as [|r IH]; intros l Hlen.
  - reflexivity.
  - change (V072.rows_of (S r) c l)
      with (firstn c l :: V072.rows_of r c (skipn c l)).
    change (rev (firstn c l :: V072.rows_of r c (skipn c l)))
      with (rev (V072.rows_of r c (skipn c l)) ++ [firstn c l]).
    rewrite map_app. cbn [map].
    assert (Hc : (c <= length l)%nat) by (simpl in Hlen; lia).
    rewrite IH by (rewrite length_skipn; simpl in Hlen; lia).
    replace (rev l) with (rev (skipn c l) ++ rev (firstn c l))
      by (now rewrite <- rev_app_distr, firstn_skipn).
    replace (S r) with (r + 1)%nat by lia.
    rewrite rows_of_app
      by (rewrite length_rev, length_skipn; simpl in Hlen; lia).
    f_equal. symmetry. apply rows_of_one.
    rewrite length_rev, length_firstn. lia.
Qed.

Lemma rows_of_rectangular {A} (r c : nat) (l : list A) :
  length l = (r * c)%nat -> rectangular r c (V072.rows_of r c l).
Proof.
  revert l. induction r as [|r IH]; intros l Hlen.
  - split; [reflexivity | constructor].
  - assert (Hc : (c <= length l)%nat) by (simpl in Hlen; lia).
    destruct (IH (skipn c l)) as [Hl Hr];
      [rewrite length_skipn; simpl in Hlen; lia|].
    split; [simpl; now rewrite Hl|].
    constructor; [rewrite length_firstn; lia | exact Hr].
Qed.

Lemma concat_rows_of {A} (r c : nat) (l : list A) :
  length l = (r * c)%nat -> concat (V072.rows_of r c l) = l.
Proof.
  revert l. induction r as [|r IH]; intros l Hlen.
  - destruct l; [reflexivity | discriminate].
  - cbn [V072.rows_of concat].
    rewrite IH by (rewrite length_skipn; simpl in Hlen; lia).
    apply firstn_skipn.
Qed.

Lemma sleep_calm {G} (sec : Q) (w : world G) :
  sigint w = None -> sleep sec w = (Return tt, log_all [Sleep sec] w).
Proof. destruct w as [E lg sg gl]; simpl; intros ->. reflexivity. Qed.

(** The busy wait of [np_distances_vl53l5cx_mm]: [k] polls that find the
    sensor not ready, then the one that finds it ready. *)
Lemma data_ready_wait (k fuel : nat) (w : world V072.globals) :
  sigint w = None -> (k <= fuel)%nat ->
  (forall i, (i < k)%nat -> data_ready_at (env w) (length (log w) + i) = false) ->
  data_ready_at (env w) (length (log w) + k) = true ->
  while fuel (bind data_ready (fun ready => ret (negb ready))) (ret tt) w
  = (Return tt, log_all (repeat (DataReady false) k ++ [DataReady true]) w).
Proof.
  revert fuel w. induction k as [|k IH]; intros fuel w Hcalm Hfuel Hbusy Hready.
  - rewrite Nat.add_0_r in Hready.
    destruct w as [E lg sg gl]; simpl in *; subst sg.
    destruct fuel; simpl; unfold bind, data_ready, call; simpl; rewrite Hready;
      reflexivity.
  - destruct fuel as [|fuel]; [lia|].
    assert (H0 : data_ready_at (env w) (length (log w)) = false).
    { replace (length (log w)) with (length (log w) + 0)%nat by lia. apply Hbusy. lia. }
    specialize (IH fuel (logged (DataReady false) w) Hcalm ltac:(lia)).
    cbn [while]. rewrite bind_run, bind_run.
    assert (Hpoll : data_ready w = (Return false, logged (DataReady false) w)).
    { destruct w as [E lg sg gl]; simpl in *; subst sg.
      unfold data_ready, call; simpl. rewrite H0. reflexivity. }
    rewrite Hpoll. cbn [negb ret]. cbv iota. rewrite bind_run.
    change (ret tt (logged (DataReady false) w)) with (Return tt, logged (DataReady false) w).
    cbv iota beta.
    rewrite IH.
    + f_equal. unfold log_all. simpl. rewrite <- app_assoc. reflexivity.
    + intros i Hi. simpl.
      replace (S (length (log w) + i)) with (length (log w) + S i)%nat by lia.
      apply Hbusy. lia.
    + simpl. replace (S (length (log w) + k)) with (length (log w) + S k)%nat by lia.
      exact Hready.
Qed.


Lemma nth_error_rows_of {A} (r c i : nat) (l : list A) :
  (i < r)%nat ->
  nth_error (V072.rows_of r c l) i = Some (firstn c (skipn (i * c) l)).
Proof.
  revert r l. induction i as [|i IH]; intros [|r] l Hi; try lia.
  - reflexivity.
  - cbn [V072.rows_of nth_error]. rewrite IH by lia. rewrite skipn_skipn.
    do 3 f_equal. lia.
Qed.

Lemma cell_rows_of {A} (r c : nat) (l : list A) (i j : Z) :
  (0 <= i < Z.of_nat r)%Z -> (0 <= j < Z.of_nat c)%Z ->
  V072.cell (V072.rows_of r c l) i j = nth_error l (Z.to_nat i * c + Z.to_nat j).
Proof.
  intros Hi Hj. unfold V072.cell.
  replace ((i <? 0)%Z || (j <? 0)%Z) with false
    by (symmetry; apply orb_false_iff; split; apply Z.ltb_ge; lia).
  rewrite nth_error_rows_of by lia.
  rewrite nth_error_firstn.
  replace (Z.to_nat j <? c)%nat with true by (symmetry; apply Nat.ltb_lt; lia).
  apply nth_error_skipn.
Qed.

Lemma bind_lift_Ok {G A B} (a : A) (k : A -> M G B) (w : world G) :
  bind (lift (Ok a)) k w = k a w.
Proof. reflexivity. Qed.

Lemma np_distances_run (k fuel : nat) (w : world V072.globals) (data : list N) :
  frame_after k data w -> (k <= fuel)%nat ->
  V072.np_distances_vl53l5cx_mm fuel w
  = (Return (V072.rows_of 8 8 (rev (map Z.of_N data))),
     log_all (frame_calls k data) w).
Proof.
  intros (Hcalm & Hbusy & Hready & Hdata & Hlen) Hfuel.
  unfold V072.np_distances_vl53l5cx_mm.
  rewrite bind_run, (data_ready_wait k fuel w Hcalm Hfuel Hbusy Hready).
  cbv iota beta.
  set (w1 := log_all (repeat (DataReady false) k ++ [DataReady true]) w).
  assert (Hget : get_data w1 = (Return data, logged (GetData data) w1)).
  { assert (Hclock : length (log w1) = (length (log w) + S k)%nat).
    { subst w1. unfold log_all. cbn [log].
      rewrite length_app, length_rev, length_app, repeat_length. simpl. lia. }
    unfold get_data, call, sigint_due.
    replace (sigint w1) with (@None nat) by (symmetry; exact Hcalm).
    rewrite Hclock.
    replace (env w1) with (env w) by reflexivity.
    rewrite Hdata. reflexivity. }
  rewrite bind_run, Hget. cbv iota beta.
  unfold V072.reshape. rewrite length_map, Hlen.
  change (64 =? 8 * 8)%nat with true. cbv iota.
  rewrite bind_lift_Ok.
  rewrite rows_of_rev by (rewrite length_map; exact Hlen).
  rewrite bind_run, sleep_calm by exact Hcalm.
  cbv iota beta. unfold ret. f_equal.
  subst w1. unfold log_all, logged, frame_calls. cbn [env log sigint globals].
  f_equal. rewrite !rev_app_distr. cbn [rev app]. reflexivity.
Qed.

(** X11.  The frame [np_distances_vl53l5cx_mm] returns is the sensor's data
    turned half round: it polls [data_ready] until the sensor is ready,
    fetches the 64 distances once, sleeps 0.25 s, and the cell at row [i],
    column [j] of its 8x8 result is zone [63 - (8 i + j)] of the data. *)
Theorem frame_is_the_data_turned_half_round :
  forall (k fuel : nat) (w : world V072.globals) (data : list N),
    frame_after k data w -> (k <= fuel)%nat ->
    exists frame,
      V072.np_distances_vl53l5cx_mm fuel w
      = (Return frame, log_all (frame_calls k data) w) /\
      V072.is_8x8 frame /\
      forall i j, (0 <= i < 8)%Z -> (0 <= j < 8)%Z ->
        V072.cell frame i j
        = option_map Z.of_N (nth_error data (Z.to_nat (63 - (8 * i + j)))).
Proof.
  intros k fuel w data Hframe Hfuel.
  exists (V072.rows_of 8 8 (rev (map Z.of_N data))).
  pose proof Hframe as (_ & _ & _ & _ & Hlen).
  assert (Hlen' : length (rev (map Z.of_N data)) = (8 * 8)%nat)
    by (rewrite length_rev, length_map; exact Hlen).
  split; [exact (np_distances_run k fuel w data Hframe Hfuel)|].
  split; [exact (rows_of_rectangular 8 8 _ Hlen')|].
  intros i j Hi Hj.
  rewrite cell_rows_of by (simpl; lia).
  rewrite nth_error_rev, length_map, Hlen.
  replace (Z.to_nat i * 8 + Z.to_nat j <? 64)%nat with true
    by (symmetry; apply Nat.ltb_lt; lia).
  rewrite nth_error_map. do 2 f_equal. lia.
Qed.

Lemma slow_sensor_frame_after :
  frame_after 2 (map N.of_nat (List.seq 0 64))
    (fresh (slow_sensor 2) None (v072_globals false 0)).
Proof.
  repeat split.
  intros i Hi. destruct i as [|[|i]]; [reflexivity | reflexivity | lia].
Qed.

Lemma frame_is_the_data_turned_half_round_witness :
  exists frame,
    V072.np_distances_vl53l5cx_mm 5 (fresh (slow_sensor 2) None (v072_globals false 0))
    = (Return frame,
       log_all (frame_calls 2 (map N.of_nat (List.seq 0 64)))
         (fresh (slow_sensor 2) None (v072_globals false 0))) /\
    V072.is_8x8 frame /\
    forall i j, (0 <= i < 8)%Z -> (0 <= j < 8)%Z ->
      V072.cell frame i j
      = option_map Z.of_N
          (nth_error (map N.of_nat (List.seq 0 64)) (Z.to_nat (63 - (8 * i + j)))).
Proof.
  apply (frame_is_the_data_turned_half_round 2 5
           (fresh (slow_sensor 2) None (v072_globals false 0))
           (map N.of_nat (List.seq 0 64))).
  - exact slow_sensor_frame_after.
  - lia.
Defined.


Lemma slice_length {A} (a b : Z) (l : list A) :
  (0 <= a <= b)%Z -> (b < Z.of_nat (length l))%Z ->
  length (slice a b l) = Z.to_nat (b - a + 1).
Proof. intros Ha Hb. unfold slice. rewrite length_firstn, length_skipn. lia. Qed.

Lemma In_slice {A} (a b : Z) (l : list A) (x : A) : In x (slice a b l) -> In x l.
Proof. unfold slice. intros H. apply In_firstn in H. now apply In_skipn in H. Qed.

Lemma length_concat_le {A} (rows : list (list A)) (c : nat) :
  (forall row, In row rows -> (length row <= c)%nat) ->
  (length (concat rows) <= length rows * c)%nat.
Proof.
  induction rows as [|row rows IH]; intros H; [simpl; lia|].
  cbn [concat length]. rewrite length_app.
  specialize (IH (fun r Hr => H r (or_intror Hr))).
  pose proof (H row (or_introl eq_refl)). lia.
Qed.

Lemma slice_length_le {A} (a b : Z) (l : list A) :
  (length (slice a b l) <= length l)%nat.
Proof. unfold slice. rewrite length_firstn, length_skipn. lia. Qed.

(** The average of a rectangle of cells of a frame of unsigned cells lies
    between any two bounds that enclose every cell of the frame, when the
    upper bound times the size of the frame is below 2^53. *)
Lemma zone_average_bounds (nr nc : nat) (arr : ndarray Z) (sr sc er ec lo hi : Z) :
  rectangular nr nc arr ->
  (0 <= sr <= er)%Z -> (er < Z.of_nat nr)%Z ->
  (0 <= sc <= ec)%Z -> (ec < Z.of_nat nc)%Z ->
  (forall x, In x (concat arr) -> (lo <= x <= hi)%Z) ->
  (0 <= lo)%Z -> (hi * Z.of_nat (nr * nc) < 2 ^ 53)%Z ->
  exists m a,
    V072.np_extract arr sr sc er ec = Ok m /\
    V072.int_np_average m = Ok a /\ (lo <= a <= hi)%Z.
Proof.
  intros Hrect Hr Her Hc Hec Hall Hlo Hhi.
  exists (map (slice sc ec) (slice sr er arr)).
  assert (Hne : concat (map (slice sc ec) (slice sr er arr)) <> []).
  { destruct Hrect as [Hlen Hrows].
    destruct (slice sr er arr) as [|row rest] eqn:E.
    + apply (f_equal (@length _)) in E. rewrite slice_length in E by lia.
      simpl in E. lia.
    + assert (Hrow : In row arr) by (apply (In_slice sr er); rewrite E; now left).
      rewrite Forall_forall in Hrows. specialize (Hrows row Hrow).
      cbn [map concat]. destruct (slice sc ec row) eqn:E2; [|discriminate].
      apply (f_equal (@length _)) in E2. rewrite slice_length in E2 by lia.
      simpl in E2. lia. }
  assert (Hcells : forall x, In x (concat (map (slice sc ec) (slice sr er arr))) ->
                             (lo <= x <= hi)%Z).
  { intros x Hx. apply Hall. apply in_concat in Hx as [s [Hs Hx]].
    apply in_map_iff in Hs as [row [<- Hrow]].
    apply in_concat. exists row. split; eapply In_slice; eassumption. }
  assert (Hcount : (length (concat (map (slice sc ec) (slice sr er arr))) <= nr * nc)%nat).
  { destruct Hrect as [Hlen Hrows]. rewrite Forall_forall in Hrows.
    pose proof (length_concat_le (map (slice sc ec) (slice sr er arr)) nc) as Hle.
    rewrite length_map in Hle.
    pose proof (slice_length_le sr er arr) as Hrowsle. rewrite Hlen in Hrowsle.
    assert (Hrw : forall row, In row (map (slice sc ec) (slice sr er arr)) ->
                              (length row <= nc)%nat).
    { intros row Hrow. apply in_map_iff in Hrow as [row' [<- Hrow']].
      pose proof (slice_length_le sc ec row') as Hs.
      rewrite (Hrows row' (In_slice sr er arr row' Hrow')) in Hs. exact Hs. }
    specialize (Hle Hrw). nia. }
  assert (Hhi0 : (0 <= hi)%Z).
  { destruct (concat (map (slice sc ec) (slice sr er arr))) as [|x xs] eqn:E;
      [congruence|]. specialize (Hcells x (or_introl eq_refl)). lia. }
  destruct (int_np_average_bounds (map (slice sc ec) (slice sr er arr)) lo hi
              Hne Hcells Hlo) as [a [Ha Hb]]; [nia|].
  exists a. split; [|split; assumption].
  apply np_extract_slice with nr nc; assumption.
Qed.

Lemma np_average_distances_run (k fuel : nat) (w : world V072.globals)
    (data : list N) (lo hi : Z) :
  frame_after k data w -> (k <= fuel)%nat ->
  (forall d, In d data -> (lo <= Z.of_N d <= hi)%Z) ->
  (0 <= lo)%Z -> (hi < 2 ^ 47)%Z ->
  exists l r c,
    V072.np_average_distances fuel w
    = (Return (l, r, c), log_all (frame_calls k data) w) /\
    (lo <= l <= hi)%Z /\ (lo <= r <= hi)%Z /\ (lo <= c <= hi)%Z.
Proof.
  intros Hframe Hfuel Hall Hlo Hhi.
  pose proof Hframe as (_ & _ & _ & _ & Hlen).
  set (frame := V072.rows_of 8 8 (rev (map Z.of_N data))).
  assert (Hlen' : length (rev (map Z.of_N data)) = (8 * 8)%nat)
    by (rewrite length_rev, length_map; exact Hlen).
  assert (Hrect : rectangular 8 8 frame) by exact (rows_of_rectangular 8 8 _ Hlen').
  assert (Hcells : forall x, In x (concat frame) -> (lo <= x <= hi)%Z).
  { intros x Hx. subst frame. rewrite concat_rows_of in Hx by exact Hlen'.
    apply in_rev in Hx. apply in_map_iff in Hx as [d [<- Hd]]. now apply Hall. }
  assert (Hsize : (hi * Z.of_nat (8 * 8) < 2 ^ 53)%Z).
  { change (Z.of_nat (8 * 8)) with 64%Z. change (2 ^ 53)%Z with (2 ^ 47 * 64)%Z. lia. }
  destruct (zone_average_bounds 8 8 frame 2 2 5 5 lo hi Hrect
              ltac:(lia) ltac:(simpl; lia) ltac:(lia) ltac:(simpl; lia) Hcells Hlo Hsize)
    as (mc & c & Hmc & Hc & Hcb).
  destruct (zone_average_bounds 8 8 frame 0 0 7 1 lo hi Hrect
              ltac:(lia) ltac:(simpl; lia) ltac:(lia) ltac:(simpl; lia) Hcells Hlo Hsize)
    as (ml & l & Hml & Hl & Hlb).
  destruct (zone_average_bounds 8 8 frame 0 6 7 7 lo hi Hrect
              ltac:(lia) ltac:(simpl; lia) ltac:(lia) ltac:(simpl; lia) Hcells Hlo Hsize)
    as (mr & r & Hmr & Hr & Hrb).
  exists l, r, c. split; [|auto].
  unfold V072.np_average_distances.
  rewrite bind_run, (np_distances_run k fuel w data Hframe Hfuel).
  fold frame. cbv iota beta.
  rewrite Hmc, bind_lift_Ok, Hc, bind_lift_Ok.
  rewrite Hml, bind_lift_Ok, Hl, bind_lift_Ok.
  rewrite Hmr, bind_lift_Ok, Hr, bind_lift_Ok.
  reflexivity.
Qed.

(** X12.  One poll of the depth sensor by the main line of [Trilobot_v072.py]
    ([np_average_distances] followed by [check_for_collision]): when the
    sensor delivers a frame of 64 distances that all lie between [lo] and
    [hi], with [0 <= lo] and [hi] below 2^47 (so that no addition of a
    zone's mean rounds), the poll returns having made only the calls of the
    frame source, the three module-level distances lie between [lo] and
    [hi], the collision flag says whether the center distance is at most
    200 mm (so it is set when every zone is within 200 mm and clear when
    every zone is beyond), and [percent] and [last_turn] are as before. *)
Theorem poll_zones_averages_within_frame :
  forall (k fuel : nat) (w : world V072.globals) (data : list N) (lo hi : Z),
    frame_after k data w -> (k <= fuel)%nat ->
    (forall d, In d data -> (lo <= Z.of_N d <= hi)%Z) ->
    (0 <= lo)%Z -> (hi < 2 ^ 47)%Z ->
    exists w',
      V072.poll_zones fuel w = (Return tt, w') /\
      history w' = history w ++ frame_calls k data /\
      (lo <= V072.left_distance_mm (globals w') <= hi)%Z /\
      (lo <= V072.right_distance_mm (globals w') <= hi)%Z /\
      (lo <= V072.center_distance_mm (globals w') <= hi)%Z /\
      V072.collision (globals w')
      = (V072.center_distance_mm (globals w') <=? 200)%Z /\
      ((hi <= 200)%Z -> V072.collision (globals w') = true) /\
      ((200 < lo)%Z -> V072.collision (globals w') = false) /\
      V072.percent (globals w') = V072.percent (globals w) /\
      V072.last_turn (globals w') = V072.last_turn (globals w).
Proof.
  intros k fuel w data lo hi Hframe Hfuel Hall Hlo0 Hhi47.
  destruct (np_average_distances_run k fuel w data lo hi Hframe Hfuel Hall Hlo0 Hhi47)
    as (l & r & c & Hrun & Hl & Hr & Hc).
  eexists. split.
  { unfold V072.poll_zones. rewrite bind_run, Hrun. reflexivity. }
  cbn [globals with_globals log_all V072.assign_distances V072.assign_collision
       V072.left_distance_mm V072.right_distance_mm V072.center_distance_mm
       V072.collision V072.percent V072.last_turn].
  split; [apply history_log_all|].
  unfold V072.check_for_collision, V072.COLLISION_THRESHOLD_MM.
  repeat split; try lia.
  - destruct (c <=? 200)%Z; reflexivity.
  - intros Hhi. destruct (Z.leb_spec c 200); [reflexivity | lia].
  - intros Hlo. destruct (Z.leb_spec c 200); [lia | reflexivity].
Qed.

Lemma poll_zones_averages_within_frame_witness :
  exists w',
    V072.poll_zones 0 v072_facing_obstacle = (Return tt, w') /\
    history w' = history v072_facing_obstacle ++ frame_calls 0 (repeat 150%N 64) /\
    (150 <= V072.left_distance_mm (globals w') <= 150)%Z /\
    (150 <= V072.right_distance_mm (globals w') <= 150)%Z /\
    (150 <= V072.center_distance_mm (globals w') <= 150)%Z /\
    V072.collision (globals w')
    = (V072.center_distance_mm (globals w') <=? 200)%Z /\
    ((150 <= 200)%Z -> V072.collision (globals w') = true) /\
    ((200 < 150)%Z -> V072.collision (globals w') = false) /\
    V072.percent (globals w') = V072.percent (globals v072_facing_obstacle) /\
    V072.last_turn (globals w') = V072.last_turn (globals v072_facing_obstacle).
Proof.
  apply (poll_zones_averages_within_frame 0 0 v072_facing_obstacle
           (repeat 150%N 64) 150 150).
  - repeat split. intros i Hi. lia.
  - lia.
  - intros d Hd. apply repeat_spec in Hd. subst d. simpl. lia.
  - lia.
  - vm_compute. reflexivity.
Defined.


(* ===================================================================== *)
(** * The ultrasonic reading when the ranger answers at once               *)
(* ===================================================================== *)

Lemma first_try_calls_S (E : environment) (t n : nat) :
  first_try_calls E t (S n)
  = ReadDistance (read_distance_at E t) :: Sleep 0.01 :: first_try_calls E (t + 2) n.
Proof.
  unfold first_try_calls. cbn [List.seq flat_map app].
  replace (t + 2 * 0)%nat with t by lia. do 2 f_equal.
  rewrite <- seq_shift, !flat_map_concat_map, map_map. f_equal.
  apply map_ext. intros i. do 3 f_equal. lia.
Qed.

Section FirstTryReadings.
Context {G : Type}.
Variable RED : colour.
Variable namespace : list (string * Ultrasonic.blinker G).

(** The [for] loop of [distance_reading_cm], entered with [count] readings
    made. *)
Lemma readings_loop (n : nat) :
  forall (w : world G) (count : Z) (total : Q),
    sigint w = None ->
    (forall i, (i < n)%nat -> 0 <= read_distance_at (env w) (length (log w) + 2 * i)) ->
    exists total' w',
      for_range_local n
        (fun ct =>
           bind (Ultrasonic.valid_reading RED namespace) (fun dc =>
           bind (sleep 0.01) (fun _ =>
           ret ((fst ct + 1)%Z, Qred (snd ct + fst dc)))))
        (count, total) w
      = (Return ((count + Z.of_nat n)%Z, total'), w') /\
      history w' = history w ++ first_try_calls (env w) (length (log w)) n /\
      sigint w' = None /\ env w' = env w /\ globals w' = globals w.
Proof.
  induction n as [|n IH]; intros w count total Hcalm Hok.
  - exists total, w. cbn [for_range_local]. rewrite Z.add_0_r.
    repeat split; try reflexivity.
    + cbn. now rewrite app_nil_r.
    + exact Hcalm.
  - assert (H0 : 0 <= read_distance_at (env w) (length (log w) + 0)).
    { replace (length (log w) + 0)%nat with (length (log w) + 2 * 0)%nat by lia.
      apply Hok. lia. }
    destruct (valid_reading_accepts RED namespace 0 w Hcalm ltac:(lia)
                ltac:(intros i Hi; lia) H0)
      as (w1 & Hrun & Hhist & Hsig & Henv & Hglob).
    rewrite Nat.add_0_r in Hrun.
    set (d := read_distance_at (env w) (length (log w))) in *.
    set (w2 := log_all [Sleep 0.01] w1).
    assert (Hclock : length (log w2) = (length (log w) + 2)%nat).
    { apply (f_equal (@length _)) in Hhist. unfold history in Hhist.
      rewrite length_app, !length_rev in Hhist. subst w2. cbn. cbn in Hhist. lia. }
    assert (Henv2 : env w2 = env w) by exact Henv.
    destruct (IH w2 (count + 1)%Z (Qred (total + d)) Hsig) as
      (total' & w' & Hloop & Hhist' & Hsig' & Henv' & Hglob').
    { intros i Hi. rewrite Henv2, Hclock.
      replace (length (log w) + 2 + 2 * i)%nat with (length (log w) + 2 * S i)%nat by lia.
      apply Hok. lia. }
    exists total', w'.
    replace (count + Z.of_nat (S n))%Z with (count + 1 + Z.of_nat n)%Z by lia.
    split.
    { cbn [for_range_local]. rewrite bind_run. cbv beta.
      rewrite bind_run, Hrun. cbv iota beta. rewrite bind_run, (sleep_calm _ w1 Hsig).
      cbv iota beta. fold w2. cbn [fst snd ret]. exact Hloop. }
    rewrite Henv2, Hclock in Hhist'.
    rewrite first_try_calls_S. fold d.
    split; [|split; [|split]].
    + rewrite Hhist'. subst w2. rewrite history_log_all, Hhist.
      rewrite readings_from_cons. cbn [readings_from List.seq map]. fold d.
      rewrite <- !app_assoc. reflexivity.
    + exact Hsig'.
    + now rewrite Henv'.
    + now rewrite Hglob'.
Qed.

Lemma distance_reading_cm_first_try (threshold : Q) (n : nat) (w : world G) :
  sigint w = None -> (0 < n)%nat ->
  (forall i, (i < n)%nat -> 0 <= read_distance_at (env w) (length (log w) + 2 * i)) ->
  exists average collision w',
    Ultrasonic.distance_reading_cm RED namespace threshold n w
    = (Return (average, collision), w') /\
    collision = Qlt_bool average threshold /\
    history w' = history w ++ first_try_calls (env w) (length (log w)) n /\
    globals w' = globals w.
Proof.
  intros Hcalm Hn Hok.
  destruct (readings_loop n w 0%Z 0.0 Hcalm Hok)
    as (total & w' & Hloop & Hhist & _ & _ & Hglob).
  change (Ultrasonic.distance_reading_cm RED namespace threshold n)
    with (bind (for_range_local n
                  (fun ct =>
                     bind (Ultrasonic.valid_reading RED namespace) (fun dc =>
                     bind (sleep 0.01) (fun _ =>
                     ret ((fst ct + 1)%Z, Qred (snd ct + fst dc)))))
                  (0%Z, 0.0)) (fun totals =>
            if (fst totals =? 0)%Z then raise ZeroDivisionError
            else ret (Qred (snd totals / inject_Z (fst totals)),
                      if Qlt_bool (Qred (snd totals / inject_Z (fst totals))) threshold
                      then true else false))).
  rewrite bind_run, Hloop. cbv iota beta. cbn [fst snd].
  replace (0 + Z.of_nat n =? 0)%Z with false by (symmetry; apply Z.eqb_neq; lia).
  exists (Qred (total / inject_Z (0 + Z.of_nat n))).
  exists (Qlt_bool (Qred (total / inject_Z (0 + Z.of_nat n))) threshold), w'.
  split; [|split; [|split]].
  - unfold ret. do 2 f_equal.
    destruct (Qlt_bool (Qred (total / inject_Z (0 + Z.of_nat n))) threshold); reflexivity.
  - reflexivity.
  - exact Hhist.
  - exact Hglob.
Qed.

End FirstTryReadings.

(** X13.  The ultrasonic reading of [Trilobot.py], [Trilobot_v060.py] and
    [utility_functions.py], when no Ctrl/C is pending and each of the
    [nr_readings > 0] readings is non-negative at its first attempt: it
    returns after exactly one [read_distance] call and one [sleep(0.01)]
    per reading, in this order, having assigned no module-level variable,
    and the collision flag it returns is set exactly when the average it
    returns is below the threshold. *)
Theorem first_try_reading_flags_its_average :
  forall (G : Type) (RED : colour) (namespace : list (string * Ultrasonic.blinker G))
         (threshold : Q) (nr_readings : nat) (w : world G),
    sigint w = None -> (0 < nr_readings)%nat ->
    (forall i, (i < nr_readings)%nat ->
       0 <= read_distance_at (env w) (length (log w) + 2 * i)) ->
    exists average collision w',
      Ultrasonic.distance_reading_cm RED namespace threshold nr_readings w
      = (Return (average, collision), w') /\
      (average < threshold -> collision = true) /\
      (threshold <= average -> collision = false) /\
      history w' = history w ++ first_try_calls (env w) (length (log w)) nr_readings /\
      globals w' = globals w.
Proof.
  intros G RED ns threshold n w Hcalm Hn Hok.
  destruct (distance_reading_cm_first_try RED ns threshold n w Hcalm Hn Hok)
    as (average & collision & w' & Hrun & Hflag & Hhist & Hglob).
  exists average, collision, w'. subst collision.
  split; [exact Hrun|]. split; [|split; [|split; assumption]].
  - intros Hlt. now apply Qlt_bool_iff.
  - intros Hge. apply Qlt_bool_false. intro Hlt. exact (Qlt_not_le _ _ Hlt Hge).
Qed.

Lemma first_try_reading_flags_its_average_witness :
  exists average collision w',
    Ultrasonic.distance_reading_cm V060.RED V060.namespace V060.COLLISION_THRESHOLD_CM
      10 v060_facing_obstacle
    = (Return (average, collision), w') /\
    (average < V060.COLLISION_THRESHOLD_CM -> collision = true) /\
    (V060.COLLISION_THRESHOLD_CM <= average -> collision = false) /\
    history w' = history v060_facing_obstacle
                 ++ first_try_calls (env v060_facing_obstacle)
                      (length (log v060_facing_obstacle)) 10 /\
    globals w' = globals v060_facing_obstacle.
Proof.
  apply (first_try_reading_flags_its_average V060.globals V060.RED V060.namespace
           V060.COLLISION_THRESHOLD_CM 10 v060_facing_obstacle).
  - reflexivity.
  - lia.
  - intros i Hi. simpl. discriminate.
Defined.

(* ===================================================================== *)
(** * print_array                                                          *)
(* ===================================================================== *)

Lemma string_app_assoc (a b c : string) : ((a ++ b) ++ c = a ++ b ++ c)%string.
Proof. induction a as [|ch a IH]; simpl; [reflexivity | now rewrite IH]. Qed.

Lemma string_app_nil_r (a : string) : (a ++ "" = a)%string.
Proof. induction a as [|ch a IH]; simpl; [reflexivity | now rewrite IH]. Qed.

Lemma print_bind_run {A B} (m : printing A) (k : A -> printing B) (out : string) :
  print_bind m k out
  = match m out with
    | (Ok a, out') => k a out'
    | (Raise e, out') => (Raise e, out')
    end.
Proof. reflexivity. Qed.

Lemma print_bind_lift_Ok {A B} (a : A) (k : A -> printing B) (out : string) :
  print_bind (print_lift (Ok a)) k out = k a out.
Proof. reflexivity. Qed.

Lemma print_bind_lift_Raise {A B} (e : exn) (k : A -> printing B) (out : string) :
  print_bind (print_lift (Raise e)) k out = (Raise e, out).
Proof. reflexivity. Qed.

Lemma print_bind_print {B} (text end_ : string) (k : unit -> printing B) (out : string) :
  print_bind (print text end_) k out = k tt (out ++ text ++ end_)%string.
Proof. reflexivity. Qed.

Lemma nth_error_in_range {A} (l : list A) (i : Z) :
  (0 <= i < Z.of_nat (length l))%Z -> exists x, nth_error l (Z.to_nat i) = Some x.
Proof.
  intros Hi. destruct (nth_error l (Z.to_nat i)) as [x|] eqn:E; [now exists x|].
  apply nth_error_None in E. lia.
Qed.

(** The inner loop of [print_array] of [Trilobot_v072.py], with [n] cells
    of row [r] still to print. *)
Lemma print_cells (arr : list (list Z)) (r : Z) (row : list Z) (n : nat) :
  forall (c0 : Z) (out : string),
    py_index arr r = Ok row -> (0 <= c0)%Z ->
    (c0 + Z.of_nat n = Z.of_nat (length row))%Z ->
    print_for
      (fun c =>
         (x <- print_lift (let? row := py_index arr r in py_index row c)%result ;;
          print (format_6d x) "" ;;
          if (c =? Z.of_nat (length row) - 1)%Z then print " ]" newline
          else print ", " "")%print)
      (py_range c0 (Z.of_nat (length row))) out
    = (Ok tt, (out ++ cells_text (skipn (Z.to_nat c0) row))%string).
Proof.
  induction n as [|n IH]; intros c0 out Harr Hc0 Hlen.
  - rewrite py_range_empty by lia.
    rewrite skipn_all2 by lia. cbn [print_for cells_text]. unfold print_ret.
    now rewrite string_app_nil_r.
  - rewrite py_range_cons by lia.
    destruct (nth_error_in_range row c0 ltac:(lia)) as [x Hx].
    rewrite (skipn_nth_error_cons row _ x Hx).
    cbn [print_for]. rewrite print_bind_run. cbv beta.
    rewrite Harr. cbn [rbind]. rewrite (py_index_nth_error Hc0 Hx).
    rewrite print_bind_lift_Ok, print_bind_print.
    specialize (IH (c0 + 1)%Z).
    replace (Z.to_nat (c0 + 1)) with (S (Z.to_nat c0)) in IH by lia.
    rewrite Harr in IH. cbn [rbind] in IH.
    destruct (Z.eqb_spec c0 (Z.of_nat (length row) - 1)) as [Hlast | Hmore].
    + unfold print at 1. cbv iota. rewrite IH by (reflexivity || lia).
      rewrite skipn_all2 by lia. cbn [cells_text].
      rewrite !string_app_nil_r, !string_app_assoc. reflexivity.
    + unfold print at 1. cbv iota. rewrite IH by (reflexivity || lia).
      destruct (skipn (S (Z.to_nat c0)) row) as [|y rest] eqn:E.
      * apply (f_equal (@length _)) in E. rewrite length_skipn in E. simpl in E. lia.
      * cbn [cells_text]. rewrite !string_app_nil_r, !string_app_assoc. reflexivity.
Qed.


(** The outer loop of [print_array] of [Trilobot_v072.py], with [n] rows
    still to print. *)
Lemma print_rows (arr : list (list Z)) (nc n : nat) :
  forall (r0 : Z) (out : string),
    Forall (fun row => length row = nc) arr -> (0 <= r0)%Z ->
    (r0 + Z.of_nat n = Z.of_nat (length arr))%Z ->
    print_for
      (fun r =>
         (print "  [ " "" ;;
          print_for
            (fun c =>
               x <- print_lift (let? row := py_index arr r in py_index row c)%result ;;
               print (format_6d x) "" ;;
               if (c =? Z.of_nat nc - 1)%Z then print " ]" newline else print ", " "")
            (py_range 0 (Z.of_nat nc)))%print)
      (py_range r0 (Z.of_nat (length arr))) out
    = (Ok tt,
       (out ++ fold_right String.append "" (map row_text (skipn (Z.to_nat r0) arr)))%string).
Proof.
  induction n as [|n IH]; intros r0 out Hrows Hr0 Hlen.
  - rewrite (py_range_empty r0) by lia.
    rewrite skipn_all2 by lia. cbn [print_for map fold_right]. unfold print_ret.
    now rewrite string_app_nil_r.
  - rewrite (py_range_cons r0) by lia.
    destruct (nth_error_in_range arr r0 ltac:(lia)) as [row Hrow].
    rewrite (skipn_nth_error_cons arr _ row Hrow).
    assert (Hnc : length row = nc).
    { rewrite Forall_forall in Hrows. apply Hrows. eapply nth_error_In, Hrow. }
    pose proof (print_cells arr r0 row nc 0 (out ++ "  [ " ++ "")
                  (py_index_nth_error Hr0 Hrow) ltac:(lia) ltac:(lia)) as Hcells.
    rewrite Hnc in Hcells. cbn [Z.to_nat skipn] in Hcells.
    cbn [print_for]. rewrite print_bind_run. cbv beta.
    rewrite print_bind_print, Hcells.
    specialize (IH (r0 + 1)%Z).
    replace (Z.to_nat (r0 + 1)) with (S (Z.to_nat r0)) in IH by lia.
    rewrite IH by (assumption || lia).
    cbn [map fold_right]. unfold row_text.
    rewrite !string_app_nil_r, !string_app_assoc. reflexivity.
Qed.

(** X14.  [print_array] of [Trilobot_v072.py] on an array of [nr] rows of [nc]
    integers: with no row it raises [IndexError] (from [arr[0]]) and
    writes nothing; otherwise it returns the shape [(nr, nc)] and has
    written an opening line, one line per row with every cell in six
    columns, and a closing line. *)
Theorem print_array_writes_rows_and_returns_shape :
  forall (nr nc : nat) (arr : list (list Z)) (out : string),
    rectangular nr nc arr ->
    V072.print_array arr out
    = if (nr =? 0)%nat then (Raise IndexError, out)
      else (Ok (Z.of_nat nr, Z.of_nat nc), (out ++ array_text arr)%string).
Proof.
  intros nr nc arr out [Hlen Hrows].
  destruct arr as [|row0 rest] eqn:Earr.
  - simpl in Hlen. subst nr. reflexivity.
  - rewrite <- Earr in *.
    assert (Hnr : (nr =? 0)%nat = false) by (apply Nat.eqb_neq; rewrite Earr in Hlen; simpl in Hlen; lia).
    rewrite Hnr.
    assert (H0 : py_index arr 0 = Ok row0) by (rewrite Earr; reflexivity).
    assert (Hnc : length row0 = nc).
    { rewrite Forall_forall in Hrows. apply Hrows. rewrite Earr. now left. }
    unfold V072.print_array. rewrite H0, print_bind_lift_Ok, print_bind_print.
    rewrite print_bind_run, Hnc.
    rewrite (print_rows arr nc nr 0 _ Hrows ltac:(lia) ltac:(lia)).
    cbn [Z.to_nat skipn]. rewrite print_bind_print. unfold print_ret.
    rewrite Hlen. f_equal. unfold array_text.
    rewrite !string_app_assoc. reflexivity.
Qed.

Lemma print_array_writes_rows_and_returns_shape_witness :
  V072.print_array [[1; 22]; [- 3; 4]]%Z ""%string
  = (Ok (2, 2)%Z, ("" ++ array_text [[1; 22]; [- 3; 4]]%Z)%string).
Proof.
  apply (print_array_writes_rows_and_returns_shape 2 2 [[1; 22]; [- 3; 4]]%Z ""%string).
  split; [reflexivity | repeat constructor].
Defined.

Lemma print_empty_rows (names : list (string * Z)) (arr : list (list Z)) (l : list Z) :
  forall out : string,
    exists out',
      print_for
        (fun r =>
           (print "  [ " "" ;;
            print_for
              (fun c =>
                 x <- print_lift (let? row := py_index arr r in py_index row c)%result ;;
                 print (format_6d x) "" ;;
                 cols <- print_lift (lookup_name names "cols") ;;
                 if (c =? cols - 1)%Z then print " ]" newline else print ", " "")
              (py_range 0 (Z.of_nat 0)))%print)
        l out
      = (Ok tt, out').
Proof.
  induction l as [|r l IH]; intros out.
  - now exists out.
  - cbn [print_for]. rewrite print_bind_run. cbv beta. rewrite print_bind_print.
    change (py_range 0 (Z.of_nat 0)) with (@nil Z). cbn [print_for]. unfold print_ret at 1.
    apply IH.
Qed.

(** X15.  [print_array] of [utility_functions.py] never returns.  In a module
    that binds neither [cols] nor [rows] (the file binds neither), on
    every array of two dimensions that holds integers it ends in an
    exception: [IndexError] on an array without rows; [NameError] for
    [cols] right after the first cell has been written, when the first row
    has a cell; [NameError] for [rows] at the [return] otherwise. *)
Theorem utility_print_array_never_returns :
  forall (names : list (string * Z)) (arr : list (list Z)) (out : string),
    lookup_name names "cols" = Raise (NameError "cols") ->
    lookup_name names "rows" = Raise (NameError "rows") ->
    exists e out',
      Utility.print_array names arr out = (Raise e, out') /\
      match arr with
      | [] => e = IndexError /\ out' = out
      | (x :: _) :: _ =>
          e = NameError "cols" /\
          out' = (out ++ "[" ++ newline ++ "  [ " ++ format_6d x)%string
      | [] :: _ => e = NameError "rows"
      end.
Proof.
  intros names arr out Hcols Hrows.
  destruct arr as [|[|x row0] rest] eqn:Earr.
  - exists IndexError, out. split; [reflexivity | split; reflexivity].
  - rewrite <- Earr.
    assert (H0 : py_index arr 0 = Ok []) by (rewrite Earr; reflexivity).
    unfold Utility.print_array. rewrite H0, print_bind_lift_Ok, print_bind_print.
    cbn [length]. rewrite print_bind_run.
    destruct (print_empty_rows names arr (py_range 0 (Z.of_nat (length arr)))
                (out ++ "[" ++ newline)) as [out1 Hloop].
    rewrite Hloop, print_bind_print, Hrows, print_bind_lift_Raise.
    eexists. eexists. split; reflexivity.
  - rewrite <- Earr.
    assert (H0 : py_index arr 0 = Ok (x :: row0)) by (rewrite Earr; reflexivity).
    assert (H00 : (let? row := py_index arr 0 in py_index row 0)%result = Ok x)
      by (rewrite H0; reflexivity).
    unfold Utility.print_array. rewrite H0, print_bind_lift_Ok, print_bind_print.
    rewrite print_bind_run.
    rewrite (py_range_cons 0 (Z.of_nat (length arr)))
      by (rewrite Earr; simpl; lia).
    rewrite (py_range_cons 0 (Z.of_nat (length (x :: row0)))) by (simpl; lia).
    cbn [print_for]. rewrite print_bind_run. cbv beta.
    rewrite print_bind_print, print_bind_run, print_bind_run. cbv beta.
    rewrite H00. unfold print_lift at 1. cbv iota.
    rewrite print_bind_print, Hcols, print_bind_lift_Raise. cbv iota.
    eexists. eexists. split; [reflexivity|]. split; [reflexivity|].
    rewrite !string_app_nil_r, !string_app_assoc. reflexivity.
Qed.

Lemma utility_print_array_never_returns_witness :
  exists e out',
    Utility.print_array [] [[1; 22]; [- 3; 4]]%Z ""%string = (Raise e, out') /\
    e = NameError "cols" /\
    out' = ("" ++ "[" ++ newline ++ "  [ " ++ format_6d 1)%string.
Proof.
  apply (utility_print_array_never_returns [] [[1; 22]; [- 3; 4]]%Z ""%string);
    reflexivity.
Defined.


(* ===================================================================== *)
(** * Runs in which nothing is raised: the Ctrl/C is answered              *)
(* ===================================================================== *)

Section NeverRaises.
Context {G : Type}.
Variable E : environment.

Lemma never_raises_ret {A} (Q : A -> Prop) (a : A) :
  Q a -> never_raises E Q (@ret G A a).
Proof. intros Ha w Hw. split; [exact Hw | exact Ha]. Qed.

Lemma never_raises_bind {A B} (Q : A -> Prop) (R : B -> Prop)
    (m : M G A) (k : A -> M G B) :
  never_raises E Q m -> (forall a, Q a -> never_raises E R (k a)) ->
  never_raises E R (bind m k).
Proof.
  intros Hm Hk w Hw. rewrite bind_run. destruct (Hm w Hw) as [He Ho].
  destruct (m w) as [[a| e | |] w1]; cbn [fst snd] in *;
    try (split; [exact He | exact Ho]).
  apply (Hk a Ho w1 He).
Qed.

Lemma never_raises_any {A} (Q : A -> Prop) (m : M G A) :
  never_raises E Q m -> never_raises E (fun _ => True) m.
Proof.
  intros Hm w Hw. destruct (Hm w Hw) as [He Ho]. split; [exact He|].
  destruct (fst (m w)); try exact I; exact Ho.
Qed.

Lemma never_raises_seq {A B} (R : B -> Prop) (m : M G A) (k : A -> M G B) :
  never_raises E (fun _ => True) m -> (forall a, never_raises E R (k a)) ->
  never_raises E R (bind m k).
Proof. intros Hm Hk. apply (never_raises_bind _ R m k Hm). intros a _. apply Hk. Qed.

Lemma never_raises_call {A} (Q : A -> Prop) (perform : environment -> nat -> A * event) :
  (forall t, Q (fst (perform E t))) -> never_raises E Q (@call G A perform).
Proof.
  intros Hq w Hw. unfold call. destruct (sigint_due w).
  - split; [exact Hw | exact I].
  - specialize (Hq (length (log w))). rewrite Hw.
    destruct (perform E (length (log w))) as [a e]. split; [exact Hw | exact Hq].
Qed.

Lemma never_raises_read_globals : never_raises E (fun _ => True) (@read_globals G).
Proof. intros w Hw. split; [exact Hw | exact I]. Qed.

Lemma never_raises_update (f : G -> G) :
  never_raises E (fun _ => True) (update_globals f).
Proof. intros w Hw. split; [exact Hw | exact I]. Qed.

Lemma never_raises_when (c : bool) (m : M G unit) :
  never_raises E (fun _ => True) m -> never_raises E (fun _ => True) (when c m).
Proof. destruct c; [trivial | intros _; now apply never_raises_ret]. Qed.

Lemma never_raises_for_range (n : nat) (body : M G unit) :
  never_raises E (fun _ => True) body ->
  never_raises E (fun _ => True) (for_range n body).
Proof.
  intros Hb. induction n as [|n IH]; cbn [for_range].
  - now apply never_raises_ret.
  - apply never_raises_seq; [exact Hb | intros _; exact IH].
Qed.

Lemma never_raises_while (fuel : nat) (cond : M G bool) (body : M G unit) :
  never_raises E (fun _ => True) cond -> never_raises E (fun _ => True) body ->
  never_raises E (fun _ => True) (while fuel cond body).
Proof.
  intros Hc Hb. induction fuel as [|fuel IH]; cbn [while];
    (apply never_raises_seq; [exact Hc | intros [|]; [|now apply never_raises_ret]]).
  - intros w Hw. split; [exact Hw | exact I].
  - apply never_raises_seq; [exact Hb | intros _; exact IH].
Qed.

Lemma never_raises_try (body handler : M G unit) :
  never_raises E (fun _ => True) body -> never_raises E (fun _ => True) handler ->
  never_raises E (fun _ => True) (try_except_KeyboardInterrupt body handler).
Proof.
  intros Hb Hh w Hw. unfold try_except_KeyboardInterrupt.
  destruct (Hb w Hw) as [He Ho].
  destruct (body w) as [[a| e | |] w1]; cbn [fst snd] in *;
    try (split; [exact He | exact Ho]).
  apply (Hh w1 He).
Qed.

Lemma never_raises_blink_underlights (group : lights) (color : colour) (n : nat) (rate : Q) :
  never_raises E (fun _ => True) (@blink_underlights G group color n rate).
Proof.
  unfold blink_underlights. apply never_raises_for_range.
  apply never_raises_seq; [now apply never_raises_call | intros _].
  apply never_raises_seq; [now apply never_raises_call | intros _].
  now apply never_raises_call.
Qed.

End NeverRaises.

Ltac never_raises_step :=
  lazymatch goal with
  | |- never_raises _ _ (bind _ _) => apply never_raises_seq; [|intro]
  | |- never_raises _ _ (ret _) => apply never_raises_ret; exact I
  | |- never_raises _ _ read_globals => apply never_raises_read_globals
  | |- never_raises _ _ (update_globals _) => apply never_raises_update
  | |- never_raises _ _ (call _) => apply never_raises_call; intros; exact I
  | |- never_raises _ _ (set_motor_speeds _ _) => unfold set_motor_speeds
  | |- never_raises _ _ (set_underlights _ _) => unfold set_underlights
  | |- never_raises _ _ (clear_underlights _) => unfold clear_underlights
  | |- never_raises _ _ (sleep _) => unfold sleep
  | |- never_raises _ _ data_ready => unfold data_ready
  | |- never_raises _ _ random => unfold random
  | |- never_raises _ _ randint => unfold randint
  | |- never_raises _ _ (blink_underlights _ _ _ _) => apply never_raises_blink_underlights
  | |- never_raises _ _ (when _ _) => apply never_raises_when
  | |- never_raises _ _ (for_range _ _) => apply never_raises_for_range
  | |- never_raises _ _ (while _ _ _) => apply never_raises_while
  | |- never_raises _ _ (if ?c then _ else _) => destruct c
  | |- never_raises _ _ (match ?x with _ => _ end) => destruct x
  end.


Lemma zone_not_empty {A} (nr nc : nat) (arr : ndarray A) (sr sc er ec : Z) :
  rectangular nr nc arr ->
  (0 <= sr <= er)%Z -> (er < Z.of_nat nr)%Z ->
  (0 <= sc <= ec)%Z -> (ec < Z.of_nat nc)%Z ->
  concat (map (slice sc ec) (slice sr er arr)) <> [].
Proof.
  intros [Hlen Hrows] Hr Her Hc Hec.
  destruct (slice sr er arr) as [|row rest] eqn:E.
  - apply (f_equal (@length _)) in E. rewrite slice_length in E by lia.
    simpl in E. lia.
  - assert (Hrow : In row arr) by (apply (In_slice sr er); rewrite E; now left).
    rewrite Forall_forall in Hrows. specialize (Hrows row Hrow).
    cbn [map concat]. destruct (slice sc ec row) eqn:E2; [|discriminate].
    apply (f_equal (@length _)) in E2. rewrite slice_length in E2 by lia.
    simpl in E2. lia.
Qed.

Lemma int_np_average_Ok (m : list (list Z)) :
  concat m <> [] -> exists a, V072.int_np_average m = Ok a.
Proof.
  intros Hne. unfold V072.int_np_average, V072.np_average.
  destruct (concat m); [congruence|]. eexists. reflexivity.
Qed.

Section V072NeverRaises.
Variable E : environment.
Hypothesis frames : full_frames E.
Variable DRIVE_ON : bool.

Lemma np_distances_never_raises (fuel : nat) :
  never_raises E (rectangular 8 8) (V072.np_distances_vl53l5cx_mm fuel).
Proof.
  unfold V072.np_distances_vl53l5cx_mm.
  apply never_raises_seq; [repeat never_raises_step | intros _].
  apply (never_raises_bind E (fun data : list N => length data = 64%nat)).
  { unfold get_data. apply never_raises_call. intros t. exact (frames t). }
  intros data Hlen. unfold V072.reshape. rewrite length_map, Hlen.
  change (64 =? 8 * 8)%nat with true. cbv iota.
  change (lift (Ok (V072.rows_of 8 8 (map Z.of_N data))))
    with (@ret V072.globals _ (V072.rows_of 8 8 (map Z.of_N data))).
  apply (never_raises_bind E (fun d => d = V072.rows_of 8 8 (map Z.of_N data)));
    [now apply never_raises_ret | intros d ->].
  cbv zeta. apply never_raises_seq; [repeat never_raises_step | intros _].
  apply never_raises_ret.
  rewrite rows_of_rev by (rewrite length_map; exact Hlen).
  apply rows_of_rectangular. rewrite length_rev, length_map. exact Hlen.
Qed.

Lemma zone_average_never_raises {B} (dist : ndarray Z) (sr sc er ec : Z)
    (k : Z -> M V072.globals B) :
  rectangular 8 8 dist ->
  (0 <= sr <= er)%Z -> (er < 8)%Z -> (0 <= sc <= ec)%Z -> (ec < 8)%Z ->
  (forall a, never_raises E (fun _ => True) (k a)) ->
  never_raises E (fun _ => True)
    (bind (lift (V072.np_extract dist sr sc er ec)) (fun _mm =>
     bind (lift (V072.int_np_average _mm)) k)).
Proof.
  intros Hrect Hr Her Hc Hec Hk.
  rewrite (np_extract_slice 8 8 dist sr sc er ec Hrect Hr ltac:(simpl; lia) Hc
             ltac:(simpl; lia)).
  destruct (int_np_average_Ok (map (slice sc ec) (slice sr er dist))) as [a Ha].
  { apply (zone_not_empty 8 8); try assumption; simpl; lia. }
  intros w Hw. rewrite bind_lift_Ok, Ha, bind_lift_Ok. apply (Hk a w Hw).
Qed.

Lemma np_average_distances_never_raises (fuel : nat) :
  never_raises E (fun _ => True) (V072.np_average_distances fuel).
Proof.
  unfold V072.np_average_distances.
  apply (never_raises_bind E (rectangular 8 8));
    [apply np_distances_never_raises | intros dist Hrect].
  apply zone_average_never_raises; try assumption; try lia. intros c.
  apply zone_average_never_raises; try assumption; try lia. intros l.
  apply zone_average_never_raises; try assumption; try lia. intros r.
  now apply never_raises_ret.
Qed.

Lemma poll_zones_never_raises (fuel : nat) :
  never_raises E (fun _ => True) (V072.poll_zones fuel).
Proof.
  unfold V072.poll_zones.
  apply never_raises_seq; [apply np_average_distances_never_raises | intro].
  repeat never_raises_step.
Qed.

Lemma v072_perform_never_raises (m : V072.maneuver) :
  never_raises E (fun _ => True) (V072.perform DRIVE_ON m).
Proof.
  destruct m; unfold V072.perform, V072.turn_right, V072.turn_left, V072.backup;
    cbv zeta; repeat never_raises_step.
Qed.

Lemma v072_main_line_never_raises (fuel : nat) :
  never_raises E (fun _ => True) (V072.main_line DRIVE_ON fuel).
Proof.
  assert (Hreact : never_raises E (fun _ => True) (V072.react DRIVE_ON fuel)).
  { unfold V072.react, V072.backup.
    repeat first [ apply poll_zones_never_raises
                 | apply v072_perform_never_raises
                 | never_raises_step ]. }
  unfold V072.main_line. apply never_raises_try; [|repeat never_raises_step].
  apply never_raises_seq; [|intros _].
  - unfold V072.startup.
    repeat first [apply poll_zones_never_raises | never_raises_step].
  - unfold V072.control_loop. apply never_raises_while; [repeat never_raises_step|].
    unfold V072.cycle, V072.forward_loop, V072.react_loop.
    repeat first [ apply poll_zones_never_raises | exact Hreact | never_raises_step ].
Qed.

End V072NeverRaises.


Lemma ret_run {G A} (a : A) (w : world G) : ret a w = (Return a, w).
Proof. reflexivity. Qed.

Lemma while_local_exit {G S} (fuel : nat) (cond : S -> bool) (body : S -> M G S) (s : S) :
  cond s = false -> while_local fuel cond body s = ret s.
Proof. intros H. destruct fuel; cbn [while_local]; rewrite H; reflexivity. Qed.

Section UltrasonicNeverRaises.
Context {G : Type}.
Variable E : environment.
Hypothesis answers : answering_ranger E.
Variable RED : colour.
Variable namespace : list (string * Ultrasonic.blinker G).

Lemma valid_reading_never_raises :
  never_raises E (fun _ => True) (Ultrasonic.valid_reading RED namespace).
Proof.
  intros w Hw. unfold Ultrasonic.valid_reading.
  change (while_local 10 ?c ?b (- 1.0, 0%Z))
    with (bind (b (- 1.0, 0%Z)) (while_local 9 c b)).
  rewrite bind_run. cbv beta. rewrite bind_run.
  destruct (read_distance_cases w) as [Hrd | Hrd]; rewrite Hrd; cbv iota.
  - split; [exact Hw | exact I].
  - change (snd ((- 1.0)%Q, 0%Z) + 1 >=? 10)%Z with false. cbv iota.
    rewrite ret_run. cbv iota.
    rewrite while_local_exit.
    + split; [exact Hw | exact I].
    + cbn [fst snd].
      rewrite (valid_reading_ok (read_distance_at (env w) (length (log w))))
        by (rewrite Hw; apply answers).
      reflexivity.
Qed.

Lemma readings_never_raise (n : nat) :
  forall (count : Z) (total : Q),
    never_raises E (fun ct : Z * Q => fst ct = (count + Z.of_nat n)%Z)
      (for_range_local n
         (fun ct =>
            bind (Ultrasonic.valid_reading RED namespace) (fun dc =>
            bind (sleep 0.01) (fun _ =>
            ret ((fst ct + 1)%Z, Qred (snd ct + fst dc)))))
         (count, total)).
Proof.
  induction n as [|n IH]; intros count total.
  - cbn [for_range_local]. apply never_raises_ret. cbn. lia.
  - cbn [for_range_local].
    apply (never_raises_bind E (fun ct : Z * Q => fst ct = (count + 1)%Z)).
    + apply never_raises_seq; [apply valid_reading_never_raises | intros dc].
      apply never_raises_seq; [unfold sleep; now apply never_raises_call | intros _].
      now apply never_raises_ret.
    + intros [c t] Hc. cbn [fst] in Hc. subst c.
      intros w Hw. destruct (IH (count + 1)%Z t w Hw) as [He Ho]. split; [exact He|].
      destruct (fst (for_range_local n _ (count + 1, t)%Z w)); try exact Ho.
      rewrite Ho. lia.
Qed.

Lemma distance_reading_cm_never_raises (threshold : Q) (n : nat) :
  never_raises E (fun _ => True)
    (Ultrasonic.distance_reading_cm RED namespace threshold (S n)).
Proof.
  unfold Ultrasonic.distance_reading_cm. cbv zeta.
  apply (never_raises_bind E (fun ct : Z * Q => fst ct = (0 + Z.of_nat (S n))%Z));
    [apply readings_never_raise | intros [c t] Hc].
  cbn [fst snd] in *. subst c.
  replace (0 + Z.of_nat (S n) =? 0)%Z with false by (symmetry; apply Z.eqb_neq; lia).
  now apply never_raises_ret.
Qed.

End UltrasonicNeverRaises.

Lemma v100_main_line_never_raises (E : environment) (fuel : nat) :
  answering_ranger E -> never_raises E (fun _ => True) (V100.main_line fuel).
Proof.
  intros Hans.
  assert (Hread : never_raises E (fun _ => True) V100.take_reading).
  { unfold V100.take_reading, V100.distance_reading_cm.
    apply never_raises_seq;
      [now apply distance_reading_cm_never_raises | intro; never_raises_step]. }
  unfold V100.main_line. apply never_raises_try; [|repeat never_raises_step].
  unfold V100.control_loop. apply never_raises_while; [repeat never_raises_step|].
  unfold V100.cycle, V100.turn.
  repeat first [exact Hread | never_raises_step].
Qed.

Lemma v060_main_line_never_raises (E : environment) (fuel : nat) :
  answering_ranger E -> never_raises E (fun _ => True) (V060.main_line fuel).
Proof.
  intros Hans.
  assert (Hread : never_raises E (fun _ => True) V060.take_reading).
  { unfold V060.take_reading, V060.distance_reading_cm.
    apply never_raises_seq;
      [now apply distance_reading_cm_never_raises | intro; never_raises_step]. }
  unfold V060.main_line. apply never_raises_try; [|repeat never_raises_step].
  unfold V060.control_loop. apply never_raises_while; [repeat never_raises_step|].
  unfold V060.cycle, V060.forward, V060.react, V060.backup_pulses, V060.turn,
    V060.start_turn.
  repeat first [exact Hread | never_raises_step].
Qed.

(** A run that stops on Ctrl/C and raises nothing answers the Ctrl/C. *)
Lemma stops_and_never_raises {G} (main_line : nat -> M G unit) (fuel : nat)
    (w : world G) :
  stops_on_ctrl_c main_line fuel w ->
  never_raises (env w) (fun _ => True) (main_line fuel) ->
  ctrl_c_is_answered main_line fuel w.
Proof.
  intros [Hstop Hdue] Hsafe k Hk Hlen Hfuel. cbv zeta.
  destruct (Hsafe w eq_refl) as [_ Hno].
  destruct (Hdue k Hk Hlen Hfuel) as [[Hret Hnone] | (e & He & _)].
  - destruct (Hstop ltac:(congruence) Hnone) as (_ & Hlast & Hcmd).
    repeat split; assumption.
  - rewrite He in Hno. destruct Hno.
Qed.


(** C4.  In each of the three scripts, whatever the main line is doing
    when the operator's Ctrl/C is delivered, the run ends with
    [set_motor_speeds(0.0, 0.0)] as its latest call, so the motor command
    in effect is (0.0, 0.0); and a Ctrl/C due as the k-th call is delivered
    (unless an uncaught exception has ended the script before it).  Where
    the script raises nothing (in [Trilobot_v072.py] when every frame of
    the sensor has its 64 distances, in [Trilobot.py] and
    [Trilobot_v060.py] when the ranger answers every reading), the Ctrl/C
    is delivered and answered by the stop, whenever it comes. *)
Theorem keyboard_interrupt_stops_motors :
  forall (DRIVE_ON : bool) (fuel : nat),
    (forall w : world V072.globals,
       stops_on_ctrl_c (V072.main_line DRIVE_ON) fuel w /\
       (full_frames (env w) -> ctrl_c_is_answered (V072.main_line DRIVE_ON) fuel w)) /\
    (forall w : world V100.globals,
       stops_on_ctrl_c V100.main_line fuel w /\
       (answering_ranger (env w) -> ctrl_c_is_answered V100.main_line fuel w)) /\
    (forall w : world V060.globals,
       stops_on_ctrl_c V060.main_line fuel w /\
       (answering_ranger (env w) -> ctrl_c_is_answered V060.main_line fuel w)).
Proof.
  intros DRIVE_ON fuel. split; [|split]; intros w.
  - split; [apply v072_body_stops | intros Hframes].
    apply stops_and_never_raises; [apply v072_body_stops|].
    now apply v072_main_line_never_raises.
  - split; [apply v100_body_stops | intros Hans].
    apply stops_and_never_raises; [apply v100_body_stops|].
    now apply v100_main_line_never_raises.
  - split; [apply v060_body_stops | intros Hans].
    apply stops_and_never_raises; [apply v060_body_stops|].
    now apply v060_main_line_never_raises.
Qed.

Lemma keyboard_interrupt_stops_motors_witness :
  (fst (V072.main_line true 41 v072_ctrl_c_pending) = Return tt /\
   sigint (snd (V072.main_line true 41 v072_ctrl_c_pending)) = None /\
   (exists before,
      log (snd (V072.main_line true 41 v072_ctrl_c_pending))
      = SetMotorSpeeds 0.0 0.0 :: before) /\
   motor_command (log (snd (V072.main_line true 41 v072_ctrl_c_pending)))
   = Some (0.0, 0.0)) /\
  (fst (V100.main_line 51 v100_ctrl_c_pending) = Return tt /\
   sigint (snd (V100.main_line 51 v100_ctrl_c_pending)) = None /\
   (exists before,
      log (snd (V100.main_line 51 v100_ctrl_c_pending))
      = SetMotorSpeeds 0.0 0.0 :: before) /\
   motor_command (log (snd (V100.main_line 51 v100_ctrl_c_pending)))
   = Some (0.0, 0.0)) /\
  (fst (V060.main_line 51 v060_ctrl_c_pending) = Return tt /\
   sigint (snd (V060.main_line 51 v060_ctrl_c_pending)) = None /\
   (exists before,
      log (snd (V060.main_line 51 v060_ctrl_c_pending))
      = SetMotorSpeeds 0.0 0.0 :: before) /\
   motor_command (log (snd (V060.main_line 51 v060_ctrl_c_pending)))
   = Some (0.0, 0.0)).
Proof.
  split; [|split].
  - apply (proj2 (proj1 (keyboard_interrupt_stops_motors true 41) v072_ctrl_c_pending))
      with (k := 40%nat).
    + intros t. reflexivity.
    + reflexivity.
    + simpl. lia.
    + simpl. lia.
  - apply (proj2 (proj1 (proj2 (keyboard_interrupt_stops_motors true 51))
                   v100_ctrl_c_pending)) with (k := 50%nat).
    + intros t. simpl. discriminate.
    + reflexivity.
    + simpl. lia.
    + simpl. lia.
  - apply (proj2 (proj2 (proj2 (keyboard_interrupt_stops_motors true 51))
                   v060_ctrl_c_pending)) with (k := 50%nat).
    + intros t. simpl. discriminate.
    + reflexivity.
    + simpl. lia.
    + simpl. lia.
Defined.
